(** * APIBridge MCP server: the OpenAPI parser and the tool manager

    A shallow embedding of [src/services/openapi-parser.js] and
    [src/tools/tool-manager.js], with the properties of the schema
    resolver, the sample-data synthesizer, the workflow synthesizer and
    the workflow execution engine stated over it, followed by the
    properties of the endpoint registry, the tool names and schemas, the
    request body and the validation of an endpoint.

    Conventions of the embedding.
    - A JavaScript value that can come out of a parsed YAML/JSON document
      or an HTTP response is a [jsval]; [JUndefined] is the value of an
      absent property.  Numbers are integers.
    - A string is the sequence of the bytes of its UTF-8 encoding; case
      conversion touches the ASCII letters only.
    - An object is the list of its own properties in enumeration order.
      Property names that are canonical array indices, which JavaScript
      enumerates before the others, are not given their special
      treatment.  A computed name is looked up among the own properties:
      the members every plain object inherits from [Object.prototype]
      ([object_prototype_names]) are not in the embedding, and the
      properties that depend on the lookup of such a name exclude these
      names by hypothesis.
    - A call that raises an exception returns [Throw]; the recursion
      depth of the recursive functions is bounded by a [fuel] argument,
      and running out of it is the engine's stack overflow, [RangeError].
    - A JavaScript [Map] whose iteration order matters is the list of its
      entries in insertion order; the context store, which is only read
      and written by key, is a [gmap] with string keys.
    - The HTTP client, [URLSearchParams] and the clock are parameters of
      the functions that use them. *)

From Stdlib Require Import ZArith String Ascii List Bool Lia.
From stdpp Require Import base strings gmap list pretty.

Local Open Scope string_scope.
Local Open Scope Z_scope.
Local Open Scope list_scope.
Set Warnings "-register-all".

(** ** JavaScript values *)

Module Js.

Inductive jsval : Type :=
| JUndefined
| JNull
| JBool (b : bool)
| JNum (n : Z)
| JStr (s : string)
| JArr (xs : list jsval)
| JObj (kvs : list (string * jsval)).

Inductive error : Type :=
| Error (msg : string)
| TypeError
| RangeError.

Inductive outcome (A : Type) : Type :=
| Ret (a : A)
| Throw (e : error).
Arguments Ret {A} a.
Arguments Throw {A} e.

Definition bind {A B} (m : outcome A) (k : A -> outcome B) : outcome B :=
  match m with
  | Ret a => k a
  | Throw e => Throw e
  end.

Notation "'do' x <- m ; k" := (bind m (fun x => k))
  (at level 10, x name, m at level 100, k at level 200).

Fixpoint mapM {A B} (f : A -> outcome B) (l : list A) : outcome (list B) :=
  match l with
  | [] => Ret []
  | a :: l' => do b <- f a; do bs <- mapM f l'; Ret (b :: bs)
  end.

Fixpoint foldM {A S} (f : S -> A -> outcome S) (l : list A) (s : S) : outcome S :=
  match l with
  | [] => Ret s
  | a :: l' => do s' <- f s a; foldM f l' s'
  end.

(** The message an [Error] carries.  The text of the errors the engine
    raises itself is specific to the engine; only their kind is kept. *)
Definition message (e : error) : string :=
  match e with
  | Error msg => msg
  | TypeError => "TypeError"
  | RangeError => "Maximum call stack size exceeded"
  end.

(** *** Strings *)

Definition dquote : ascii := ascii_of_nat 34.
Definition backslash : ascii := ascii_of_nat 92.
Definition newline : ascii := ascii_of_nat 10.

Definition chars (s : string) : list ascii := list_ascii_of_string s.
Definition str (l : list ascii) : string := string_of_list_ascii l.

Definition lower_char (c : ascii) : ascii :=
  let n := nat_of_ascii c in
  if ((65 <=? n) && (n <=? 90))%nat then ascii_of_nat (n + 32) else c.

Definition upper_char (c : ascii) : ascii :=
  let n := nat_of_ascii c in
  if ((97 <=? n) && (n <=? 122))%nat then ascii_of_nat (n - 32) else c.

Fixpoint toLowerCase (s : string) : string :=
  match s with
  | EmptyString => EmptyString
  | String c s' => String (lower_char c) (toLowerCase s')
  end.

Fixpoint toUpperCase (s : string) : string :=
  match s with
  | EmptyString => EmptyString
  | String c s' => String (upper_char c) (toUpperCase s')
  end.

Definition startsWith (s p : string) : bool := String.prefix p s.

(** [includes s sub]: [sub] occurs somewhere in [s]. *)
Fixpoint includes (s sub : string) : bool :=
  startsWith s sub ||
  match s with
  | EmptyString => false
  | String _ s' => includes s' sub
  end.

Fixpoint drop (n : nat) (s : string) : string :=
  match n, s with
  | O, _ => s
  | S n', String _ s' => drop n' s'
  | S _, EmptyString => EmptyString
  end.

Definition endsWith (s suf : string) : bool :=
  (String.length suf <=? String.length s)%nat
  && String.eqb (drop (String.length s - String.length suf) s) suf.

(** [s.slice(0, -1)] *)
Definition slice_init (s : string) : string :=
  substring 0 (String.length s - 1) s.

(** [s.split(sep)] for a one-character separator. *)
Fixpoint split (sep : ascii) (s : string) : list string :=
  match s with
  | EmptyString => [EmptyString]
  | String c s' =>
      if Ascii.eqb c sep then EmptyString :: split sep s'
      else match split sep s' with
           | [] => [String c EmptyString]
           | w :: ws => String c w :: ws
           end
  end.

Fixpoint join (sep : string) (l : list string) : string :=
  match l with
  | [] => EmptyString
  | [s] => s
  | s :: l' => s +:+ sep +:+ join sep l'
  end.

(** [s.indexOf(pat)], by position. *)
Fixpoint indexOf (s pat : string) : option nat :=
  if startsWith s pat then Some O
  else match s with
       | EmptyString => None
       | String _ s' => S <$> indexOf s' pat
       end.

(** The replacement text of [String.prototype.replace] when the pattern
    has no capture groups: [$$], [$&], [$`] and [$'] are expanded, every
    other [$] is literal. *)
Fixpoint getSubstitution (matched before after : string) (repl : string) : string :=
  match repl with
  | EmptyString => EmptyString
  | String c r =>
      if Ascii.eqb c "$" then
        match r with
        | String d r' =>
            if Ascii.eqb d "$" then String "$" (getSubstitution matched before after r')
            else if Ascii.eqb d "&" then matched +:+ getSubstitution matched before after r'
            else if Ascii.eqb d "`" then before +:+ getSubstitution matched before after r'
            else if Ascii.eqb d "'" then after +:+ getSubstitution matched before after r'
            else String c (getSubstitution matched before after r)
        | EmptyString => String c EmptyString
        end
      else String c (getSubstitution matched before after r)
  end.

(** [s.replace(pat, repl)] for a string pattern: the first occurrence
    only. *)
Definition replace (s pat repl : string) : string :=
  match indexOf s pat with
  | None => s
  | Some i =>
      let before := substring 0 i s in
      let after := drop (i + String.length pat) s in
      before +:+ getSubstitution pat before after repl +:+ after
  end.

(** The text up to the next closing brace, and what follows the brace. *)
Fixpoint until_brace (s : string) : option (string * string) :=
  match s with
  | EmptyString => None
  | String c s' =>
      if Ascii.eqb c "}" then Some (EmptyString, s')
      else match until_brace s' with
           | Some (body, rest) => Some (String c body, rest)
           | None => None
           end
  end.

(** *** Truthiness, property access, conversion to string *)

Definition truthy (v : jsval) : bool :=
  match v with
  | JUndefined | JNull => false
  | JBool b => b
  | JNum n => negb (n =? 0)
  | JStr s => negb (String.eqb s "")
  | JArr _ | JObj _ => true
  end.

Definition nullish (v : jsval) : bool :=
  match v with
  | JUndefined | JNull => true
  | _ => false
  end.


(** [typeof v === 'object'] *)
Definition typeof_object (v : jsval) : bool :=
  match v with JNull | JArr _ | JObj _ => true | _ => false end.

Definition is_str (v : jsval) (s : string) : bool :=
  match v with JStr t => String.eqb t s | _ => false end.

Fixpoint obj_get (k : string) (kvs : list (string * jsval)) : jsval :=
  match kvs with
  | [] => JUndefined
  | (k', v) :: kvs' => if String.eqb k' k then v else obj_get k kvs'
  end.

Fixpoint obj_has (k : string) (kvs : list (string * jsval)) : bool :=
  match kvs with
  | [] => false
  | (k', _) :: kvs' => String.eqb k' k || obj_has k kvs'
  end.

(** [o[k] = v]: an existing property keeps its place. *)
Fixpoint obj_set (k : string) (v : jsval) (kvs : list (string * jsval))
  : list (string * jsval) :=
  match kvs with
  | [] => [(k, v)]
  | (k', v') :: kvs' =>
      if String.eqb k' k then (k', v) :: kvs' else (k', v') :: obj_set k v kvs'
  end.

(** [delete o[k]] *)
Fixpoint obj_delete (k : string) (kvs : list (string * jsval))
  : list (string * jsval) :=
  match kvs with
  | [] => []
  | (k', v') :: kvs' =>
      if String.eqb k' k then obj_delete k kvs' else (k', v') :: obj_delete k kvs'
  end.

(** The element of [l] whose index is written [k]. *)
Fixpoint index_get {A} (i : nat) (k : string) (l : list A) : option A :=
  match l with
  | [] => None
  | a :: l' => if String.eqb (pretty i) k then Some a else index_get (S i) k l'
  end.

Fixpoint indexed {A} (i : nat) (l : list A) : list (string * A) :=
  match l with
  | [] => []
  | a :: l' => (pretty i, a) :: indexed (S i) l'
  end.

Definition char_vals (s : string) : list jsval :=
  map (fun c => JStr (String c EmptyString)) (chars s).

(** [o[k]] on a value that is neither [null] nor [undefined]. *)
Definition get (o : jsval) (k : string) : jsval :=
  match o with
  | JObj kvs => obj_get k kvs
  | JArr xs =>
      if String.eqb k "length" then JNum (Z.of_nat (length xs))
      else default JUndefined (index_get 0 k xs)
  | JStr s =>
      if String.eqb k "length" then JNum (Z.of_nat (String.length s))
      else default JUndefined (index_get 0 k (char_vals s))
  | _ => JUndefined
  end.

(** [o[k]], which raises a [TypeError] on [null] and [undefined]. *)
Definition getp (o : jsval) (k : string) : outcome jsval :=
  if nullish o then Throw TypeError else Ret (get o k).

(** [o?.[k]] *)
Definition get_opt (o : jsval) (k : string) : jsval :=
  if nullish o then JUndefined else get o k.

(** [k in o], for an object or an array. *)
Definition has_property (o : jsval) (k : string) : bool :=
  match o with
  | JObj kvs => obj_has k kvs
  | JArr xs => String.eqb k "length" || bool_decide (is_Some (index_get 0 k xs))
  | _ => false
  end.

(** [Object.entries(v)], also the properties [{...v}] copies. *)
Definition entries (v : jsval) : list (string * jsval) :=
  match v with
  | JObj kvs => kvs
  | JArr xs => indexed 0 xs
  | JStr s => indexed 0 (char_vals s)
  | _ => []
  end.

(** [Object.assign(target, src)] on the property lists. *)
Definition obj_assign (target src : list (string * jsval)) : list (string * jsval) :=
  fold_left (fun t kv => obj_set kv.1 kv.2 t) src target.

(** [String(v)], as a template literal or a property key converts. *)
Fixpoint toString (v : jsval) : string :=
  match v with
  | JUndefined => "undefined"
  | JNull => "null"
  | JBool true => "true"
  | JBool false => "false"
  | JNum n => pretty n
  | JStr s => s
  | JArr xs =>
      join "," (map (fun x => if nullish x then EmptyString else toString x) xs)
  | JObj _ => "[object Object]"
  end.

(** *** [JSON.stringify] *)

Definition hex_digit (n : nat) : ascii :=
  nth n (chars "0123456789abcdef") "0"%char.

Definition escape_char (c : ascii) : string :=
  let n := nat_of_ascii c in
  if Ascii.eqb c dquote then String backslash (String dquote EmptyString)
  else if Ascii.eqb c backslash then String backslash (String backslash EmptyString)
  else if (n =? 8)%nat then "\b"
  else if (n =? 12)%nat then "\f"
  else if (n =? 10)%nat then "\n"
  else if (n =? 13)%nat then "\r"
  else if (n =? 9)%nat then "\t"
  else if (n <? 32)%nat then
    "\u00" +:+ String (hex_digit (n / 16)) (String (hex_digit (n mod 16)) EmptyString)
  else String c EmptyString.

Fixpoint escape (s : string) : string :=
  match s with
  | EmptyString => EmptyString
  | String c s' => escape_char c +:+ escape s'
  end.

Definition quote (s : string) : string :=
  String dquote (escape s) +:+ String dquote EmptyString.

(** [JSON.stringify(v)]; [None] is the [undefined] it returns for
    [undefined].  An [undefined] array element is written [null], an
    [undefined] property is left out. *)
Fixpoint stringify (v : jsval) : option string :=
  match v with
  | JUndefined => None
  | JNull => Some "null"
  | JBool true => Some "true"
  | JBool false => Some "false"
  | JNum n => Some (pretty n)
  | JStr s => Some (quote s)
  | JArr xs =>
      Some ("[" +:+ join "," (map (fun x => default "null" (stringify x)) xs) +:+ "]")
  | JObj kvs =>
      let member kv :=
        match stringify kv.2 with
        | Some s => Some (quote kv.1 +:+ ":" +:+ s)
        | None => None
        end in
      Some ("{" +:+ join "," (omap member kvs) +:+ "}")
  end.

(** [JSON.stringify(v, null, 2)]; [ind] is the current indentation. *)
Fixpoint stringify_indent (ind : string) (v : jsval) : option string :=
  match v with
  | JUndefined => None
  | JNull => Some "null"
  | JBool true => Some "true"
  | JBool false => Some "false"
  | JNum n => Some (pretty n)
  | JStr s => Some (quote s)
  | JArr xs =>
      let inner := ind +:+ "  " in
      match map (fun x => inner +:+ default "null" (stringify_indent inner x)) xs with
      | [] => Some "[]"
      | items =>
          Some ("[" +:+ String newline (join (String "," (String newline EmptyString)) items)
                +:+ String newline ind +:+ "]")
      end
  | JObj kvs =>
      let inner := ind +:+ "  " in
      let member kv :=
        match stringify_indent inner kv.2 with
        | Some s => Some (inner +:+ quote kv.1 +:+ ": " +:+ s)
        | None => None
        end in
      match omap member kvs with
      | [] => Some "{}"
      | items =>
          Some ("{" +:+ String newline (join (String "," (String newline EmptyString)) items)
                +:+ String newline ind +:+ "}")
      end
  end.

End Js.

(** ** [src/services/openapi-parser.js] *)

Module OpenAPIParser.
Import Js.

(** One entry of [endpoint.operations], as [generateEndpoints] builds it. *)
Record Operation : Type := {
  operationId : jsval;
  op_summary : jsval;
  op_description : jsval;
  op_parameters : jsval;
  requestBody : jsval;
  op_responses : jsval;
  op_path : string;
  isCollection : bool
}.

Record Endpoint : Type := {
  ep_name : string;
  ep_path : string;
  ep_methods : list string;
  operations : gmap string Operation;
  ep_schema : jsval
}.

Record Step : Type := {
  action : string;
  step_description : string;
  args : option (list (string * jsval))
}.

Record Workflow : Type := {
  wf_name : string;
  wf_description : string;
  steps : list Step
}.

(** A foreign-key dependency, one element of [_dynamicForeignKeys]. *)
Record Dependency : Type := {
  sourceProperty : string;
  targetEndpoint : string;
  marker : string
}.

Definition dep_value (d : Dependency) : jsval :=
  JObj [("sourceProperty", JStr (sourceProperty d));
        ("targetEndpoint", JStr (targetEndpoint d));
        ("marker", JStr (marker d))].

(** A [Map] with string keys, in insertion order. *)
Fixpoint map_get {V} (k : string) (m : list (string * V)) : option V :=
  match m with
  | [] => None
  | (k', v) :: m' => if String.eqb k' k then Some v else map_get k m'
  end.

Definition map_has {V} (k : string) (m : list (string * V)) : bool :=
  bool_decide (is_Some (map_get k m)).

Fixpoint map_set {V} (k : string) (v : V) (m : list (string * V)) : list (string * V) :=
  match m with
  | [] => [(k, v)]
  | (k', v') :: m' =>
      if String.eqb k' k then (k', v) :: m' else (k', v') :: map_set k v m'
  end.

(** The state of an [OpenAPIParser] instance. *)
Record Parser : Type := {
  spec : jsval;
  endpoints : list (string * Endpoint);
  workflows : list (string * Workflow)
}.

(** *** [resolveSchemaReference] *)

(** [refPath = $ref.replace(/^#\//, '').split('/')] *)
Definition refPath (ref : string) : list string :=
  split "/" (if startsWith ref "#/" then drop 2 ref else ref).

(** The walk from the document root along the parts of a reference;
    [None] when a part is missing (the code warns and returns [null]). *)
Fixpoint walk (resolved : jsval) (parts : list string) : option jsval :=
  match parts with
  | [] => Some resolved
  | part :: parts' =>
      if truthy resolved && typeof_object resolved && has_property resolved part
      then walk (get resolved part) parts'
      else None
  end.

(** [resolvedProperties] gets the properties of [schemaOrRef.properties]
    in their order, each with its resolved value. *)
Fixpoint resolveSchemaReference (fuel : nat) (spec : jsval) (schemaOrRef : jsval)
  : outcome jsval :=
  match fuel with
  | O => Throw RangeError
  | S fuel' =>
      if negb (truthy schemaOrRef) then Ret JNull
      else if truthy (get schemaOrRef "$ref") then
        match get schemaOrRef "$ref" with
        | JStr ref =>
            match walk spec (refPath ref) with
            | Some resolved => resolveSchemaReference fuel' spec resolved
            | None => Ret JNull
            end
        | _ => Throw TypeError
        end
      else if is_str (get schemaOrRef "type") "object"
              && truthy (get schemaOrRef "properties") then
        do resolvedProperties <-
          mapM (fun kv => do v <- resolveSchemaReference fuel' spec kv.2; Ret (kv.1, v))
               (entries (get schemaOrRef "properties"));
        Ret (JObj (obj_set "properties" (JObj resolvedProperties) (entries schemaOrRef)))
      else if is_str (get schemaOrRef "type") "array"
              && truthy (get schemaOrRef "items") then
        do items <- resolveSchemaReference fuel' spec (get schemaOrRef "items");
        Ret (JObj (obj_set "items" items (entries schemaOrRef)))
      else Ret schemaOrRef
  end.

Definition extractSchemaFromRequestBody (fuel : nat) (spec : jsval) (requestBody : jsval)
  : outcome jsval :=
  let schema :=
    get_opt (get_opt (get_opt requestBody "content") "application/json") "schema" in
  if negb (truthy schema) then Ret JNull
  else resolveSchemaReference fuel spec schema.

(** *** Foreign-key detection *)

Definition pluralize (word : string) : string :=
  if endsWith word "y" then slice_init word +:+ "ies"
  else if endsWith word "s" || endsWith word "x" || endsWith word "z"
          || endsWith word "ch" || endsWith word "sh"
  then word +:+ "es"
  else word +:+ "s".

Definition resourceMappings (targetResource : string) : option string :=
  if String.eqb targetResource "author" then Some "users"
  else if String.eqb targetResource "user" then Some "users"
  else if String.eqb targetResource "owner" then Some "users"
  else if String.eqb targetResource "creator" then Some "users"
  else if String.eqb targetResource "category" then Some "categories"
  else if String.eqb targetResource "tag" then Some "tags"
  else None.

(** A byte that is neither a line feed nor a carriage return. *)
Definition is_dot (c : ascii) : bool :=
  negb (Ascii.eqb c newline || Ascii.eqb c (ascii_of_nat 13)).

(** The separators U+2028 and U+2029, as the three bytes each takes. *)
Definition line_separator : string :=
  String (ascii_of_nat 226) (String (ascii_of_nat 128)
    (String (ascii_of_nat 168) EmptyString)).

Definition paragraph_separator : string :=
  String (ascii_of_nat 226) (String (ascii_of_nat 128)
    (String (ascii_of_nat 169) EmptyString)).

(** [.] of a regular expression matches every character of [s]: the
    text holds none of the four line terminators, LF, CR, U+2028 and
    U+2029. *)
Fixpoint dots (s : string) : bool :=
  match s with
  | EmptyString => true
  | String c s' =>
      is_dot c && negb (startsWith s line_separator)
      && negb (startsWith s paragraph_separator) && dots s'
  end.

Definition dot_plus (s : string) : bool :=
  negb (String.eqb s "") && dots s.

(** The three patterns of [fkPatterns], each returning its group 1:
    [/^(.+)id$/i], [/^(.+)_id$/i] and [/^id_(.+)$/i]. *)
Definition match_suffix_i (suffix : string) (propName : string) : option string :=
  let n := (String.length propName - String.length suffix)%nat in
  let word := substring 0 n propName in
  if String.eqb (toLowerCase (drop n propName)) suffix && dot_plus word
  then Some word else None.

Definition match_prefix_i (prefix : string) (propName : string) : option string :=
  let n := String.length prefix in
  let word := drop n propName in
  if String.eqb (toLowerCase (substring 0 n propName)) prefix && dot_plus word
  then Some word else None.

Definition fkPatterns : list (string -> option string) :=
  [match_suffix_i "id"; match_suffix_i "_id"; match_prefix_i "id_"].

Record ForeignKeyInfo : Type := {
  fk_sourceProperty : string;
  fk_targetEndpoint : string;
  fk_targetResource : string
}.

(** The endpoint one pattern points at, when it matches. *)
Definition candidate (propName : string) (pattern : string -> option string)
  : option (string * string) :=
  match pattern propName with
  | Some group =>
      let targetResource := toLowerCase group in
      Some (targetResource,
            default (pluralize targetResource) (resourceMappings targetResource))
  | None => None
  end.

Fixpoint detect_loop (endpoints : list (string * Endpoint)) (propName : string)
    (isUuid : bool) (patterns : list (string -> option string))
  : option ForeignKeyInfo :=
  match patterns with
  | [] => None
  | pattern :: patterns' =>
      match candidate propName pattern with
      | Some (targetResource, targetEndpoint) =>
          if isUuid && map_has targetEndpoint endpoints then
            Some {| fk_sourceProperty := propName;
                    fk_targetEndpoint := targetEndpoint;
                    fk_targetResource := targetResource |}
          else detect_loop endpoints propName isUuid patterns'
      | None => detect_loop endpoints propName isUuid patterns'
      end
  end.

Definition detectForeignKeyRelationship (endpoints : list (string * Endpoint))
    (propName : string) (propSchema : jsval) (currentEndpoint : string)
  : option ForeignKeyInfo :=
  detect_loop endpoints propName (is_str (get propSchema "format") "uuid") fkPatterns.

(** *** Sample data *)

(** [for (const x of v)]: arrays and strings are iterable. *)
Definition iterate (v : jsval) : outcome (list jsval) :=
  match v with
  | JArr xs => Ret xs
  | JStr s => Ret (char_vals s)
  | _ => Throw TypeError
  end.

Definition is_undefined (v : jsval) : bool :=
  match v with JUndefined => true | _ => false end.

(** The body of [generateSampleData], over the function [gen] it calls
    for each property ([generateSampleValueForProp], one level down).
    [properties[propName]] is looked up among the own properties of
    [properties]. *)
Definition generateSampleData_body (gen : jsval -> jsval -> outcome jsval)
    (schema : jsval) : outcome (list (string * jsval)) :=
  if negb (truthy schema) || negb (is_str (get schema "type") "object")
     || negb (truthy (get schema "properties"))
  then Ret []
  else
    let properties := get schema "properties" in
    let required :=
      if is_undefined (get schema "required") then JArr [] else get schema "required" in
    do names <- iterate required;
    do sampleData <-
      foldM (fun sampleData propName =>
               let prop := get properties (toString propName) in
               if truthy prop then
                 if truthy (get prop "readOnly") then Ret sampleData
                 else do v <- gen propName prop;
                      Ret (obj_set (toString propName) v sampleData)
               else Ret sampleData)
            names [];
    foldM (fun sampleData kv =>
             if obj_has kv.1 sampleData then Ret sampleData
             else do readOnly <- getp kv.2 "readOnly";
                  if truthy readOnly then Ret sampleData
                  else do v <- gen (JStr kv.1) kv.2;
                       Ret (obj_set kv.1 v sampleData))
          (entries properties) sampleData.

Definition uuid_literal : string := "123e4567-e89b-12d3-a456-426614174000".

(** The [case 'string'] of [generateSampleValueForProp]. *)
Definition sampleString (endpoints : list (string * Endpoint))
    (propName : string) (propSchema : jsval) (endpointName : string) : string :=
  let format := get propSchema "format" in
  let lowerPropName := toLowerCase propName in
  if is_str format "email" || includes lowerPropName "email"
  then "workflow.test@example.com"
  else if is_str format "date" then "2025-01-01"
  else if is_str format "date-time" then "2025-01-01T10:00:00Z"
  else if is_str format "uuid" then
    match detectForeignKeyRelationship endpoints propName propSchema endpointName with
    | Some foreignKeyInfo =>
        "{{DYNAMIC_" +:+ toUpperCase (fk_targetEndpoint foreignKeyInfo) +:+ "_ID}}"
    | None => uuid_literal
    end
  else if is_str format "password" || includes lowerPropName "password"
  then "WorkflowTestPass123!"
  else if is_str format "uri" || includes lowerPropName "url"
  then "https://example.com/test"
  else if includes lowerPropName "firstname" || includes lowerPropName "first_name"
  then "Workflow"
  else if includes lowerPropName "lastname" || includes lowerPropName "last_name"
  then "TestUser"
  else if includes lowerPropName "fullname" || includes lowerPropName "full_name"
  then "Workflow TestUser"
  else if includes lowerPropName "username" then "workflow_tester"
  else if includes lowerPropName "title" then "Sample Workflow Title"
  else if includes lowerPropName "description"
  then "This is a sample description generated for testing."
  else if includes lowerPropName "content"
  then "This is sample content for a test entry."
  else if includes lowerPropName "phone" then "123-456-7890"
  else if includes lowerPropName "address" then "123 Test St, Sample City"
  else if includes lowerPropName "city" then "Sample City"
  else if includes lowerPropName "country" then "USA"
  else if includes lowerPropName "zip" || includes lowerPropName "postal" then "12345"
  else if includes lowerPropName "name" then "Sample " +:+ propName
  else "test_" +:+ lowerPropName.

Fixpoint generateSampleValueForProp (fuel : nat) (endpoints : list (string * Endpoint))
    (propName : jsval) (propSchema : jsval) (endpointName : string) : outcome jsval :=
  match fuel with
  | O => Throw RangeError
  | S fuel' =>
      do example <- getp propSchema "example";
      if negb (is_undefined example) then Ret example
      else if truthy (get propSchema "enum") then Ret (get (get propSchema "enum") "0")
      else
        match propName with
        | JStr name =>
            let type := get propSchema "type" in
            if is_str type "string" then
              Ret (JStr (sampleString endpoints name propSchema endpointName))
            else if is_str type "integer" || is_str type "number" then
              Ret (if is_undefined (get propSchema "minimum") then JNum 10
                   else get propSchema "minimum")
            else if is_str type "boolean" then Ret (JBool true)
            else if is_str type "array" then
              if truthy (get propSchema "items") then
                do item <- generateSampleValueForProp fuel' endpoints
                             (JStr (name +:+ "_item")) (get propSchema "items") endpointName;
                Ret (JArr [item])
              else Ret (JArr [])
            else if is_str type "object" then
              do sampleData <-
                generateSampleData_body
                  (fun n s => generateSampleValueForProp fuel' endpoints n s endpointName)
                  propSchema;
              Ret (JObj sampleData)
            else Ret JNull
        | _ => Throw TypeError
        end
  end.

Definition generateSampleData (fuel : nat) (endpoints : list (string * Endpoint))
    (schema : jsval) (endpointName : string) : outcome (list (string * jsval)) :=
  generateSampleData_body
    (fun n s => generateSampleValueForProp fuel endpoints n s endpointName) schema.

(** *** Dependency extraction *)

Definition is_word_char (c : ascii) : bool :=
  let n := nat_of_ascii c in
  ((48 <=? n) && (n <=? 57) || (65 <=? n) && (n <=? 90)
   || (97 <=? n) && (n <=? 122) || (n =? 95))%nat.

Fixpoint word_run (s : string) : string :=
  match s with
  | EmptyString => EmptyString
  | String c s' => if is_word_char c then String c (word_run s') else EmptyString
  end.

(** [/\{\{DYNAMIC_(\w+)_ID\}\}/] anchored at the head of [s]: the matched
    text and group 1.  A closing brace is not a word character, so the
    group and [_ID] together are the whole run of word characters that
    follows [DYNAMIC_]. *)
Definition marker_at (s : string) : option (string * string) :=
  if startsWith s "{{DYNAMIC_" then
    let run := word_run (drop 10 s) in
    if startsWith (drop (10 + String.length run) s) "}}"
       && (4 <=? String.length run)%nat && endsWith run "_ID"
    then Some ("{{DYNAMIC_" +:+ run +:+ "}}", substring 0 (String.length run - 3) run)
    else None
  else None.

(** [dataStr.match(/\{\{DYNAMIC_(\w+)_ID\}\}/g)]: the matches from left
    to right, the search resuming after each one. *)
Fixpoint marker_matches (skip : nat) (s : string) : list string :=
  match s with
  | EmptyString => []
  | String _ s' =>
      match skip with
      | S n => marker_matches n s'
      | O =>
          match marker_at s with
          | Some (m, _) => m :: marker_matches (String.length m - 1) s'
          | None => marker_matches 0 s'
          end
      end
  end.

(** The inner [findPropertyWithMarker]: the property name and the path of
    the first property, depth first, whose value is the marker. *)
Fixpoint findPropertyWithMarker (obj : jsval) (marker : string) (path : string)
  : option (string * string) :=
  let currentPath key :=
    if negb (String.eqb path "") then path +:+ "." +:+ key else key in
  match obj with
  | JObj kvs =>
      (fix loop (l : list (string * jsval)) : option (string * string) :=
         match l with
         | [] => None
         | (key, value) :: l' =>
             match value with
             | JStr s =>
                 if String.eqb s marker then Some (key, currentPath key) else loop l'
             | JArr _ | JObj _ =>
                 match findPropertyWithMarker value marker (currentPath key) with
                 | Some result => Some result
                 | None => loop l'
                 end
             | _ => loop l'
             end
         end) kvs
  | JArr xs =>
      (fix loop (i : nat) (l : list jsval) : option (string * string) :=
         match l with
         | [] => None
         | value :: l' =>
             let key := pretty i in
             match value with
             | JStr s =>
                 if String.eqb s marker then Some (key, currentPath key)
                 else loop (S i) l'
             | JArr _ | JObj _ =>
                 match findPropertyWithMarker value marker (currentPath key) with
                 | Some result => Some result
                 | None => loop (S i) l'
                 end
             | _ => loop (S i) l'
             end
         end) 0%nat xs
  | _ => None
  end.

Definition analyzeForeignKeyDependencies (sampleData : list (string * jsval))
  : list Dependency :=
  let dataStr := default EmptyString (stringify (JObj sampleData)) in
  flat_map
    (fun m =>
       let targetEndpoint :=
         toLowerCase (default EmptyString (snd <$> marker_at m)) in
       match findPropertyWithMarker (JObj sampleData) m EmptyString with
       | Some propertyInfo =>
           [ {| sourceProperty := propertyInfo.1;
                targetEndpoint := targetEndpoint;
                marker := m |} ]
       | None => []
       end)
    (marker_matches 0 dataStr).

(** *** Workflows *)

Definition getSingularName (name : string) : string :=
  if endsWith name "s" && negb (endsWith name "ss") then slice_init name
  else name.

Definition generateWorkflowSampleData (fuel : nat) (p : Parser) (endpoint : Endpoint)
    (method : option string) (endpointName : string)
  : outcome (list (string * jsval)) :=
  match method with
  | None => Ret []
  | Some method =>
      match operations endpoint !! method with
      | None => Ret []
      | Some operation =>
          if truthy (requestBody operation) then
            do schema <- extractSchemaFromRequestBody fuel (spec p) (requestBody operation);
            if truthy schema then
              do sampleData <- generateSampleData fuel (endpoints p) schema endpointName;
              Ret (obj_assign [("data", JObj sampleData)] sampleData)
            else Ret []
          else Ret []
      end
  end.

Fixpoint findIndex {A} (f : A -> bool) (l : list A) : option nat :=
  match l with
  | [] => None
  | a :: l' => if f a then Some O else S <$> findIndex f l'
  end.

(** [arr.filter((dep, index, arr) => arr.findIndex(d => d.marker === dep.marker) === index)] *)
Definition uniqueDeps (foreignKeyDeps : list Dependency) : list Dependency :=
  snd <$>
    filter (fun ix => findIndex (fun d => String.eqb (marker d) (marker ix.2))
                        foreignKeyDeps = Some ix.1)
           (imap pair foreignKeyDeps).

(** The loop that adds the steps fetching the foreign-key data. *)
Fixpoint dependencySteps (addedContextKeys : gset string)
    (foreignKeyDeps : list Dependency) : list Step :=
  match foreignKeyDeps with
  | [] => []
  | dep :: deps =>
      let contextKey := "existing_" +:+ targetEndpoint dep in
      if decide (contextKey ∈ addedContextKeys) then
        dependencySteps addedContextKeys deps
      else
        {| action := "list_" +:+ targetEndpoint dep;
           step_description :=
             "Get existing " +:+ targetEndpoint dep +:+ " for "
             +:+ sourceProperty dep +:+ " reference";
           args := Some [("saveToContext", JStr contextKey)] |}
        :: dependencySteps ({[contextKey]} ∪ addedContextKeys) deps
  end.

Definition hasAll (endpoint : Endpoint) : bool :=
  bool_decide (is_Some (operations endpoint !! "GET_COLLECTION"))
  && bool_decide (is_Some (operations endpoint !! "GET"))
  && bool_decide (is_Some (operations endpoint !! "POST"))
  && bool_decide (is_Some (operations endpoint !! "DELETE")).

Definition hasUpdate (endpoint : Endpoint) : bool :=
  bool_decide (is_Some (operations endpoint !! "PUT"))
  || bool_decide (is_Some (operations endpoint !! "PATCH")).

Definition updateMethod (endpoint : Endpoint) : option string :=
  if hasUpdate endpoint then
    Some (if bool_decide (is_Some (operations endpoint !! "PUT")) then "PUT" else "PATCH")
  else None.

Definition createArgs (contextVar : string) (createData : list (string * jsval))
    (foreignKeyDeps : list Dependency) : list (string * jsval) :=
  let createArgs := obj_assign [("saveToContext", JStr contextVar)] createData in
  if (0 <? length foreignKeyDeps)%nat then
    obj_set "_dynamicForeignKeys" (JArr (dep_value <$> uniqueDeps foreignKeyDeps)) createArgs
  else createArgs.

(** The steps of the workflow of one endpoint, from its sample data. *)
Definition workflowSteps (endpointName : string) (endpoint : Endpoint)
    (createData updateData : list (string * jsval)) : list Step :=
  let singularName := getSingularName endpointName in
  let contextVar := "created_" +:+ singularName in
  let foreignKeyDeps := analyzeForeignKeyDependencies createData in
  dependencySteps ∅ foreignKeyDeps
  ++ [ {| action := "create_" +:+ singularName;
          step_description := "Create a new " +:+ singularName;
          args := Some (createArgs contextVar createData foreignKeyDeps) |};
       {| action := "list_" +:+ endpointName;
          step_description := "List all " +:+ endpointName +:+ " to verify creation";
          args := None |};
       {| action := "get_" +:+ singularName;
          step_description := "Get the created " +:+ singularName +:+ " by ID";
          args := Some [("fromContext", JStr contextVar)] |} ]
  ++ (if hasUpdate endpoint && (1 <? length updateData)%nat then
        [ {| action := "update_" +:+ singularName;
             step_description := "Update the created " +:+ singularName;
             args := Some (obj_assign [("fromContext", JStr contextVar)] updateData) |} ]
      else [])
  ++ [ {| action := "delete_" +:+ singularName;
          step_description := "Delete the created " +:+ singularName;
          args := Some [("fromContext", JStr contextVar)] |} ].

(** One turn of the loop of [generateWorkflows]: the workflow of an
    endpoint, if it has the four operations. *)
Definition generateWorkflow (fuel : nat) (p : Parser) (endpointName : string)
    (endpoint : Endpoint) : outcome (option Workflow) :=
  if hasAll endpoint then
    do createData <- generateWorkflowSampleData fuel p endpoint (Some "POST") endpointName;
    do updateData <-
      generateWorkflowSampleData fuel p endpoint (updateMethod endpoint) endpointName;
    Ret (Some {| wf_name := endpointName +:+ "_crud_workflow";
                 wf_description :=
                   "Full CRUD workflow for the " +:+ endpointName +:+ " endpoint.";
                 steps := workflowSteps endpointName endpoint createData updateData |})
  else Ret None.

(** The turn of the loop of [generateWorkflows] for one entry. *)
Definition workflowsTurn (fuel : nat) (p : Parser)
    (workflows : list (string * Workflow)) (entry : string * Endpoint)
  : outcome (list (string * Workflow)) :=
  do w <- generateWorkflow fuel p entry.1 entry.2;
  Ret match w with
      | Some workflow => map_set (entry.1 +:+ "_crud_workflow") workflow workflows
      | None => workflows
      end.

(** [generateWorkflows]: the workflows of the parser after the loop over
    its endpoints. *)
Definition generateWorkflows (fuel : nat) (p : Parser)
  : outcome (list (string * Workflow)) :=
  foldM (workflowsTurn fuel p) (endpoints p) (workflows p).

(** *** Endpoints *)

Definition strip_leading_slash (s : string) : string :=
  match s with
  | String c s' => if Ascii.eqb c "/" then s' else s
  | EmptyString => s
  end.

(** [s.replace(/\{[^}]+\}.*$/, '')]: the text is cut at the first path
    parameter that no line terminator follows. *)
Fixpoint cut_parameters (s : string) : string :=
  match s with
  | EmptyString => EmptyString
  | String c s' =>
      match (if Ascii.eqb c "{" then until_brace s' else None) with
      | Some (String _ _, rest) =>
          if dots rest then EmptyString
          else String c (cut_parameters s')
      | _ => String c (cut_parameters s')
      end
  end.

Definition strip_trailing_slash (s : string) : string :=
  if endsWith s "/" then slice_init s else s.

(** [s.replace(/[\/-]/g, '_')] *)
Fixpoint underscores (s : string) : string :=
  match s with
  | EmptyString => EmptyString
  | String c s' =>
      String (if Ascii.eqb c "/" || Ascii.eqb c "-" then "_"%char else c) (underscores s')
  end.

Definition extractEndpointName (pathTemplate : string) : string :=
  let name :=
    underscores (strip_trailing_slash (cut_parameters (strip_leading_slash pathTemplate))) in
  if String.eqb name "" then "root" else name.

Definition generateOperationId (method : string) (path : string) : string :=
  let pathParts :=
    filter (fun p => negb (String.eqb p "") && negb (startsWith p "{") = true)
           (split "/" path) in
  let resource := default "root" (last pathParts) in
  let singularResource := if endsWith resource "s" then slice_init resource else resource in
  let isCollection := negb (endsWith path "}") in
  let upper := toUpperCase method in
  let action :=
    if String.eqb upper "GET" then (if isCollection then "list" else "get")
    else if String.eqb upper "POST" then "create"
    else if String.eqb upper "PUT" || String.eqb upper "PATCH" then "update"
    else if String.eqb upper "DELETE" then "delete"
    else toLowerCase method in
  action +:+ "_" +:+ (if isCollection then resource else singularResource).

Definition verbs : list string := ["get"; "post"; "put"; "patch"; "delete"].

Definition is_verb (method : string) : bool :=
  existsb (String.eqb method) verbs.

Definition operationKey (method pathTemplate : string) : string :=
  if negb (endsWith pathTemplate "}") && String.eqb (toUpperCase method) "GET"
  then "GET_COLLECTION" else toUpperCase method.

(** [[...new Set(l)]]: the first occurrence of each element. *)
Fixpoint unique (seen : list string) (l : list string) : list string :=
  match l with
  | [] => []
  | x :: l' =>
      if existsb (String.eqb x) seen then unique seen l'
      else x :: unique (x :: seen) l'
  end.

(** The entry [generateEndpoints] stores in [endpoint.operations]. *)
Definition operationEntry (method pathTemplate : string) (operation : jsval)
  : outcome Operation :=
  do id <- getp operation "operationId";
  Ret {| operationId :=
           if truthy id then id else JStr (generateOperationId method pathTemplate);
         op_summary := get operation "summary";
         op_description := get operation "description";
         op_parameters :=
           if truthy (get operation "parameters") then get operation "parameters"
           else JArr [];
         requestBody := get operation "requestBody";
         op_responses :=
           if truthy (get operation "responses") then get operation "responses"
           else JObj [];
         op_path := pathTemplate;
         isCollection := negb (endsWith pathTemplate "}") |}.

(** The inner loop of [generateEndpoints], over the entries of a path
    item. *)
Definition addOperations (pathTemplate : string) (pathItem : jsval)
    (operations : gmap string Operation) : outcome (gmap string Operation) :=
  foldM (fun operations entry =>
           if negb (is_verb entry.1) then Ret operations
           else do operation <- operationEntry entry.1 pathTemplate entry.2;
                Ret (<[operationKey entry.1 pathTemplate := operation]> operations))
        (entries pathItem) operations.

(** One turn of the loop of [generateEndpoints], for a path template and
    its path item. *)
Definition endpointsTurn (fuel : nat) (spec : jsval)
    (endpoints : list (string * Endpoint)) (entry : string * jsval)
  : outcome (list (string * Endpoint)) :=
  let pathTemplate := entry.1 in
  let pathItem := entry.2 in
  let endpointName := extractEndpointName pathTemplate in
  let endpoint :=
    default {| ep_name := endpointName; ep_path := pathTemplate; ep_methods := [];
               operations := ∅; ep_schema := JNull |}
            (map_get endpointName endpoints) in
  if nullish pathItem then Throw TypeError
  else
    let methods :=
      filter (fun m => existsb (String.eqb m) ["GET"; "POST"; "PUT"; "PATCH"; "DELETE"] = true)
             (toUpperCase <$> (entries pathItem).*1) in
    do operations <- addOperations pathTemplate pathItem (operations endpoint);
    let postOp :=
      if truthy (get pathItem "post") then get pathItem "post" else get pathItem "put" in
    do schema <-
      (if truthy (get_opt postOp "requestBody") && negb (truthy (ep_schema endpoint))
       then extractSchemaFromRequestBody fuel spec (get postOp "requestBody")
       else Ret (ep_schema endpoint));
    let path :=
      if negb (includes pathTemplate "{") || includes (ep_path endpoint) "{"
      then pathTemplate else ep_path endpoint in
    Ret (map_set endpointName
           {| ep_name := ep_name endpoint; ep_path := path;
              ep_methods := unique [] (ep_methods endpoint ++ methods);
              operations := operations; ep_schema := schema |}
           endpoints).

(** [generateEndpoints]: the endpoints of the parser after the loop over
    the paths of its document. *)
Definition generateEndpoints (fuel : nat) (p : Parser)
  : outcome (list (string * Endpoint)) :=
  do paths <- getp (spec p) "paths";
  if negb (truthy paths)
  then Throw (Error "No paths found in OpenAPI specification")
  else foldM (endpointsTurn fuel (spec p)) (entries paths) (endpoints p).

(** [needsForeignKeyResolution]: the pattern of the markers matches
    somewhere in the text. *)
Fixpoint marker_test (s : string) : bool :=
  bool_decide (is_Some (marker_at s))
  || match s with
     | EmptyString => false
     | String _ s' => marker_test s'
     end.

Definition needsForeignKeyResolution (data : jsval) : bool :=
  marker_test (default "undefined" (stringify data)).

(** *** [parseFromFile]

    The part of [parseFromFile] that follows the reading and the
    decoding of the file: [document] is the decoded content.  An error
    of the two passes is caught and raised again under the message of
    the parser. *)
Record ParseResult : Type := {
  res_endpoints : list (string * Endpoint);
  res_workflows : list (string * Workflow);
  res_info : jsval;
  res_servers : jsval
}.

Definition parseFromFile (fuel : nat) (p : Parser) (document : jsval)
  : outcome ParseResult :=
  let p := {| spec := document; endpoints := endpoints p; workflows := workflows p |} in
  match (do endpoints <- generateEndpoints fuel p;
         let p := {| spec := document; endpoints := endpoints;
                     workflows := workflows p |} in
         do workflows <- generateWorkflows fuel p;
         Ret {| res_endpoints := endpoints;
                res_workflows := workflows;
                res_info :=
                  if truthy (get document "info") then get document "info" else JObj [];
                res_servers :=
                  if truthy (get document "servers") then get document "servers"
                  else JArr [] |}) with
  | Ret result => Ret result
  | Throw e => Throw (Error ("Failed to parse OpenAPI spec: " +:+ message e))
  end.

End OpenAPIParser.

(** ** [src/tools/tool-manager.js] *)

Module ToolManager.
Import Js OpenAPIParser.

(** [generateToolName] *)
Definition generateToolName (method : string) (endpointName : string) : string :=
  let singularName :=
    if endsWith endpointName "s" then slice_init endpointName else endpointName in
  if String.eqb method "GET" then "get_" +:+ singularName
  else if String.eqb method "GET_COLLECTION" then "list_" +:+ endpointName
  else if String.eqb method "POST" then "create_" +:+ singularName
  else if String.eqb method "PUT" then "update_" +:+ singularName
  else if String.eqb method "PATCH" then "patch_" +:+ singularName
  else if String.eqb method "DELETE" then "delete_" +:+ singularName
  else toLowerCase method +:+ "_" +:+ endpointName.

(** *** The context store

    [testContext] is a [Map]; the input schema of every tool declares
    [saveToContext] and [fromContext] as strings, and the store of the
    embedding holds the entries whose key is a string.  A value of
    another type names no entry. *)
Definition context_get (key : jsval) (testContext : gmap string jsval) : option jsval :=
  match key with
  | JStr k => testContext !! k
  | _ => None
  end.

Definition context_set (key : jsval) (v : jsval) (testContext : gmap string jsval)
  : gmap string jsval :=
  match key with
  | JStr k => <[k := v]> testContext
  | _ => testContext
  end.

(** *** [resolveContextReferences] *)

(** The first block: the data saved under [args.fromContext]. *)
Definition mergeFromContext (args : list (string * jsval))
    (testContext : gmap string jsval) : list (string * jsval) :=
  let resolved := args in
  if truthy (obj_get "fromContext" args) then
    match context_get (obj_get "fromContext" args) testContext with
    | Some contextData =>
        let isObject := truthy contextData && typeof_object contextData in
        let resolved :=
          if isObject then obj_assign resolved (entries contextData) else resolved in
        let resolved := obj_assign resolved args in
        if isObject && truthy (get contextData "id") && negb (truthy (obj_get "id" args))
        then obj_set "id" (get contextData "id") resolved
        else resolved
    | None => resolved
    end
  else resolved.

(** The inner [replaceDynamicMarker]; [marker] and [value] are the
    arguments of [String.prototype.replace], already converted. *)
Fixpoint replaceDynamicMarker (obj : jsval) (marker value : string) : jsval :=
  match obj with
  | JStr s => JStr (replace s marker value)
  | JArr xs => JArr (map (fun item => replaceDynamicMarker item marker value) xs)
  | JObj kvs => JObj (map (fun kv => (kv.1, replaceDynamicMarker kv.2 marker value)) kvs)
  | _ => obj
  end.

(** The loop that applies the replacement to every resolved argument
    but the flag: [for (const [key, value] of Object.entries(resolved))
    if (key !== flag) resolved[key] = replaceDynamicMarker(value, ...)]. *)
Definition replaceInAll (flag : string) (marker value : string)
    (resolved : list (string * jsval)) : list (string * jsval) :=
  fold_left (fun r kv =>
               if negb (String.eqb kv.1 flag)
               then obj_set kv.1 (replaceDynamicMarker kv.2 marker value) r
               else r)
            resolved resolved.

(** One turn of the loop over [args._dynamicForeignKeys]. *)
Definition resolveForeignKey (testContext : gmap string jsval)
    (resolved : list (string * jsval)) (fkDep : jsval)
  : outcome (list (string * jsval)) :=
  do target <- getp fkDep "targetEndpoint";
  let contextKey := "existing_" +:+ toString target in
  match testContext !! contextKey with
  | Some (JArr (first :: _)) =>
      do foreignKeyValue <- getp first "id";
      Ret (replaceInAll "_dynamicForeignKeys" (toString (get fkDep "marker"))
                        (toString foreignKeyValue) resolved)
  | _ => Ret resolved
  end.

(** The second block: the dynamic foreign keys. *)
Definition resolveForeignKeys (args : list (string * jsval))
    (testContext : gmap string jsval) (resolved : list (string * jsval))
  : outcome (list (string * jsval)) :=
  match obj_get "_dynamicForeignKeys" args with
  | JArr deps =>
      do resolved <- foldM (resolveForeignKey testContext) deps resolved;
      Ret (obj_delete "_dynamicForeignKeys" resolved)
  | _ => Ret resolved
  end.

(** The third block: the legacy [_dynamicAuthorId] flag. *)
Definition resolveAuthorId (args : list (string * jsval))
    (testContext : gmap string jsval) (resolved : list (string * jsval))
  : outcome (list (string * jsval)) :=
  if truthy (obj_get "_dynamicAuthorId" args) then
    match testContext !! "existing_users" with
    | Some (JArr (first :: _)) =>
        do authorId <- getp first "id";
        Ret (obj_delete "_dynamicAuthorId"
               (replaceInAll "_dynamicAuthorId" "{{EXISTING_USER_ID}}"
                             (toString authorId) resolved))
    | _ => Ret resolved
    end
  else Ret resolved.

Definition resolveContextReferences (args : list (string * jsval))
    (testContext : gmap string jsval) : outcome (list (string * jsval)) :=
  let resolved := mergeFromContext args testContext in
  do resolved <- resolveForeignKeys args testContext resolved;
  resolveAuthorId args testContext resolved.

(** *** [handleEndpointTool] *)

(** An entry of [endpointTools]. *)
Record Tool : Type := {
  tool_name : string;
  tool_endpoint : string;
  tool_method : string;
  tool_operation : Operation
}.

Record Config : Type := {
  apiBaseUrl : string;
  cfg_endpoints : list (string * Endpoint);
  cfg_workflows : list (string * Workflow)
}.

Record Request : Type := {
  req_method : string;
  req_url : string;
  req_data : jsval
}.

Record Response : Type := {
  status : Z;
  resp_data : jsval
}.

(** The body of a path parameter: the text up to the next closing brace,
    and what follows the brace. *)
Fixpoint until_close (s : string) : option (string * string) :=
  match s with
  | EmptyString => None
  | String c s' =>
      if Ascii.eqb c "}" then Some (EmptyString, s')
      else match until_close s' with
           | Some (body, rest) => Some (String c body, rest)
           | None => None
           end
  end.

(** [url.replace(/\{[^}]+\}/g, repl)]; [before] is the text already
    passed, [skip] the characters of a match still to pass. *)
Fixpoint replaceParams (skip : nat) (before : string) (s : string) (repl : string)
  : string :=
  match s with
  | EmptyString => EmptyString
  | String c s' =>
      let before' := before +:+ String c EmptyString in
      match skip with
      | S n => replaceParams n before' s' repl
      | O =>
          match (if Ascii.eqb c "{" then until_close s' else None) with
          | Some (String b body, rest) =>
              getSubstitution (String c (String b body) +:+ "}") before rest repl
              +:+ replaceParams (String.length body + 2) before' s' repl
          | _ => String c (replaceParams 0 before' s' repl)
          end
      end
  end.

Definition getMethodIcon (method : string) : string :=
  if String.eqb method "GET" then "🔍"
  else if String.eqb method "POST" then "✨"
  else if String.eqb method "PUT" then "🔄"
  else if String.eqb method "PATCH" then "🔧"
  else if String.eqb method "DELETE" then "🗑️"
  else "🔗".

Definition formatResponse (method endpointName : string) (response : Response) : string :=
  getMethodIcon method +:+ " " +:+ method +:+ " " +:+ endpointName
  +:+ " | Status: " +:+ pretty (status response)
  +:+ String newline (String newline EmptyString)
  +:+ match resp_data response with
      | JStr s => s
      | d => default "undefined" (stringify_indent EmptyString d)
      end.

Definition is_body_method (httpMethod : string) : bool :=
  String.eqb httpMethod "POST" || String.eqb httpMethod "PUT"
  || String.eqb httpMethod "PATCH".

Definition is_reserved (key : string) : bool :=
  String.eqb key "id" || String.eqb key "queryParams" || String.eqb key "saveToContext"
  || String.eqb key "fromContext" || String.eqb key "data".

(** The request body: the raw [data] object overlaid with the individual
    fields. *)
Definition requestData (resolvedArgs : list (string * jsval)) : list (string * jsval) :=
  let base :=
    if truthy (obj_get "data" resolvedArgs) && typeof_object (obj_get "data" resolvedArgs)
    then entries (obj_get "data" resolvedArgs) else [] in
  fold_left (fun d kv =>
               if negb (is_reserved kv.1) && negb (is_undefined kv.2)
               then obj_set kv.1 kv.2 d else d)
            resolvedArgs base.

(** *** [generateToolSchema] *)

Definition generateToolSchema (method : string) (endpoint : Endpoint) : jsval :=
  let properties : list (string * jsval) := [] in
  let properties :=
    if existsb (String.eqb method) ["PUT"; "PATCH"; "DELETE"; "GET"]
       && negb (String.eqb method "GET_COLLECTION")
    then obj_set "id"
           (JObj [("type", JStr "string");
                  ("description", JStr "The ID of the resource to modify")])
           properties
    else properties in
  let properties :=
    if existsb (String.eqb method) ["POST"; "PUT"; "PATCH"] then
      let properties :=
        if truthy (ep_schema endpoint) && truthy (get (ep_schema endpoint) "properties")
        then
          fold_left (fun properties kv =>
                       if String.eqb method "POST"
                          && existsb (String.eqb kv.1) ["id"; "createdAt"; "updatedAt"]
                       then properties
                       else obj_set kv.1 kv.2 properties)
                    (entries (get (ep_schema endpoint) "properties")) properties
        else properties in
      obj_set "data"
        (JObj [("type", JStr "object");
               ("description",
                JStr "Raw data object to send in the request body (alternative to individual fields)");
               ("additionalProperties", JBool true)])
        properties
    else properties in
  let properties :=
    obj_set "queryParams"
      (JObj [("type", JStr "object");
             ("description", JStr "Query parameters to include in the request");
             ("additionalProperties", JBool true)])
      properties in
  let properties :=
    obj_set "saveToContext"
      (JObj [("type", JStr "string");
             ("description", JStr "Save the response to context with this key")])
      properties in
  let properties :=
    obj_set "fromContext"
      (JObj [("type", JStr "string");
             ("description", JStr "Load data from context using this key")])
      properties in
  JObj [("type", JStr "object"); ("properties", JObj properties)].

Section Execution.

(** The outside world: the HTTP client ([this.httpClient.request]), the
    [URLSearchParams] of the platform and the clock. *)
Context {Net : Type}.
Variable httpRequest : Request -> Net -> outcome Response * Net.
Variable urlSearchParams : jsval -> outcome string.
Variable now : Net -> Z.

(** What a call can change: the context store and the outside world.
    [sent] lists the requests handed to the HTTP client, latest last. *)
Record State : Type := {
  testContext : gmap string jsval;
  net : Net;
  sent : list Request
}.

Variable config : Config.
Variable endpointTools : list (string * Tool).

Definition handleEndpointTool (toolName : string) (args : list (string * jsval))
    (st : State) : outcome string * State :=
  match map_get toolName endpointTools with
  | None => (Throw TypeError, st)
  | Some tool =>
  match map_get (tool_endpoint tool) (cfg_endpoints config) with
  | None => (Throw (Error ("Endpoint not found: " +:+ tool_endpoint tool)), st)
  | Some endpoint =>
  match resolveContextReferences args (testContext st) with
  | Throw e => (Throw e, st)
  | Ret resolvedArgs =>
  let pathToUse := op_path (tool_operation tool) in
  let url := apiBaseUrl config +:+ pathToUse in
  if includes pathToUse "{" && negb (truthy (obj_get "id" resolvedArgs)) then
    (Throw (Error ("ID parameter is required for " +:+ tool_method tool
                   +:+ " operation on " +:+ pathToUse)), st)
  else
  let url :=
    if includes pathToUse "{"
    then replaceParams 0 EmptyString url (toString (obj_get "id" resolvedArgs))
    else url in
  match (if truthy (obj_get "queryParams" resolvedArgs)
         then do params <- urlSearchParams (obj_get "queryParams" resolvedArgs);
              Ret (url +:+ "?" +:+ params)
         else Ret url) with
  | Throw e => (Throw e, st)
  | Ret url =>
  let httpMethod :=
    if String.eqb (tool_method tool) "GET_COLLECTION" then "GET" else tool_method tool in
  let data :=
    if is_body_method httpMethod then JObj (requestData resolvedArgs) else JNull in
  if String.eqb httpMethod "POST" && (length (requestData resolvedArgs) =? 0)%nat then
    (Throw (Error ("No data provided for " +:+ tool_method tool
                   +:+ " operation. Provide either individual fields or a 'data' object.")),
     st)
  else
  let request := {| req_method := httpMethod; req_url := url; req_data := data |} in
  let st := {| testContext := testContext st; net := net st;
               sent := sent st ++ [request] |} in
  match httpRequest request (net st) with
  | (Throw e, net') =>
      (Throw (Error (tool_method tool +:+ " " +:+ url +:+ " failed: " +:+ message e)),
       {| testContext := testContext st; net := net'; sent := sent st |})
  | (Ret response, net') =>
      let testContext' :=
        if truthy (obj_get "saveToContext" args) && truthy (resp_data response)
        then context_set (obj_get "saveToContext" args) (resp_data response) (testContext st)
        else testContext st in
      (Ret (formatResponse httpMethod (tool_endpoint tool) response),
       {| testContext := testContext'; net := net'; sent := sent st |})
  end end end end end.

(** *** [handleRunWorkflow] *)

(** [handleToolCall], which hands a step to the handler of a core tool
    or to [handleEndpointTool]; the loop below is the same for every
    handler. *)
Variable handleToolCall :
  string -> list (string * jsval) -> State -> outcome string * State.

Definition indentLines (text : string) : string :=
  join (String newline EmptyString)
       (map (fun line => "  | " +:+ line) (split newline text)).

(** The loop over the steps, from step [i] (counted from 0).  [results]
    are the lines of the report so far; [calls] lists the tool calls
    dispatched so far, latest last. *)
Fixpoint runSteps (stopOnError : jsval) (i : nat) (steps : list Step)
    (results : list string) (calls : list (string * list (string * jsval)))
    (st : State) : list string * list (string * list (string * jsval)) * State :=
  match steps with
  | [] => (results, calls, st)
  | step :: steps' =>
      let stepName :=
        "Step " +:+ pretty (i + 1)%nat +:+ ": "
        +:+ (if negb (String.eqb (step_description step) "")
             then step_description step else action step) in
      let results := (results ++ ["📍 " +:+ stepName])%list in
      let stepArgs := default [] (args step) in
      let calls := (calls ++ [(action step, stepArgs)])%list in
      match handleToolCall (action step) stepArgs st with
      | (Ret text, st') =>
          let results :=
            if negb (String.eqb text "") then (results ++ [indentLines text])%list
            else results in
          runSteps stopOnError (S i) steps'
                   (results ++ ["✅ Completed"; EmptyString])%list calls st'
      | (Throw error, st') =>
          let results := (results ++ ["❌ Failed: " +:+ message error])%list in
          if truthy stopOnError then (results, calls, st')
          else runSteps stopOnError (S i) steps' (results ++ [EmptyString])%list calls st'
      end
  end.

(** The result of [handleRunWorkflow]: the text of the report, with the
    tool calls the run dispatched.  [this.config.workflows[args.workflow]]
    is looked up among the workflows the configuration holds, its own
    entries. *)
Definition handleRunWorkflow (args : list (string * jsval)) (st : State)
  : outcome string * list (string * list (string * jsval)) * State :=
  match map_get (toString (obj_get "workflow" args)) (cfg_workflows config) with
  | None =>
      (Throw (Error ("Unknown workflow: " +:+ toString (obj_get "workflow" args))), [], st)
  | Some workflow =>
      let startTime := now (net st) in
      let results :=
        ["🚀 Starting workflow: " +:+ wf_name workflow;
         "📋 " +:+ wf_description workflow +:+ String newline EmptyString] in
      let '(results, calls, st') :=
        runSteps (obj_get "stopOnError" args) 0 (steps workflow) results [] st in
      let duration := now (net st') - startTime in
      let results :=
        (results ++ [String newline ("🎉 Workflow finished in " +:+ pretty duration
                                      +:+ "ms.")])%list in
      (Ret (join (String newline EmptyString) results), calls, st')
  end.

(** *** [validateEndpoint] *)

(** One turn of the loop over [endpoint.methods]: the request, and the
    line its answer or its failure adds to [results]. *)
Definition validateMethod (endpoint : Endpoint) (acc : list string * State)
    (method : string) : list string * State :=
  let results := acc.1 in
  let st := acc.2 in
  let baseUrl :=
    apiBaseUrl config +:+ replaceParams 0 EmptyString (ep_path endpoint) "test-id" in
  let request := {| req_method := method; req_url := baseUrl; req_data := JNull |} in
  match httpRequest request (net st) with
  | (Ret response, net') =>
      ((results ++ ["  ✅ " +:+ method +:+ ": " +:+ pretty (status response)])%list,
       {| testContext := testContext st; net := net'; sent := sent st ++ [request] |})
  | (Throw error, net') =>
      ((results ++ ["  ❌ " +:+ method +:+ ": " +:+ message error])%list,
       {| testContext := testContext st; net := net'; sent := sent st ++ [request] |})
  end.

Definition validateEndpoint (endpoint : Endpoint) (results : list string) (st : State)
  : list string * State :=
  fold_left (validateMethod endpoint) (ep_methods endpoint) (results, st).

End Execution.

End ToolManager.

(** * Vocabulary of the properties, and examples *)

Import Js OpenAPIParser ToolManager.

Definition four_operations (endpoint : Endpoint) : Prop :=
  is_Some (operations endpoint !! "GET_COLLECTION")
  ∧ is_Some (operations endpoint !! "GET")
  ∧ is_Some (operations endpoint !! "POST")
  ∧ is_Some (operations endpoint !! "DELETE").

Definition mkOperation (path : string) (body : jsval) : Operation :=
  {| operationId := JUndefined; op_summary := JUndefined; op_description := JUndefined;
     op_parameters := JArr []; requestBody := body; op_responses := JObj [];
     op_path := path; isCollection := negb (endsWith path "}") |}.

Definition jsonBody (schema : jsval) : jsval :=
  JObj [("content", JObj [("application/json", JObj [("schema", schema)])])].

Definition postSchema : jsval :=
  JObj [("type", JStr "object");
        ("required", JArr [JStr "title"]);
        ("properties",
         JObj [("authorId", JObj [("type", JStr "string"); ("format", JStr "uuid")]);
               ("title", JObj [("type", JStr "string")])])].

Definition commentSchema : jsval :=
  JObj [("type", JStr "object");
        ("properties", JObj [("content", JObj [("type", JStr "string")])])].

Definition usersEndpoint : Endpoint :=
  {| ep_name := "users"; ep_path := "/users"; ep_methods := ["GET"];
     operations := {[ "GET_COLLECTION" := mkOperation "/users" JUndefined ]};
     ep_schema := JNull |}.

Definition postsEndpoint : Endpoint :=
  {| ep_name := "posts"; ep_path := "/posts";
     ep_methods := ["GET"; "POST"; "DELETE"];
     operations :=
       <["GET_COLLECTION" := mkOperation "/posts" JUndefined]>
       (<["POST" := mkOperation "/posts" (jsonBody postSchema)]>
       (<["GET" := mkOperation "/posts/{id}" JUndefined]>
       {[ "DELETE" := mkOperation "/posts/{id}" JUndefined ]}));
     ep_schema := JNull |}.

(** Comments can be created, listed and deleted, not fetched one by one. *)
Definition commentsEndpoint : Endpoint :=
  {| ep_name := "comments"; ep_path := "/comments";
     ep_methods := ["GET"; "POST"; "DELETE"];
     operations :=
       <["GET_COLLECTION" := mkOperation "/comments" JUndefined]>
       (<["POST" := mkOperation "/comments" (jsonBody commentSchema)]>
       {[ "DELETE" := mkOperation "/comments/{id}" JUndefined ]});
     ep_schema := JNull |}.

Definition blogParser : Parser :=
  {| spec := JObj [("paths", JObj [])];
     endpoints := [("users", usersEndpoint); ("posts", postsEndpoint);
                   ("comments", commentsEndpoint)];
     workflows := [] |}.

Definition blogWorkflows : list (string * Workflow) := Eval vm_compute in
    match generateWorkflows 8 blogParser with Ret wfs => wfs | Throw _ => [] end.

(** The sample payloads of the create step and of the update step of an
    endpoint are generated without an error. *)
Definition sample_data_returns (fuel : nat) (p : Parser) (endpointName : string)
    (endpoint : Endpoint) : Prop :=
  ∃ createData updateData,
    generateWorkflowSampleData fuel p endpoint (Some "POST") endpointName = Ret createData
    ∧ generateWorkflowSampleData fuel p endpoint (updateMethod endpoint) endpointName
      = Ret updateData.

(** Some run of [generateWorkflows] returns the workflow [name]. *)
Definition synthesized (p : Parser) (name : string) : Prop :=
  ∃ fuel wfs, generateWorkflows fuel p = Ret wfs ∧ is_Some (map_get name wfs).

(** A ledger whose [POST] body leaves [required] empty. *)
Definition ledgerSchema : jsval :=
  JObj [("type", JStr "object");
        ("required", JNull);
        ("properties", JObj [("amount", JObj [("type", JStr "number")])])].

Definition ledgerEndpoint : Endpoint :=
  {| ep_name := "ledger"; ep_path := "/ledger";
     ep_methods := ["GET"; "POST"; "DELETE"];
     operations :=
       <["GET_COLLECTION" := mkOperation "/ledger" JUndefined]>
       (<["POST" := mkOperation "/ledger" (jsonBody ledgerSchema)]>
       (<["GET" := mkOperation "/ledger/{id}" JUndefined]>
       {[ "DELETE" := mkOperation "/ledger/{id}" JUndefined ]}));
     ep_schema := ledgerSchema |}.

Definition ledgerParser : Parser :=
  {| spec := JObj [("paths", JObj [])];
     endpoints := [("ledger", ledgerEndpoint)];
     workflows := [] |}.

(** The first element of [l] for each key, in the order of [l]. *)
Fixpoint first_by {A} (key : A -> string) (l : list A) : list A :=
  match l with
  | [] => []
  | x :: l' => x :: filter (λ y, key y ≠ key x) (first_by key l')
  end.

(** The step that fetches the data a dependency points at. *)
Definition fetchStep (dep : Dependency) : Step :=
  {| action := "list_" +:+ targetEndpoint dep;
     step_description :=
       "Get existing " +:+ targetEndpoint dep +:+ " for "
       +:+ sourceProperty dep +:+ " reference";
     args := Some [("saveToContext", JStr ("existing_" +:+ targetEndpoint dep))] |}.




Definition emptyWorkflow : Workflow :=
  {| wf_name := EmptyString; wf_description := EmptyString; steps := [] |}.



Definition tagSchema : jsval :=
  JObj [("type", JStr "object");
        ("properties", JObj [("name", JObj [("type", JStr "string")])])].

Definition tagsEndpoint : Endpoint :=
  {| ep_name := "tags"; ep_path := "/tags";
     ep_methods := ["GET"; "POST"; "DELETE"];
     operations :=
       <["GET_COLLECTION" := mkOperation "/tags" JUndefined]>
       (<["POST" := mkOperation "/tags" (jsonBody tagSchema)]>
       (<["GET" := mkOperation "/tags/{id}" JUndefined]>
       {[ "DELETE" := mkOperation "/tags/{id}" JUndefined ]}));
     ep_schema := tagSchema |}.

Definition tagParser : Parser :=
  {| spec := JObj [("paths", JObj [])];
     endpoints := [("tags", tagsEndpoint)];
     workflows := [] |}.

Definition tagsWorkflow : Workflow := Eval vm_compute in
    match generateWorkflow 8 tagParser "tags" tagsEndpoint with
    | Ret (Some w) => w
    | _ => emptyWorkflow
    end.


(** Sessions are opened by a [POST] without a request body. *)
Definition sessionsEndpoint : Endpoint :=
  {| ep_name := "sessions"; ep_path := "/sessions";
     ep_methods := ["GET"; "POST"; "DELETE"];
     operations :=
       <["GET_COLLECTION" := mkOperation "/sessions" JUndefined]>
       (<["POST" := mkOperation "/sessions" JUndefined]>
       (<["GET" := mkOperation "/sessions/{id}" JUndefined]>
       {[ "DELETE" := mkOperation "/sessions/{id}" JUndefined ]}));
     ep_schema := JNull |}.

Definition sessionsParser : Parser :=
  {| spec := JObj [("paths", JObj [])];
     endpoints := [("sessions", sessionsEndpoint)];
     workflows := [] |}.

Definition sessionsWorkflow : Workflow := Eval vm_compute in
    match generateWorkflow 8 sessionsParser "sessions" sessionsEndpoint with
    | Ret (Some w) => w
    | _ => emptyWorkflow
    end.

Definition usersDependency : Dependency :=
  {| sourceProperty := "title"; targetEndpoint := "users";
     marker := "{{DYNAMIC_USERS_ID}}" |}.

(** A call whose [title] holds the marker twice. *)
Definition twiceArgs : list (string * jsval) :=
  [("title", JStr "{{DYNAMIC_USERS_ID}} and {{DYNAMIC_USERS_ID}}");
   ("data", JObj [("authorId", JStr "{{DYNAMIC_USERS_ID}}")]);
   ("_dynamicForeignKeys", JArr [dep_value usersDependency])].

Definition usersContext : gmap string jsval :=
  {[ "existing_users" := JArr [JObj [("id", JStr "u1")]] ]}.

(** A dispatcher whose [create_tag] fails and whose other tools answer. *)
Definition createFails (toolName : string) (args : list (string * jsval))
    (st : @State unit) : outcome string * @State unit :=
  if String.eqb toolName "create_tag"
  then (Throw (Error "POST /tags failed: HTTP 500: Internal Server Error"), st)
  else (Ret "ok", st).

Definition tagConfig : Config :=
  {| apiBaseUrl := "http://localhost:3000/api";
     cfg_endpoints := [("tags", tagsEndpoint)];
     cfg_workflows := [("tags_crud_workflow", tagsWorkflow)] |}.

Definition idle : @State unit :=
  {| testContext := ∅; net := (); sent := [] |}.

Definition dispatched (args : list (string * jsval)) : list string :=
  fst <$> (handleRunWorkflow (λ _, 0) tagConfig createFails args idle).1.2.

Definition addressSchema : jsval :=
  JObj [("type", JStr "object");
        ("properties", JObj [("city", JObj [("type", JStr "string")])])].

Definition addressEndpoint : Endpoint :=
  {| ep_name := "address"; ep_path := "/address";
     ep_methods := ["GET"; "POST"; "DELETE"];
     operations :=
       <["GET_COLLECTION" := mkOperation "/address" JUndefined]>
       (<["POST" := mkOperation "/address" (jsonBody addressSchema)]>
       (<["GET" := mkOperation "/address/{id}" JUndefined]>
       {[ "DELETE" := mkOperation "/address/{id}" JUndefined ]}));
     ep_schema := addressSchema |}.

Definition addressParser : Parser :=
  {| spec := JObj [("paths", JObj [])];
     endpoints := [("address", addressEndpoint)];
     workflows := [] |}.

Definition addressWorkflow : Workflow := Eval vm_compute in
    match generateWorkflow 8 addressParser "address" addressEndpoint with
    | Ret (Some w) => w
    | _ => emptyWorkflow
    end.


Definition storedUser : list (string * jsval) :=
  [("id", JStr "u1"); ("name", JStr "Ada")].



(** The tools of the [tags] endpoint, and two servers: one that answers
    every request with the created tag, one that answers with an empty
    body. *)
Definition tagTool (method path : string) : Tool :=
  {| tool_name := generateToolName method "tags"; tool_endpoint := "tags";
     tool_method := method; tool_operation := mkOperation path JUndefined |}.

Definition tagTools : list (string * Tool) :=
  [("list_tags", tagTool "GET_COLLECTION" "/tags");
   ("create_tag", tagTool "POST" "/tags");
   ("get_tag", tagTool "GET" "/tags/{id}");
   ("delete_tag", tagTool "DELETE" "/tags/{id}")].

Definition tagPayload : jsval := JObj [("id", JStr "t1"); ("name", JStr "rocq")].

Definition answersCreated (request : Request) (n : unit) : outcome Response * unit :=
  (Ret {| status := 201; resp_data := tagPayload |}, n).

Definition answersNoContent (request : Request) (n : unit) : outcome Response * unit :=
  (Ret {| status := 204; resp_data := JStr EmptyString |}, n).

Definition noParams (queryParams : jsval) : outcome string := Ret EmptyString.

Definition createTagArgs : list (string * jsval) :=
  [("name", JStr "rocq"); ("saveToContext", JStr "created_tag")].

Definition deleteTagArgs : list (string * jsval) :=
  [("id", JStr "t1"); ("saveToContext", JStr "deleted_tag")].

Definition afterCreate : outcome string * @State unit := Eval vm_compute in
    handleEndpointTool answersCreated noParams tagConfig tagTools
      "create_tag" createTagArgs idle.

Definition afterDelete : outcome string * @State unit := Eval vm_compute in
    handleEndpointTool answersNoContent noParams tagConfig tagTools
      "delete_tag" deleteTagArgs idle.

Definition is_Ret {A} (o : outcome A) : Prop :=
  match o with Ret _ => True | Throw _ => False end.

Definition usersMarker : string := "{{DYNAMIC_USERS_ID}}".

Definition uuidSchema : jsval :=
  JObj [("type", JStr "string"); ("format", JStr "uuid")].

(** A node with a reference: what [resolveSchemaReference] tests. *)
Definition has_ref (node : jsval) : bool := truthy (get_opt node "$ref").

(** A reference is reachable from [node] in at most [depth] steps
    through [properties] and [items]. *)
Fixpoint ref_reachable (depth : nat) (node : jsval) : bool :=
  has_ref node
  || match depth with
     | O => false
     | S depth' =>
         existsb (λ kv, ref_reachable depth' kv.2) (entries (get_opt node "properties"))
         || ref_reachable depth' (get_opt node "items")
     end.

(** The same, through the [properties] of the nodes of type [object]
    and the [items] of the nodes of type [array] only. *)
Fixpoint ref_reachable_typed (depth : nat) (node : jsval) : bool :=
  has_ref node
  || match depth with
     | O => false
     | S depth' =>
         is_str (get_opt node "type") "object"
         && existsb (λ kv, ref_reachable_typed depth' kv.2)
                    (entries (get_opt node "properties"))
         || is_str (get_opt node "type") "array"
            && ref_reachable_typed depth' (get_opt node "items")
     end.

Definition componentsSpec : jsval :=
  JObj [("components",
         JObj [("schemas",
                JObj [("User", JObj [("type", JStr "object");
                                     ("properties",
                                      JObj [("id", JObj [("type", JStr "string")])])]);
                      ("Post", JObj [("type", JStr "object");
                                     ("properties",
                                      JObj [("author",
                                             JObj [("$ref", JStr "#/components/schemas/User")]);
                                            ("readers",
                                             JObj [("type", JStr "array");
                                                   ("items",
                                                    JObj [("$ref",
                                                           JStr "#/components/schemas/User")])])])])])])].

(** A schema that has [properties] and no [type]. *)
Definition untypedSchema : jsval :=
  JObj [("properties",
         JObj [("author", JObj [("$ref", JStr "#/components/schemas/User")])])].

Definition postRef : jsval := JObj [("$ref", JStr "#/components/schemas/Post")].

Definition resolvedPost : jsval := Eval vm_compute in
    match resolveSchemaReference 8 componentsSpec postRef with
    | Ret r => r
    | Throw _ => JUndefined
    end.


(** A server that is down, and what a call leaves behind then. *)
Definition answersUnavailable (request : Request) (n : unit) : outcome Response * unit :=
  (Throw (Error "HTTP 503: Service Unavailable"), n).

Definition afterFailure : outcome string * @State unit := Eval vm_compute in
    handleEndpointTool answersUnavailable noParams tagConfig tagTools
      "create_tag" createTagArgs idle.

(** The names of the members of [Object.prototype], which JavaScript
    finds on every plain object.  The embedding looks a computed name up
    among the own properties of an object; the properties below that
    depend on such a lookup leave these names out. *)
Definition object_prototype_names : list string :=
  ["constructor"; "__defineGetter__"; "__defineSetter__"; "hasOwnProperty";
   "__lookupGetter__"; "__lookupSetter__"; "isPrototypeOf"; "propertyIsEnumerable";
   "toString"; "valueOf"; "__proto__"; "toLocaleString"].

(** A property schema without a reference and without parts of its own:
    an object whose [type] is neither [object] nor [array]. *)
Definition flat_property (v : jsval) : Prop :=
  (∃ kvs, v = JObj kvs)
  ∧ truthy (get v "$ref") = false
  ∧ is_str (get v "type") "object" = false
  ∧ is_str (get v "type") "array" = false.

(** An object schema whose properties are flat, with [required] absent
    or a list of names. *)
Definition flat_schema (schema : jsval) : Prop :=
  ∃ kvs props,
    schema = JObj kvs
    ∧ truthy (get schema "$ref") = false
    ∧ is_str (get schema "type") "object" = true
    ∧ get schema "properties" = JObj props
    ∧ Forall (λ kv, (kv.1 ∉ object_prototype_names) ∧ flat_property kv.2) props
    ∧ (get schema "required" = JUndefined
       ∨ ∃ names, get schema "required" = JArr (JStr <$> names)
                  ∧ Forall (λ name, name ∉ object_prototype_names) names).

(** A request body without a JSON schema, or with a flat one. *)
Definition flat_body (requestBody : jsval) : Prop :=
  let schema :=
    get_opt (get_opt (get_opt requestBody "content") "application/json") "schema" in
  truthy schema = false ∨ flat_schema schema.

(** The tool call a step of a workflow stands for. *)
Definition call_of (step : Step) : string * list (string * jsval) :=
  (action step, default [] (args step)).


(** An account: [id] is read-only, [owner] is not required. *)
Definition accountProperties : list (string * jsval) :=
  [("id", JObj [("type", JStr "string"); ("readOnly", JBool true)]);
   ("name", JObj [("type", JStr "string")]);
   ("owner", JObj [("type", JStr "string")])].

Definition accountSchema : jsval :=
  JObj [("type", JStr "object");
        ("required", JArr [JStr "name"; JStr "balance"]);
        ("properties", JObj accountProperties)].

(** A tree whose nodes point at their parent. *)
Definition treeSchema : jsval :=
  JObj [("type", JStr "object");
        ("properties",
         JObj [("label", JObj [("type", JStr "string")]);
               ("parent", JObj [("$ref", JStr "#/components/schemas/Tree")])])].

Definition treeSpec : jsval :=
  JObj [("components", JObj [("schemas", JObj [("Tree", treeSchema)])])].

(** The six keys an operation is stored under. *)
Definition operationKeys : list string :=
  ["GET_COLLECTION"; "GET"; "POST"; "PUT"; "PATCH"; "DELETE"].

(** What holds of the entry of the registry under the name [n]: the
    endpoint carries the name, its path and the paths of its operations
    are templates with that name, and every operation is stored under
    the key of a verb on its path. *)
Definition endpoint_ok (n : string) (ep : Endpoint) : Prop :=
  ep_name ep = n
  ∧ extractEndpointName (ep_path ep) = n
  ∧ ∀ key op, operations ep !! key = Some op ->
      extractEndpointName (op_path op) = n
      ∧ isCollection op = negb (endsWith (op_path op) "}")
      ∧ ∃ method, is_verb method = true ∧ key = operationKey method (op_path op).

(** The registry [eps'] keeps what [eps] has: every endpoint, each of its
    operation keys, and a path without parameters. *)
Definition keeps (eps eps' : list (string * Endpoint)) : Prop :=
  ∀ n ep, map_get n eps = Some ep ->
    ∃ ep', map_get n eps' = Some ep'
           ∧ (∀ key, is_Some (operations ep !! key) -> is_Some (operations ep' !! key))
           ∧ (includes (ep_path ep) "{" = false -> includes (ep_path ep') "{" = false).

(** A document with the two paths of a collection of notes. *)
Definition notesDocument : jsval :=
  JObj [("info", JObj [("title", JStr "Notes")]);
        ("paths",
         JObj [("/notes/{noteId}", JObj [("get", JObj []); ("delete", JObj [])]);
               ("/notes", JObj [("get", JObj []); ("post", JObj [])])])].

Definition freshParser : Parser :=
  {| spec := JNull; endpoints := []; workflows := [] |}.

Definition notesEndpoints : list (string * Endpoint) := Eval vm_compute in
    match generateEndpoints 8 {| spec := notesDocument; endpoints := []; workflows := [] |} with
    | Ret eps => eps
    | Throw _ => []
    end.

Definition notesResult : ParseResult := Eval vm_compute in
    match parseFromFile 8 freshParser notesDocument with
    | Ret result => result
    | Throw _ =>
        {| res_endpoints := []; res_workflows := []; res_info := JNull;
           res_servers := JNull |}
    end.

(** The foreign key [authorId] of a post points at the users. *)
Definition authorKey : ForeignKeyInfo :=
  {| fk_sourceProperty := "authorId"; fk_targetEndpoint := "users";
     fk_targetResource := "author" |}.

(** * Properties *)

(** ** Strings, objects and maps *)

Lemma chars_app (a b : string) : chars (a +:+ b) = (chars a ++ chars b)%list.
Proof.
  induction a as [|c a IH]; simpl; [reflexivity|].
  unfold chars in *. simpl. by rewrite IH.
Qed.

Lemma chars_inj (a b : string) : chars a = chars b -> a = b.
Proof.
  intros H. rewrite <- (string_of_list_ascii_of_string a).
  rewrite <- (string_of_list_ascii_of_string b). unfold chars in H. by rewrite H.
Qed.

(** Appending a fixed suffix is injective. *)
Lemma append_suffix_inj (suffix a b : string) :
  a +:+ suffix = b +:+ suffix -> a = b.
Proof.
  intros H. apply chars_inj. apply (f_equal chars) in H.
  rewrite !chars_app in H. by apply app_inv_tail in H.
Qed.

Lemma eqb_true (a b : string) : String.eqb a b = true <-> a = b.
Proof. apply String.eqb_eq. Qed.

Lemma eqb_false (a b : string) : String.eqb a b = false <-> a ≠ b.
Proof. apply String.eqb_neq. Qed.

Section Maps.
Context {V : Type}.
Implicit Types (m : list (string * V)) (k : string) (v : V).

Lemma map_get_set_eq k v m : map_get k (map_set k v m) = Some v.
Proof.
  induction m as [|[k' v'] m IH]; simpl.
  - by rewrite String.eqb_refl.
  - destruct (String.eqb k' k) eqn:E; simpl; rewrite E; [done|apply IH].
Qed.

Lemma map_get_set_ne k k' v m : k ≠ k' -> map_get k' (map_set k v m) = map_get k' m.
Proof.
  intros Hne. induction m as [|[k0 v0] m IH]; simpl.
  - destruct (String.eqb k k') eqn:E; [|done]. by apply eqb_true in E.
  - destruct (String.eqb k0 k) eqn:E; simpl.
    + apply eqb_true in E. subst k0.
      destruct (String.eqb k k') eqn:E'; [|done]. by apply eqb_true in E'.
    + by rewrite IH.
Qed.

Lemma map_get_elem_of k v m : map_get k m = Some v -> (k, v) ∈ m.
Proof.
  induction m as [|[k0 v0] m IH]; simpl; [done|].
  destruct (String.eqb k0 k) eqn:E.
  - apply eqb_true in E. intros [= ->]. subst. left.
  - intros H. right. by apply IH.
Qed.

Lemma map_get_NoDup k v m : NoDup m.*1 -> (k, v) ∈ m -> map_get k m = Some v.
Proof.
  induction m as [|[k0 v0] m IH]; simpl; intros Hnd Hin.
  - by apply elem_of_nil in Hin.
  - apply NoDup_cons in Hnd as [Hk0 Hnd].
    apply elem_of_cons in Hin as [[= -> ->]|Hin].
    + by rewrite String.eqb_refl.
    + destruct (String.eqb k0 k) eqn:E; [|by apply IH].
      apply eqb_true in E. subst k0. exfalso. apply Hk0.
      apply list_elem_of_fmap. by exists (k, v).
Qed.

End Maps.

(** ** Which endpoints get a workflow *)

Lemma hasAll_four_operations endpoint :
  hasAll endpoint = true <-> four_operations endpoint.
Proof.
  unfold hasAll, four_operations.
  rewrite !andb_true_iff, !bool_decide_eq_true. tauto.
Qed.

Lemma generateWorkflow_Some fuel p endpointName endpoint w :
  generateWorkflow fuel p endpointName endpoint = Ret (Some w) ->
  hasAll endpoint = true
  ∧ wf_name w = endpointName +:+ "_crud_workflow"
  ∧ ∃ createData updateData,
      generateWorkflowSampleData fuel p endpoint (Some "POST") endpointName = Ret createData
      ∧ generateWorkflowSampleData fuel p endpoint (updateMethod endpoint) endpointName
        = Ret updateData
      ∧ steps w = workflowSteps endpointName endpoint createData updateData.
Proof.
  unfold generateWorkflow. destruct (hasAll endpoint); [|done].
  destruct (generateWorkflowSampleData fuel p endpoint (Some "POST") endpointName)
    as [createData|]; [|done]. simpl.
  destruct (generateWorkflowSampleData fuel p endpoint (updateMethod endpoint) endpointName)
    as [updateData|]; [|done]. simpl.
  intros [= <-]. simpl. eauto 10.
Qed.

Lemma generateWorkflow_None fuel p endpointName endpoint :
  generateWorkflow fuel p endpointName endpoint = Ret None -> hasAll endpoint = false.
Proof.
  unfold generateWorkflow. destruct (hasAll endpoint); [|done].
  destruct (generateWorkflowSampleData fuel p endpoint (Some "POST") endpointName);
    [|done]. simpl.
  by destruct (generateWorkflowSampleData fuel p endpoint (updateMethod endpoint)
                 endpointName).
Qed.

(** What the loop over the entries [l] does to the workflows [wfs0]. *)
Lemma workflows_loop fuel p l : ∀ wfs0 wfs,
  foldM (workflowsTurn fuel p) l wfs0 = Ret wfs ->
  (∀ k, is_Some (map_get k wfs) <->
        is_Some (map_get k wfs0)
        ∨ ∃ n ep, (n, ep) ∈ l ∧ hasAll ep = true ∧ k = n +:+ "_crud_workflow")
  ∧ ((∀ k w, map_get k wfs0 = Some w -> wf_name w = k) ->
     ∀ k w, map_get k wfs = Some w -> wf_name w = k).
Proof.
  induction l as [|[n ep] l IH]; intros wfs0 wfs; simpl.
  - intros [= <-]. split; [|done]. intros k. split; [by left|].
    intros [H|(n & ep & Hin & _)]; [done|]. by apply elem_of_nil in Hin.
  - unfold workflowsTurn at 1. simpl.
    destruct (generateWorkflow fuel p n ep) as [w|] eqn:Hw; [|done]. simpl.
    intros Hfold. apply IH in Hfold as [Hdom Hnames]. clear IH.
    destruct w as [workflow|].
    + apply generateWorkflow_Some in Hw as (Hall & Hname & _). split.
      * intros k. rewrite Hdom. split.
        -- intros [Hk|(n' & ep' & Hin & H1 & H2)].
           ++ destruct (decide (n +:+ "_crud_workflow" = k)) as [<-|Hne].
              ** right. exists n, ep. split; [left|done].
              ** left. by rewrite map_get_set_ne in Hk.
           ++ right. exists n', ep'. split; [by right|done].
        -- intros [Hk|(n' & ep' & Hin & H1 & H2)].
           ++ left. destruct (decide (n +:+ "_crud_workflow" = k)) as [<-|Hne].
              ** by rewrite map_get_set_eq.
              ** by rewrite map_get_set_ne.
           ++ apply elem_of_cons in Hin as [[= -> ->]|Hin].
              ** left. subst k. by rewrite map_get_set_eq.
              ** right. eauto.
      * intros H0. apply Hnames. intros k w.
        destruct (decide (n +:+ "_crud_workflow" = k)) as [<-|Hne].
        -- rewrite map_get_set_eq. by intros [= <-].
        -- rewrite map_get_set_ne by done. apply H0.
    + apply generateWorkflow_None in Hw. split; [|done].
      intros k. rewrite Hdom. split.
      * intros [Hk|(n' & ep' & Hin & H1 & H2)]; [by left|].
        right. exists n', ep'. split; [by right|done].
      * intros [Hk|(n' & ep' & Hin & H1 & H2)]; [by left|].
        apply elem_of_cons in Hin as [[= -> ->]|Hin]; [congruence|].
        right. eauto.
Qed.

(** *** More fuel changes no result *)

Lemma resolveSchemaReference_S fuel spec schemaOrRef :
  resolveSchemaReference (S fuel) spec schemaOrRef =
  if negb (truthy schemaOrRef) then Ret JNull
  else if truthy (get schemaOrRef "$ref") then
    match get schemaOrRef "$ref" with
    | JStr ref =>
        match walk spec (refPath ref) with
        | Some resolved => resolveSchemaReference fuel spec resolved
        | None => Ret JNull
        end
    | _ => Throw TypeError
    end
  else if is_str (get schemaOrRef "type") "object"
          && truthy (get schemaOrRef "properties") then
    do resolvedProperties <-
      mapM (fun kv => do v <- resolveSchemaReference fuel spec kv.2; Ret (kv.1, v))
           (entries (get schemaOrRef "properties"));
    Ret (JObj (obj_set "properties" (JObj resolvedProperties) (entries schemaOrRef)))
  else if is_str (get schemaOrRef "type") "array"
          && truthy (get schemaOrRef "items") then
    do items <- resolveSchemaReference fuel spec (get schemaOrRef "items");
    Ret (JObj (obj_set "items" items (entries schemaOrRef)))
  else Ret schemaOrRef.
Proof. reflexivity. Qed.

Lemma mapM_Ret {A B} (f : A -> outcome B) (l : list A) (bs : list B) :
  mapM f l = Ret bs <-> Forall2 (λ a b, f a = Ret b) l bs.
Proof.
  revert bs. induction l as [|a l IH]; intros bs; simpl.
  - split.
    + intros [= <-]. constructor.
    + intros H. by inversion H.
  - split.
    + destruct (f a) as [b|] eqn:Hb; [|done]. simpl.
      destruct (mapM f l) as [bs'|] eqn:Hbs; [|done]. simpl.
      intros [= <-]. constructor; [done|]. by apply IH.
    + intros H. inversion H as [|? b ? bs' Hb Hbs]; subst.
      rewrite Hb. simpl. apply IH in Hbs. by rewrite Hbs.
Qed.

(** More fuel does not change a result. *)
Lemma resolveSchemaReference_mono spec fuel : ∀ schemaOrRef r,
  resolveSchemaReference fuel spec schemaOrRef = Ret r ->
  resolveSchemaReference (S fuel) spec schemaOrRef = Ret r.
Proof.
  induction fuel as [|fuel IH]; intros node r; [done|].
  rewrite (resolveSchemaReference_S (S fuel)), (resolveSchemaReference_S fuel).
  destruct (negb (truthy node)); [done|].
  destruct (truthy (get node "$ref")).
  { destruct (get node "$ref"); try done.
    destruct (walk spec _); [apply IH|done]. }
  destruct (is_str (get node "type") "object" && truthy (get node "properties")).
  { destruct (mapM _ _) as [rps|] eqn:Hm; [|done]. cbn [bind]. intros [= <-].
    apply mapM_Ret in Hm.
    assert (Hm' : mapM (λ kv, do v <- resolveSchemaReference (S fuel) spec kv.2;
                              Ret (kv.1, v))
                       (entries (get node "properties")) = Ret rps).
    { apply mapM_Ret. eapply Forall2_impl; [exact Hm|]. intros [k v] b. cbn [fst snd].
      destruct (resolveSchemaReference fuel spec v) as [v'|] eqn:Hv; [|done].
      by rewrite (IH _ _ Hv). }
    by rewrite Hm'. }
  destruct (is_str (get node "type") "array" && truthy (get node "items")); [|done].
  destruct (resolveSchemaReference fuel spec (get node "items")) as [it|] eqn:Hit; [|done].
  by rewrite (IH _ _ Hit).
Qed.

Lemma foldM_mono {A S} (f f' : S -> A -> outcome S) (l : list A) :
  (∀ s a s', f s a = Ret s' -> f' s a = Ret s') ->
  ∀ s r, foldM f l s = Ret r -> foldM f' l s = Ret r.
Proof.
  intros Hf. induction l as [|a l IH]; intros s r; cbn [foldM]; [done|].
  destruct (f s a) as [s1|] eqn:E; [|done]. rewrite (Hf _ _ _ E). cbn [bind]. apply IH.
Qed.

Lemma generateSampleData_body_mono (gen gen' : jsval -> jsval -> outcome jsval)
    (schema : jsval) (r : list (string * jsval)) :
  (∀ n s v, gen n s = Ret v -> gen' n s = Ret v) ->
  generateSampleData_body gen schema = Ret r ->
  generateSampleData_body gen' schema = Ret r.
Proof.
  intros Hgen. unfold generateSampleData_body.
  destruct (_ || _); [done|].
  destruct (iterate _) as [names|]; [|done]. cbn [bind].
  match goal with |- context [foldM ?f names []] =>
    destruct (foldM f names []) as [s0|] eqn:E0; [|done]
  end.
  apply (foldM_mono _ (λ sampleData propName,
           let prop := get (get schema "properties") (toString propName) in
           if truthy prop then
             if truthy (get prop "readOnly") then Ret sampleData
             else do v <- gen' propName prop;
                  Ret (obj_set (toString propName) v sampleData)
           else Ret sampleData)) in E0.
  - cbv zeta in E0. rewrite E0. cbn [bind]. apply foldM_mono.
    intros s [k x] s'. cbn [fst snd].
    destruct (obj_has k s); [done|].
    destruct (getp x "readOnly") as [ro|]; [|done]. cbn [bind].
    destruct (truthy ro); [done|].
    destruct (gen (JStr k) x) as [v|] eqn:Hv; [|done]. by rewrite (Hgen _ _ _ Hv).
  - intros s a s'. cbv zeta.
    destruct (truthy (get (get schema "properties") (toString a))); [|done].
    destruct (truthy (get (get (get schema "properties") (toString a)) "readOnly"));
      [done|].
    destruct (gen a _) as [v|] eqn:Hv; [|done]. by rewrite (Hgen _ _ _ Hv).
Qed.

Lemma generateSampleValueForProp_S fuel endpoints propName propSchema endpointName :
  generateSampleValueForProp (S fuel) endpoints propName propSchema endpointName =
  do example <- getp propSchema "example";
  if negb (is_undefined example) then Ret example
  else if truthy (get propSchema "enum") then Ret (get (get propSchema "enum") "0")
  else
    match propName with
    | JStr name =>
        let type := get propSchema "type" in
        if is_str type "string" then
          Ret (JStr (sampleString endpoints name propSchema endpointName))
        else if is_str type "integer" || is_str type "number" then
          Ret (if is_undefined (get propSchema "minimum") then JNum 10
               else get propSchema "minimum")
        else if is_str type "boolean" then Ret (JBool true)
        else if is_str type "array" then
          if truthy (get propSchema "items") then
            do item <- generateSampleValueForProp fuel endpoints
                         (JStr (name +:+ "_item")) (get propSchema "items") endpointName;
            Ret (JArr [item])
          else Ret (JArr [])
        else if is_str type "object" then
          do sampleData <-
            generateSampleData_body
              (fun n s => generateSampleValueForProp fuel endpoints n s endpointName)
              propSchema;
          Ret (JObj sampleData)
        else Ret JNull
    | _ => Throw TypeError
    end.
Proof. reflexivity. Qed.

Lemma generateSampleValueForProp_mono endpoints endpointName fuel :
  ∀ propName propSchema v,
  generateSampleValueForProp fuel endpoints propName propSchema endpointName = Ret v ->
  generateSampleValueForProp (S fuel) endpoints propName propSchema endpointName = Ret v.
Proof.
  induction fuel as [|fuel IH]; intros propName propSchema v; [done|].
  rewrite (generateSampleValueForProp_S (S fuel)), (generateSampleValueForProp_S fuel).
  cbv zeta.
  destruct (getp propSchema "example") as [example|]; [|done]. cbn [bind].
  destruct (negb (is_undefined example)); [done|].
  destruct (truthy (get propSchema "enum")); [done|].
  destruct propName as [ | | | |name| | ]; try done.
  destruct (is_str (get propSchema "type") "string"); [done|].
  destruct (is_str (get propSchema "type") "integer"
            || is_str (get propSchema "type") "number"); [done|].
  destruct (is_str (get propSchema "type") "boolean"); [done|].
  destruct (is_str (get propSchema "type") "array").
  { destruct (truthy (get propSchema "items")); [|done].
    destruct (generateSampleValueForProp fuel _ _ _ _) as [item|] eqn:Hitem; [|done].
    by rewrite (IH _ _ _ Hitem). }
  destruct (is_str (get propSchema "type") "object"); [|done].
  destruct (generateSampleData_body _ propSchema) as [sampleData|] eqn:Hbody; [|done].
  apply (generateSampleData_body_mono _
           (λ n s, generateSampleValueForProp (S fuel) endpoints n s endpointName))
    in Hbody; [|apply IH].
  by rewrite Hbody.
Qed.

Lemma generateWorkflowSampleData_mono fuel p endpoint method endpointName payload :
  generateWorkflowSampleData fuel p endpoint method endpointName = Ret payload ->
  generateWorkflowSampleData (S fuel) p endpoint method endpointName = Ret payload.
Proof.
  unfold generateWorkflowSampleData. destruct method as [m|]; [|done].
  destruct (operations endpoint !! m) as [operation|]; [|done].
  destruct (truthy (requestBody operation)); [|done].
  unfold extractSchemaFromRequestBody. destruct (negb (truthy _)); [done|].
  destruct (resolveSchemaReference fuel _ _) as [schema|] eqn:Hschema; [|done].
  rewrite (resolveSchemaReference_mono _ _ _ _ Hschema). cbn [bind].
  destruct (truthy schema); [|done]. unfold generateSampleData.
  destruct (generateSampleData_body _ schema) as [sampleData|] eqn:Hbody; [|done].
  apply (generateSampleData_body_mono _
           (λ n s, generateSampleValueForProp (S fuel) (endpoints p) n s endpointName))
    in Hbody; [|apply generateSampleValueForProp_mono].
  by rewrite Hbody.
Qed.

Lemma generateWorkflow_mono fuel p endpointName endpoint r :
  generateWorkflow fuel p endpointName endpoint = Ret r ->
  generateWorkflow (S fuel) p endpointName endpoint = Ret r.
Proof.
  unfold generateWorkflow. destruct (hasAll endpoint); [|done].
  destruct (generateWorkflowSampleData fuel p endpoint (Some "POST") endpointName)
    as [createData|] eqn:Hc; [|done].
  rewrite (generateWorkflowSampleData_mono _ _ _ _ _ _ Hc). cbn [bind].
  destruct (generateWorkflowSampleData fuel p endpoint (updateMethod endpoint) endpointName)
    as [updateData|] eqn:Hu; [|done].
  by rewrite (generateWorkflowSampleData_mono _ _ _ _ _ _ Hu).
Qed.

(** A run of [generateWorkflows] that returns returns the same workflows
    at every greater depth of recursion. *)
Lemma generateWorkflows_mono fuel fuel' p wfs :
  (fuel <= fuel')%nat ->
  generateWorkflows fuel p = Ret wfs -> generateWorkflows fuel' p = Ret wfs.
Proof.
  induction 1 as [|fuel' _ IH]; [done|]. intros H. specialize (IH H).
  unfold generateWorkflows in *. revert IH. apply foldM_mono.
  intros s [n ep] s'. unfold workflowsTurn. cbn [fst snd].
  destruct (generateWorkflow fuel' p n ep) as [w|] eqn:Hw; [|done].
  by rewrite (generateWorkflow_mono _ _ _ _ _ Hw).
Qed.

(** *** When the synthesis returns *)

Lemma foldM_returns {A S} (f : S -> A -> outcome S) (l : list A) :
  (∀ a, a ∈ l -> ∀ s, ∃ s', f s a = Ret s') -> ∀ s, ∃ r, foldM f l s = Ret r.
Proof.
  induction l as [|a l IH]; intros Hf s; cbn [foldM]; [by eexists|].
  destruct (Hf a ltac:(left) s) as [s' ->]. cbn [bind].
  apply IH. intros b Hb. apply Hf. by right.
Qed.

Lemma foldM_raises {A S} (f : S -> A -> outcome S) (l : list A) (a : A) :
  a ∈ l -> (∀ s, ∃ e, f s a = Throw e) -> ∀ s, ∃ e, foldM f l s = Throw e.
Proof.
  intros Hin Hf. induction l as [|b l IH]; intros s; [by apply elem_of_nil in Hin|].
  cbn [foldM]. destruct (f s b) as [s'|e] eqn:Hb; [|by eexists]. cbn [bind].
  apply elem_of_cons in Hin as [->|Hin]; [|by apply IH].
  destruct (Hf s) as [e He]. congruence.
Qed.

Lemma generateWorkflow_returns fuel p endpointName endpoint :
  (four_operations endpoint -> sample_data_returns fuel p endpointName endpoint) ->
  ∃ r, generateWorkflow fuel p endpointName endpoint = Ret r.
Proof.
  intros H. unfold generateWorkflow. destruct (hasAll endpoint) eqn:Hall; [|by eexists].
  apply hasAll_four_operations in Hall.
  destruct (H Hall) as (createData & updateData & -> & ->). by eexists.
Qed.

Lemma generateWorkflow_raises fuel p endpointName endpoint :
  four_operations endpoint ->
  ¬ sample_data_returns fuel p endpointName endpoint ->
  ∃ e, generateWorkflow fuel p endpointName endpoint = Throw e.
Proof.
  intros Hall%hasAll_four_operations Hno. unfold generateWorkflow. rewrite Hall.
  destruct (generateWorkflowSampleData fuel p endpoint (Some "POST") endpointName)
    as [createData|] eqn:Hc; [|by eexists]. cbn [bind].
  destruct (generateWorkflowSampleData fuel p endpoint (updateMethod endpoint) endpointName)
    as [updateData|] eqn:Hu; [|by eexists].
  exfalso. apply Hno. by exists createData, updateData.
Qed.

(** C1, as amended.  In a fresh parser whose registry is a [Map], when
    the sample payloads of every endpoint that has the four operations
    [GET_COLLECTION], [GET], [POST] and [DELETE] are generated without an
    error, [generateWorkflows] returns, with the same workflows at every
    greater depth of recursion, and for every endpoint of the registry
    the workflows hold one named [<endpointName>_crud_workflow] if and
    only if the endpoint has the four operations; so an endpoint without
    the item [GET] gets none.  When the sample payloads of an endpoint
    that has the four operations are not generated, [generateWorkflows]
    raises. *)
Theorem workflow_iff_four_operations (fuel : nat) (p : Parser) :
  workflows p = [] ->
  NoDup (endpoints p).*1 ->
  ((∀ endpointName endpoint,
      (endpointName, endpoint) ∈ endpoints p -> four_operations endpoint ->
      sample_data_returns fuel p endpointName endpoint) ->
   ∃ wfs,
     generateWorkflows fuel p = Ret wfs
     ∧ (∀ fuel', (fuel <= fuel')%nat -> generateWorkflows fuel' p = Ret wfs)
     ∧ ∀ endpointName endpoint,
         (endpointName, endpoint) ∈ endpoints p ->
         ((∃ w, map_get (endpointName +:+ "_crud_workflow") wfs = Some w
                ∧ wf_name w = endpointName +:+ "_crud_workflow")
          <-> four_operations endpoint)
         ∧ (operations endpoint !! "GET" = None ->
            map_get (endpointName +:+ "_crud_workflow") wfs = None))
  ∧ (∀ endpointName endpoint,
       (endpointName, endpoint) ∈ endpoints p -> four_operations endpoint ->
       ¬ sample_data_returns fuel p endpointName endpoint ->
       ∃ e, generateWorkflows fuel p = Throw e).
Proof.
  intros Hfresh Hnd. split.
  - intros Hsamples.
    destruct (foldM_returns (workflowsTurn fuel p) (endpoints p)) with (s := workflows p)
      as [wfs Hgen].
    { intros [n ep] Hin s. unfold workflowsTurn. cbn [fst snd].
      destruct (generateWorkflow_returns fuel p n ep (Hsamples n ep Hin)) as [r ->].
      by eexists. }
    exists wfs. split; [done|]. split.
    { intros fuel' Hle. by apply (generateWorkflows_mono fuel). }
    intros endpointName endpoint Hin.
    rewrite Hfresh in Hgen. apply workflows_loop in Hgen as [Hdom Hnames].
    assert (Hiff : is_Some (map_get (endpointName +:+ "_crud_workflow") wfs)
                   <-> four_operations endpoint).
    { rewrite Hdom, <- hasAll_four_operations. split.
      - intros [[? [=]]|(n & ep & Hin' & Hall & Heq)].
        apply append_suffix_inj in Heq. subst n.
        apply (map_get_NoDup _ _ _ Hnd) in Hin, Hin'. congruence.
      - intros Hall. right. eauto. }
    split.
    + rewrite <- Hiff. split.
      * intros (w & Hw & _). eauto.
      * intros [w Hw]. exists w. split; [done|]. by apply (Hnames ltac:(done)) in Hw.
    + intros Hget. apply eq_None_not_Some. rewrite Hiff.
      intros (_ & [? Hsome] & _). congruence.
  - intros n ep Hin Hfour Hno. unfold generateWorkflows.
    apply (foldM_raises _ _ (n, ep) Hin). intros s. unfold workflowsTurn. cbn [fst snd].
    destruct (generateWorkflow_raises fuel p n ep Hfour Hno) as [e ->]. by eexists.
Qed.

Lemma blogWorkflows_generated : generateWorkflows 8 blogParser = Ret blogWorkflows.
Proof. vm_compute. reflexivity. Qed.

Lemma workflow_iff_four_operations_witness :
  ∃ wfs,
    generateWorkflows 8 blogParser = Ret wfs
    ∧ (∀ fuel', (8 <= fuel')%nat -> generateWorkflows fuel' blogParser = Ret wfs)
    ∧ ∀ endpointName endpoint,
        (endpointName, endpoint) ∈ endpoints blogParser ->
        ((∃ w, map_get (endpointName +:+ "_crud_workflow") wfs = Some w
               ∧ wf_name w = endpointName +:+ "_crud_workflow")
         <-> four_operations endpoint)
        ∧ (operations endpoint !! "GET" = None ->
           map_get (endpointName +:+ "_crud_workflow") wfs = None).
Proof.
  refine (proj1 (workflow_iff_four_operations 8 blogParser _ _) _).
  - reflexivity.
  - compute_done.
  - intros n ep Hin Hfour. cbn [endpoints blogParser] in Hin.
    repeat (apply elem_of_cons in Hin as [[= -> ->]|Hin]).
    + destruct Hfour as (_ & [? H] & _). vm_compute in H. discriminate.
    + eexists _, _. split; vm_compute; reflexivity.
    + destruct Hfour as (_ & [? H] & _). vm_compute in H. discriminate.
    + by apply elem_of_nil in Hin.
Defined.

(** C1, as stated, fails for an endpoint whose [POST] body schema has
    [required: null]: the endpoint has the four operations, and no run
    of the synthesis, however deep, gives it a workflow. *)
Lemma four_operations_without_workflow :
  ("ledger", ledgerEndpoint) ∈ endpoints ledgerParser
  ∧ four_operations ledgerEndpoint
  ∧ ¬ synthesized ledgerParser "ledger_crud_workflow"
  ∧ ∀ fuel, ∃ e, generateWorkflows fuel ledgerParser = Throw e.
Proof.
  split; [left|]. split.
  { unfold four_operations. repeat split; by eexists. }
  assert (H : ∀ fuel, ∃ e, generateWorkflows fuel ledgerParser = Throw e).
  { intros [|[|fuel]]; vm_compute; by eexists. }
  split; [|done].
  intros (fuel & wfs & Hgen & _). destruct (H fuel) as [e He]. congruence.
Qed.

(** ** The steps of a workflow *)

Lemma dependencySteps_filter (deps : list Dependency) : ∀ added : gset string,
  dependencySteps added deps
  = fetchStep <$> filter (λ d, "existing_" +:+ targetEndpoint d ∉ added)
                         (first_by targetEndpoint deps).
Proof.
  induction deps as [|d deps IH]; intros added; simpl; [done|].
  destruct (decide ("existing_" +:+ targetEndpoint d ∈ added)) as [Hin|Hnin].
  - rewrite filter_cons_False by (intros H; by apply H).
    rewrite IH, list_filter_filter. f_equal. apply list_filter_iff.
    intros y. split; [|tauto]. intros Hy. split; [done|]. congruence.
  - rewrite filter_cons_True by done. rewrite fmap_cons. f_equal.
    rewrite IH, list_filter_filter. f_equal. apply list_filter_iff.
    intros y. rewrite not_elem_of_union, not_elem_of_singleton. split.
    + intros [Hne Hy]. split; [done|]. congruence.
    + intros [Hy Hne]. split; [|done].
      intros Heq. by apply String.app_inj in Heq.
Qed.

Lemma filter_True {A} (l : list A) (P : A -> Prop) `{∀ x, Decision (P x)} :
  (∀ x, P x) -> filter P l = l.
Proof.
  intros HP. induction l as [|x l IH]; [done|].
  rewrite filter_cons_True by done. by rewrite IH.
Qed.

(** The fetching steps: one for each distinct target endpoint, in the
    order the targets are first seen. *)
Lemma dependencySteps_first_by (deps : list Dependency) :
  dependencySteps ∅ deps = fetchStep <$> first_by targetEndpoint deps.
Proof.
  rewrite dependencySteps_filter. f_equal. apply filter_True.
  intros x. apply not_elem_of_empty.
Qed.

Lemma findIndex_app_here {A} (f : A -> bool) (pre : list A) (x : A) (l : list A) :
  f x = true ->
  (findIndex f (pre ++ x :: l) = Some (length pre) <-> ∀ y, y ∈ pre -> f y = false).
Proof.
  intros Hx. induction pre as [|p pre IH]; simpl.
  - rewrite Hx. split; [|done]. intros _ y Hy. by apply elem_of_nil in Hy.
  - destruct (f p) eqn:Hp.
    + split; [done|]. intros H. specialize (H p ltac:(left)). congruence.
    + destruct (findIndex f (pre ++ x :: l)) as [i|] eqn:Hi; simpl.
      * split.
        -- intros [= ->]. intros y Hy. apply elem_of_cons in Hy as [->|Hy]; [done|].
           by apply (proj1 IH eq_refl).
        -- intros H.
           assert (Some i = Some (length pre)) as [= ->]; [|done].
           apply IH. intros y Hy. apply H. by right.
      * split; [done|]. intros H.
        assert (@None nat = Some (length pre)) as [=].
        apply IH. intros y Hy. apply H. by right.
Qed.

Lemma uniqueDeps_from (l : list Dependency) : ∀ pre : list Dependency,
  snd <$> filter (λ ix : nat * Dependency,
                    findIndex (λ d, String.eqb (marker d) (marker ix.2)) (pre ++ l)
                    = Some ix.1)
                 (imap (λ i d, (length pre + i, d)%nat) l)
  = filter (λ d, marker d ∉ marker <$> pre) (first_by marker l).
Proof.
  induction l as [|d l IH]; intros pre; [done|].
  rewrite imap_cons. simpl first_by.
  assert (Hshift : imap ((λ i d0, (length pre + i, d0)%nat) ∘ S) l
                   = imap (λ i d0, (length (pre ++ [d]) + i, d0)%nat) l).
  { apply imap_ext. intros i x _. simpl. rewrite length_app. simpl. f_equal. lia. }
  rewrite Hshift. clear Hshift.
  assert (Hrest :
    snd <$> filter (λ ix : nat * Dependency,
                      findIndex (λ d0, String.eqb (marker d0) (marker ix.2))
                                (pre ++ d :: l) = Some ix.1)
                   (imap (λ i d0, (length (pre ++ [d]) + i, d0)%nat) l)
    = filter (λ d0, marker d0 ∉ marker <$> (pre ++ [d])) (first_by marker l)).
  { rewrite <- IH. by rewrite <- (assoc_L (++) pre [d] l). }
  assert (Hhere :
    (findIndex (λ d0, String.eqb (marker d0) (marker d)) (pre ++ d :: l)
     = Some (length pre + 0)%nat) <-> marker d ∉ marker <$> pre).
  { rewrite Nat.add_0_r, findIndex_app_here by apply String.eqb_refl.
    rewrite list_elem_of_fmap. split.
    - intros H (y & Hm & Hy). apply H in Hy. apply eqb_false in Hy. congruence.
    - intros H y Hy. apply eqb_false. intros Hm. apply H. eauto. }
  assert (Hsplit : ∀ y : Dependency,
    marker y ∉ marker <$> (pre ++ [d])
    <-> (marker y ∉ marker <$> pre) ∧ marker y ≠ marker d).
  { intros y. rewrite fmap_app, not_elem_of_app. simpl.
    rewrite list_elem_of_singleton. tauto. }
  destruct (decide (marker d ∉ marker <$> pre)) as [Hnew|Hold].
  - rewrite filter_cons_True by (simpl; by apply Hhere).
    rewrite (filter_cons_True _ d) by done.
    rewrite fmap_cons. simpl. f_equal. rewrite Hrest, list_filter_filter.
    apply list_filter_iff, Hsplit.
  - rewrite filter_cons_False by (simpl; by rewrite Hhere).
    rewrite (filter_cons_False _ d) by done.
    rewrite Hrest, list_filter_filter. apply list_filter_iff.
    intros y. rewrite Hsplit. split; [tauto|]. intros [Hy _]. split; [done|].
    intros Heq. rewrite Heq in Hy. by apply Hold.
Qed.

(** [uniqueDeps] keeps the first dependency of each marker. *)
Lemma uniqueDeps_first_by (deps : list Dependency) :
  uniqueDeps deps = first_by marker deps.
Proof.
  unfold uniqueDeps. rewrite <- (filter_True (first_by marker deps)
                                   (λ d, marker d ∉ marker <$> @nil Dependency)).
  - rewrite <- (uniqueDeps_from deps []). done.
  - intros x. simpl. apply not_elem_of_nil.
Qed.

(** ** Objects *)

Section Objects.
Implicit Types (o t src : list (string * jsval)) (k : string) (v : jsval).

Lemma obj_get_set_eq k v o : obj_get k (obj_set k v o) = v.
Proof.
  induction o as [|[k' v'] o IH]; simpl.
  - by rewrite String.eqb_refl.
  - destruct (String.eqb k' k) eqn:E; simpl; rewrite E; [done|apply IH].
Qed.

Lemma obj_get_set_ne k k' v o : k ≠ k' -> obj_get k' (obj_set k v o) = obj_get k' o.
Proof.
  intros Hne. induction o as [|[k0 v0] o IH]; simpl.
  - destruct (String.eqb k k') eqn:E; [|done]. by apply eqb_true in E.
  - destruct (String.eqb k0 k) eqn:E; simpl.
    + apply eqb_true in E. subst k0.
      destruct (String.eqb k k') eqn:E'; [|done]. by apply eqb_true in E'.
    + by rewrite IH.
Qed.

Lemma obj_has_elem_of k o : obj_has k o = true <-> k ∈ o.*1.
Proof.
  induction o as [|[k' v'] o IH]; simpl.
  - split; [done|]. intros H. by apply elem_of_nil in H.
  - rewrite orb_true_iff, IH, elem_of_cons, eqb_true. split; intros [?|?]; auto.
Qed.

Lemma obj_has_set k k' v o :
  obj_has k' (obj_set k v o) = String.eqb k k' || obj_has k' o.
Proof.
  induction o as [|[k0 v0] o IH]; simpl.
  - by rewrite orb_false_r.
  - destruct (String.eqb k0 k) eqn:E; simpl.
    + apply eqb_true in E. subst k0. by destruct (String.eqb k k').
    + rewrite IH. by destruct (String.eqb k0 k'), (String.eqb k k').
Qed.

Lemma obj_get_absent k o : obj_has k o = false -> obj_get k o = JUndefined.
Proof.
  induction o as [|[k' v'] o IH]; simpl; [done|].
  destruct (String.eqb k' k); [done|apply IH].
Qed.







End Objects.

Lemma foldM_invariant {A S} (P : S -> Prop) (f : S -> A -> outcome S) (l : list A) :
  (∀ s a s', P s -> f s a = Ret s' -> P s') ->
  ∀ s s', P s -> foldM f l s = Ret s' -> P s'.
Proof.
  intros Hf. induction l as [|a l IH]; intros s s' Hs; simpl.
  - by intros [= <-].
  - destruct (f s a) as [s1|] eqn:E; [|done]. simpl. apply IH. by eapply Hf.
Qed.








(** An endpoint whose [POST] has no JSON request-body schema: its
    create step carries [saveToContext] and nothing else, no [data]
    object among its arguments. *)
Lemma create_step_without_body_schema :
  generateWorkflow 8 sessionsParser "sessions" sessionsEndpoint
  = Ret (Some sessionsWorkflow)
  ∧ steps sessionsWorkflow !! 0%nat
    = Some {| action := "create_session";
              step_description := "Create a new session";
              args := Some [("saveToContext", JStr "created_session")] |}.
Proof. split; [vm_compute; reflexivity|reflexivity]. Qed.

(** ** Dynamic foreign keys at run time *)

(** C3.  With a user cached under [existing_users], the marker is
    replaced where it occurs once; in the string that holds it twice
    the second occurrence stays. *)
Theorem marker_replaced_once_per_string :
  resolveContextReferences twiceArgs usersContext
  = Ret [("title", JStr "u1 and {{DYNAMIC_USERS_ID}}");
         ("data", JObj [("authorId", JStr "u1")])].
Proof. vm_compute. reflexivity. Qed.

Lemma replaceInAll_has flag m v k (resolved : list (string * jsval)) :
  obj_has k (replaceInAll flag m v resolved) = obj_has k resolved.
Proof.
  unfold replaceInAll.
  assert (H : ∀ (l r : list (string * jsval)),
             (∀ kv, kv ∈ l -> obj_has kv.1 r = true) ->
             obj_has k (fold_left (λ r kv,
                          if negb (String.eqb kv.1 flag)
                          then obj_set kv.1 (replaceDynamicMarker kv.2 m v) r else r) l r)
             = obj_has k r).
  { induction l as [|[k0 v0] l IH]; intros r Hl; [done|]. simpl.
    rewrite IH.
    - destruct (negb _); [|done]. rewrite obj_has_set.
      destruct (String.eqb k0 k) eqn:E; [|done]. apply eqb_true in E. subst k0.
      simpl. symmetry. apply (Hl (k, v0)). left.
    - intros kv Hkv. destruct (negb _).
      + rewrite obj_has_set. rewrite (Hl kv) by (by right). apply orb_true_r.
      + apply Hl. by right. }
  apply H. intros [k0 v0] Hkv. apply obj_has_elem_of. simpl.
  apply list_elem_of_fmap. by exists (k0, v0).
Qed.

Lemma obj_has_delete k k' (o : list (string * jsval)) :
  obj_has k' (obj_delete k o) = negb (String.eqb k k') && obj_has k' o.
Proof.
  induction o as [|[k0 v0] o IH]; cbn [obj_has obj_delete]; [by rewrite andb_false_r|].
  destruct (String.eqb k0 k) eqn:E; cbn [obj_has].
  - apply eqb_true in E. subst k0. rewrite IH. by destruct (String.eqb k k').
  - rewrite IH. destruct (String.eqb k0 k') eqn:E'; [|done]. cbn [orb].
    apply eqb_true in E'. subst k0. rewrite String.eqb_sym in E. by rewrite E.
Qed.

(** Whatever the store holds, a call whose [_dynamicForeignKeys] is an
    array is resolved to arguments without that field. *)
Lemma dynamicForeignKeys_stripped args testContext deps resolved :
  obj_get "_dynamicForeignKeys" args = JArr deps ->
  resolveContextReferences args testContext = Ret resolved ->
  obj_has "_dynamicForeignKeys" resolved = false.
Proof.
  intros Hdeps. unfold resolveContextReferences, resolveForeignKeys. rewrite Hdeps.
  destruct (foldM _ deps _) as [r1|]; [|done]. simpl.
  unfold resolveAuthorId. destruct (truthy _).
  - destruct (testContext !! "existing_users") as [[| | | | |[|first users]|]|];
      try (intros [= <-]; by rewrite obj_has_delete).
    destruct (getp first "id") as [authorId|]; [|done]. simpl. intros [= <-].
    rewrite obj_has_delete, replaceInAll_has, obj_has_delete. reflexivity.
  - intros [= <-]. by rewrite obj_has_delete.
Qed.

(** A dependency whose target has no cached data, or an empty list, is
    skipped: the arguments are left as they are, markers included. *)
Lemma resolveForeignKey_skipped testContext resolved fkDep :
  nullish fkDep = false ->
  (testContext !! ("existing_" +:+ toString (get fkDep "targetEndpoint")) = None
   ∨ testContext !! ("existing_" +:+ toString (get fkDep "targetEndpoint")) = Some (JArr [])) ->
  resolveForeignKey testContext resolved fkDep = Ret resolved.
Proof.
  intros Hdep H. unfold resolveForeignKey, getp. rewrite Hdep. simpl.
  by destruct H as [-> | ->].
Qed.

(** ** Running a workflow *)

(** C5.  The first step of the workflow fails.  When the call sets
    [stopOnError] to [true] no later step is dispatched; when the call
    does not supply [stopOnError] the three later steps are dispatched
    all the same. *)
Theorem stopOnError_defaults_to_continue :
  dispatched [("workflow", JStr "tags_crud_workflow"); ("stopOnError", JBool true)]
  = ["create_tag"]
  ∧ dispatched [("workflow", JStr "tags_crud_workflow")]
    = ["create_tag"; "list_tags"; "get_tag"; "delete_tag"].
Proof. split; vm_compute; reflexivity. Qed.

Section RunSteps.
Context {Net : Type}.
Variable handleToolCall :
  string -> list (string * jsval) -> @State Net -> outcome string * @State Net.

(** A failing step ends the run when [stopOnError] is truthy: it is the
    last call dispatched. *)
Lemma runSteps_stops stopOnError i step steps' results calls st error st' :
  truthy stopOnError = true ->
  handleToolCall (action step) (default [] (args step)) st = (Throw error, st') ->
  (runSteps handleToolCall stopOnError i (step :: steps') results calls st).1.2
  = calls ++ [(action step, default [] (args step))].
Proof. intros Hstop Hcall. simpl. by rewrite Hcall, Hstop. Qed.

(** When [stopOnError] is falsy the run goes on with the next step, and
    the report keeps the lines it had, followed by the failure message. *)
Lemma runSteps_continues stopOnError i step steps' results calls st error st' :
  truthy stopOnError = false ->
  handleToolCall (action step) (default [] (args step)) st = (Throw error, st') ->
  ∃ line,
    runSteps handleToolCall stopOnError i (step :: steps') results calls st
    = runSteps handleToolCall stopOnError (S i) steps'
        (results ++ [line; "❌ Failed: " +:+ message error; EmptyString])
        (calls ++ [(action step, default [] (args step))]) st'.
Proof.
  intros Hstop Hcall. eexists. simpl. rewrite Hcall, Hstop.
  by rewrite <- !(assoc_L (++)).
Qed.

(** The lines of the report are only ever added to. *)
Lemma runSteps_keeps_results stopOnError steps : ∀ i results calls st,
  ∃ more, (runSteps handleToolCall stopOnError i steps results calls st).1.1
          = results ++ more.
Proof.
  induction steps as [|step steps' IH]; intros i results calls st; simpl.
  - exists []. by rewrite app_nil_r.
  - destruct (handleToolCall _ _ st) as [[text|error] st'].
    + destruct (negb _);
        match goal with |- context [runSteps _ _ ?i _ ?r ?c ?s] =>
          destruct (IH i r c s) as [more ->] end;
        rewrite <- !(assoc_L (++)); eauto.
    + destruct (truthy stopOnError); simpl.
      * rewrite <- !(assoc_L (++)). eauto.
      * match goal with |- context [runSteps _ _ ?i _ ?r ?c ?s] =>
          destruct (IH i r c s) as [more ->] end.
        rewrite <- !(assoc_L (++)). eauto.
Qed.

End RunSteps.

(** ** Tool names and step actions *)

(** C8.  For the endpoint [address] the steps of the workflow name
    [create_address], [get_address] and [delete_address], while the tools
    generated for its [POST], [GET] and [DELETE] operations are
    [create_addres], [get_addres] and [delete_addres]. *)
Theorem step_actions_are_not_the_tool_names :
  generateWorkflow 8 addressParser "address" addressEndpoint = Ret (Some addressWorkflow)
  ∧ action <$> steps addressWorkflow
    = ["create_address"; "list_address"; "get_address"; "delete_address"]
  ∧ (λ method, generateToolName method "address")
      <$> ["POST"; "GET_COLLECTION"; "GET"; "DELETE"]
    = ["create_addres"; "list_address"; "get_addres"; "delete_addres"]
  ∧ getSingularName "address" = "address".
Proof. repeat split; vm_compute; reflexivity. Qed.

(** The two singular forms agree on every name that does not end in
    [ss]. *)
Lemma singular_names_agree endpointName :
  endsWith endpointName "ss" = false ->
  generateToolName "POST" endpointName = "create_" +:+ getSingularName endpointName
  ∧ generateToolName "GET" endpointName = "get_" +:+ getSingularName endpointName
  ∧ generateToolName "PUT" endpointName = "update_" +:+ getSingularName endpointName
  ∧ generateToolName "DELETE" endpointName = "delete_" +:+ getSingularName endpointName.
Proof.
  intros Hss. unfold generateToolName, getSingularName. rewrite Hss.
  by destruct (endsWith endpointName "s").
Qed.

(** An endpoint updated by [PATCH] alone: the tool is [patch_<singular>],
    the step of the workflow is [update_<singular>]. *)
Lemma patch_tool_name endpointName :
  generateToolName "PATCH" endpointName
  = "patch_" +:+ (if endsWith endpointName "s" then slice_init endpointName
                  else endpointName).
Proof. reflexivity. Qed.

(** ** Arguments taken from the context store *)





(** ** Endpoint tools and the context store *)

Section EndpointTool.
Context {Net : Type}.
Variable httpRequest : Request -> Net -> outcome Response * Net.
Variable urlSearchParams : jsval -> outcome string.
Variable config : Config.
Variable endpointTools : list (string * Tool).

Local Abbreviation handle :=
  (handleEndpointTool httpRequest urlSearchParams config endpointTools).

(** A call that returns has sent one request, and the answer to that
    request decides what the store holds afterwards. *)
Lemma handleEndpointTool_returns toolName args (st : @State Net) text st' :
  handle toolName args st = (Ret text, st') ->
  ∃ request response,
    httpRequest request (net st) = (Ret response, net st')
    ∧ sent st' = sent st ++ [request]
    ∧ testContext st' =
        if truthy (obj_get "saveToContext" args) && truthy (resp_data response)
        then context_set (obj_get "saveToContext" args) (resp_data response) (testContext st)
        else testContext st.
Proof.
  unfold handleEndpointTool.
  destruct (map_get toolName endpointTools) as [tool|]; [|done].
  destruct (map_get (tool_endpoint tool) (cfg_endpoints config)); [|done].
  destruct (resolveContextReferences args (testContext st)) as [resolvedArgs|]; [|done].
  destruct (includes _ _ && negb _); [done|].
  match goal with |- context [if truthy (obj_get "queryParams" resolvedArgs) then ?a else ?b] =>
    destruct (if truthy (obj_get "queryParams" resolvedArgs) then a else b) as [url|]
  end; [|done].
  cbv zeta. destruct (String.eqb _ "POST" && _); [done|]. simpl net. simpl sent.
  simpl testContext.
  match goal with |- context [httpRequest ?r (net st)] =>
    destruct (httpRequest r (net st)) as [[response|err] net'] eqn:Hreq; [|done];
    intros [= <- <-]; exists r, response
  end.
  done.
Qed.

(** C9, as amended.  After an endpoint-tool call that returns, when the
    arguments of the call give a non-empty key under [saveToContext] and
    the payload of the response is truthy, the store maps the key to the
    payload and every other key to the value it had; when the call gives
    no key, or the payload is falsy, the store is the one before the
    call. *)
Theorem saveToContext_effect (toolName : string) (args : list (string * jsval))
    (st st' : @State Net) (text : string) :
  handle toolName args st = (Ret text, st') ->
  ∃ request response,
    httpRequest request (net st) = (Ret response, net st')
    ∧ (∀ k, obj_get "saveToContext" args = JStr k -> k ≠ EmptyString ->
            truthy (resp_data response) = true ->
            testContext st' !! k = Some (resp_data response)
            ∧ ∀ k', k' ≠ k -> testContext st' !! k' = testContext st !! k')
    ∧ (truthy (obj_get "saveToContext" args) = false
       ∨ truthy (resp_data response) = false ->
       testContext st' = testContext st).
Proof.
  intros H. apply handleEndpointTool_returns in H as (request & response & Hreq & _ & Hctx).
  exists request, response. split; [done|]. rewrite Hctx. split.
  - intros k Hk Hne Hdata. rewrite Hk, Hdata. apply eqb_false in Hne.
    cbn [truthy context_set]. rewrite Hne. cbn [negb andb]. split.
    + apply lookup_insert_eq.
    + intros k' Hk'. by apply lookup_insert_ne.
  - intros [-> | ->]; [done|]. by rewrite andb_false_r.
Qed.

(** C10.  A tool whose operation path has a path parameter, called with
    arguments that resolve to no [id]: the call raises the error that
    names the missing [id] (for a tool whose endpoint has left the
    configuration, the error that names the endpoint), the store is the
    one before the call and no request has been handed to the HTTP
    client. *)
Theorem id_is_required (toolName : string) (tool : Tool)
    (args resolvedArgs : list (string * jsval)) (st : @State Net) :
  map_get toolName endpointTools = Some tool ->
  includes (op_path (tool_operation tool)) "{" = true ->
  resolveContextReferences args (testContext st) = Ret resolvedArgs ->
  truthy (obj_get "id" resolvedArgs) = false ->
  handle toolName args st
  = (Throw (Error (if map_has (tool_endpoint tool) (cfg_endpoints config)
                   then "ID parameter is required for " +:+ tool_method tool
                        +:+ " operation on " +:+ op_path (tool_operation tool)
                   else "Endpoint not found: " +:+ tool_endpoint tool)),
     st).
Proof.
  intros Htool Hpath Hresolved Hid. unfold handleEndpointTool, map_has.
  rewrite Htool. destruct (map_get (tool_endpoint tool) (cfg_endpoints config)).
  - rewrite bool_decide_eq_true_2 by eauto. by rewrite Hresolved, Hpath, Hid.
  - rewrite bool_decide_eq_false_2 by (by intros [? ?]). done.
Qed.

(** Whenever an endpoint-tool call raises before its request is sent,
    the state is the one before the call. *)
Lemma handleEndpointTool_raises toolName args (st : @State Net) error st' :
  handle toolName args st = (Throw error, st') ->
  sent st' = sent st -> st' = st.
Proof.
  unfold handleEndpointTool.
  destruct (map_get toolName endpointTools) as [tool|]; [|by intros [= _ <-]].
  destruct (map_get (tool_endpoint tool) (cfg_endpoints config)); [|by intros [= _ <-]].
  destruct (resolveContextReferences args (testContext st)) as [resolvedArgs|];
    [|by intros [= _ <-]].
  destruct (includes _ _ && negb _); [by intros [= _ <-]|].
  match goal with |- context [if truthy (obj_get "queryParams" resolvedArgs) then ?a else ?b] =>
    destruct (if truthy (obj_get "queryParams" resolvedArgs) then a else b) as [url|]
  end; [|by intros [= _ <-]].
  cbv zeta. destruct (String.eqb _ "POST" && _); [by intros [= _ <-]|].
  match goal with |- context [httpRequest ?r ?n] =>
    destruct (httpRequest r n) as [[response|err] net'] end; [done|].
  intros [= _ <-]. simpl. intros Hsent.
  apply (f_equal length) in Hsent. rewrite length_app in Hsent. simpl in Hsent. lia.
Qed.

End EndpointTool.

Lemma saveToContext_effect_witness :
  testContext afterCreate.2 !! "created_tag" = Some tagPayload
  ∧ ∀ k', k' ≠ "created_tag" -> testContext afterCreate.2 !! k' = testContext idle !! k'.
Proof.
  destruct (saveToContext_effect answersCreated noParams tagConfig tagTools
              "create_tag" createTagArgs idle afterCreate.2
              (match afterCreate.1 with Ret text => text | Throw _ => EmptyString end))
    as (request & response & Hrequest & Hsaved & _).
  - vm_compute. reflexivity.
  - injection Hrequest as Hresponse. subst response.
    apply (Hsaved "created_tag"); [reflexivity|discriminate|reflexivity].
Defined.

(** C9, as stated, fails for a response without a body: the call
    returns, its arguments give the key [deleted_tag], and the store has
    nothing under that key. *)
Lemma empty_payload_is_not_saved :
  handleEndpointTool answersNoContent noParams tagConfig tagTools
    "delete_tag" deleteTagArgs idle = afterDelete
  ∧ is_Ret afterDelete.1
  ∧ obj_get "saveToContext" deleteTagArgs = JStr "deleted_tag"
  ∧ testContext afterDelete.2 !! "deleted_tag" ≠ Some (JStr EmptyString).
Proof.
  split; [vm_compute; reflexivity|]. split; [exact I|]. split; [reflexivity|].
  vm_compute. discriminate.
Qed.

Lemma id_is_required_witness :
  handleEndpointTool answersCreated noParams tagConfig tagTools "get_tag" [] idle
  = (Throw (Error "ID parameter is required for GET operation on /tags/{id}"), idle).
Proof.
  apply (id_is_required answersCreated noParams tagConfig tagTools "get_tag"
           (tagTool "GET" "/tags/{id}") [] [] idle);
    vm_compute; reflexivity.
Defined.

(** ** Sample values of foreign keys *)

(** A property with format [uuid] and no [type]: with the [users]
    endpoint in the registry, the sample of [authorId] is [null], not
    the marker. *)
Lemma untyped_uuid_sample_is_null :
  map_has "users" (endpoints blogParser) = true
  ∧ generateSampleValueForProp 8 (endpoints blogParser) (JStr "authorId")
      (JObj [("format", JStr "uuid")]) "posts" = Ret JNull.
Proof. split; vm_compute; reflexivity. Qed.

Lemma detect_loop_None endpoints propName isUuid patterns :
  (∀ pattern targetResource targetEndpoint,
     pattern ∈ patterns ->
     candidate propName pattern = Some (targetResource, targetEndpoint) ->
     map_has targetEndpoint endpoints = false) ->
  detect_loop endpoints propName isUuid patterns = None.
Proof.
  induction patterns as [|pattern patterns IH]; intros H; simpl; [done|].
  destruct (candidate propName pattern) as [[targetResource targetEndpoint]|] eqn:Hc.
  - rewrite (H pattern targetResource targetEndpoint) by (done || left).
    rewrite andb_false_r. apply IH. intros ??? Hin. apply H. by right.
  - apply IH. intros ??? Hin. apply H. by right.
Qed.

Lemma detect_users endpoints propName propSchema endpointName :
  propName ∈ ["authorId"; "userId"; "ownerId"] ->
  get propSchema "format" = JStr "uuid" ->
  map_has "users" endpoints = true ->
  fk_targetEndpoint
    <$> detectForeignKeyRelationship endpoints propName propSchema endpointName
  = Some "users".
Proof.
  intros Hname Hformat Husers. unfold detectForeignKeyRelationship. rewrite Hformat.
  change (is_str (JStr "uuid") "uuid") with true.
  repeat (apply elem_of_cons in Hname as [->|Hname]);
    [| | |by apply elem_of_nil in Hname]; cbn [fkPatterns detect_loop].
  - change (candidate "authorId" (match_suffix_i "id")) with (Some ("author", "users")).
    cbv iota beta. by rewrite Husers.
  - change (candidate "userId" (match_suffix_i "id")) with (Some ("user", "users")).
    cbv iota beta. by rewrite Husers.
  - change (candidate "ownerId" (match_suffix_i "id")) with (Some ("owner", "users")).
    cbv iota beta. by rewrite Husers.
Qed.

Lemma sampleString_uuid endpoints propName propSchema endpointName :
  get propSchema "format" = JStr "uuid" ->
  includes (toLowerCase propName) "email" = false ->
  sampleString endpoints propName propSchema endpointName
  = match detectForeignKeyRelationship endpoints propName propSchema endpointName with
    | Some foreignKeyInfo =>
        "{{DYNAMIC_" +:+ toUpperCase (fk_targetEndpoint foreignKeyInfo) +:+ "_ID}}"
    | None => uuid_literal
    end.
Proof.
  intros Hformat Hemail. unfold sampleString. rewrite Hformat, Hemail.
  reflexivity.
Qed.

(** C6, as amended.  For a property of type [string] and format [uuid]
    without [example] and without [enum]: when its name is [authorId],
    [userId] or [ownerId] and the registry has a [users] endpoint, its
    sample is the marker of [users]; when its name does not contain
    [email] and none of the endpoints its name points at is in the
    registry, its sample is the literal UUID. *)
Theorem uuid_sample (fuel : nat) (endpoints : list (string * Endpoint))
    (propName : string) (propSchema : jsval) (endpointName : string) :
  nullish propSchema = false ->
  get propSchema "example" = JUndefined ->
  truthy (get propSchema "enum") = false ->
  get propSchema "type" = JStr "string" ->
  get propSchema "format" = JStr "uuid" ->
  (propName ∈ ["authorId"; "userId"; "ownerId"] ->
   map_has "users" endpoints = true ->
   generateSampleValueForProp (S fuel) endpoints (JStr propName) propSchema endpointName
   = Ret (JStr usersMarker))
  ∧ (includes (toLowerCase propName) "email" = false ->
     (∀ pattern targetResource targetEndpoint,
        pattern ∈ fkPatterns ->
        candidate propName pattern = Some (targetResource, targetEndpoint) ->
        map_has targetEndpoint endpoints = false) ->
     generateSampleValueForProp (S fuel) endpoints (JStr propName) propSchema endpointName
     = Ret (JStr uuid_literal)).
Proof.
  intros Hschema Hexample Henum Htype Hformat.
  assert (Hgen : generateSampleValueForProp (S fuel) endpoints (JStr propName)
                   propSchema endpointName
                 = Ret (JStr (sampleString endpoints propName propSchema endpointName))).
  { cbn [generateSampleValueForProp]. unfold getp.
    by rewrite Hschema, Hexample, Henum, Htype. }
  rewrite Hgen. split.
  - intros Hname Husers. do 2 f_equal. rewrite sampleString_uuid; [|done|].
    + pose proof (detect_users endpoints propName propSchema endpointName
                    Hname Hformat Husers) as Hdetect.
      destruct (detectForeignKeyRelationship _ _ _ _) as [info|]; [|done].
      injection Hdetect as ->. reflexivity.
    + repeat (apply elem_of_cons in Hname as [->|Hname]);
        [| | |by apply elem_of_nil in Hname]; reflexivity.
  - intros Hemail Hnone. do 2 f_equal. rewrite sampleString_uuid by done.
    unfold detectForeignKeyRelationship. by rewrite detect_loop_None.
Qed.

Lemma uuid_sample_witness :
  generateSampleValueForProp 1 (endpoints blogParser) (JStr "authorId") uuidSchema "posts"
  = Ret (JStr usersMarker)
  ∧ generateSampleValueForProp 1 (endpoints blogParser) (JStr "categoryId") uuidSchema "posts"
    = Ret (JStr uuid_literal).
Proof.
  split.
  - apply (uuid_sample 0 (endpoints blogParser) "authorId" uuidSchema "posts");
      try reflexivity. left.
  - apply (uuid_sample 0 (endpoints blogParser) "categoryId" uuidSchema "posts");
      try reflexivity.
    intros pattern targetResource targetEndpoint Hpattern.
    repeat (apply elem_of_cons in Hpattern as [->|Hpattern]);
      [| | |by apply elem_of_nil in Hpattern];
      vm_compute; intros [= <- <-] || discriminate; reflexivity.
Defined.

(** ** Resolved schemas *)

(** C7, as stated, fails on a schema without [type]: it is returned as
    it is, with the reference under its [properties]. *)
Lemma untyped_schema_keeps_its_reference :
  resolveSchemaReference 8 componentsSpec untypedSchema = Ret untypedSchema
  ∧ ref_reachable 1 untypedSchema = true.
Proof. split; vm_compute; reflexivity. Qed.

Lemma obj_get_indexed {A} (f : A -> jsval) k (l : list A) : ∀ i,
  obj_get k (indexed i (f <$> l)) = default JUndefined (index_get i k (f <$> l)).
Proof.
  induction l as [|a l IH]; intros i; [done|].
  rewrite fmap_cons. cbn [indexed obj_get index_get].
  destruct (String.eqb (pretty i) k); [done|apply IH].
Qed.

(** Reading a property off the entries of a value is reading it off the
    value. *)
Lemma obj_get_entries node k :
  String.eqb k "length" = false -> obj_get k (entries node) = get node k.
Proof.
  intros Hk. destruct node as [| | | |s|xs|kvs]; try done.
  - cbn [entries get]. rewrite Hk. unfold char_vals. apply obj_get_indexed.
  - cbn [entries get]. rewrite Hk. rewrite <- (list_fmap_id xs). apply obj_get_indexed.
Qed.

Lemma obj_set_idemp k v (o : list (string * jsval)) :
  obj_set k v (obj_set k v o) = obj_set k v o.
Proof.
  induction o as [|[k' v'] o IH]; cbn [obj_set].
  - by rewrite String.eqb_refl.
  - destruct (String.eqb k' k) eqn:E; cbn [obj_set]; rewrite E; [done|by rewrite IH].
Qed.

Lemma get_opt_truthy node k : truthy node = true -> get_opt node k = get node k.
Proof. by destruct node. Qed.

Lemma falsy_entries v : truthy v = false -> entries v = [].
Proof.
  destruct v as [| |b|n|s|xs|kvs]; try done.
  cbn [truthy]. intros H%negb_false_iff%eqb_true. by subst s.
Qed.

Lemma falsy_no_ref v depth : truthy v = false -> ref_reachable_typed depth v = false.
Proof.
  destruct v as [| |b|n|s|xs|kvs]; try done; try (by destruct depth).
  cbn [truthy]. intros H%negb_false_iff%eqb_true. subst s. by destruct depth.
Qed.

Lemma ref_reachable_typed_S depth node :
  ref_reachable_typed (S depth) node =
  has_ref node
  || (is_str (get_opt node "type") "object"
      && existsb (λ kv, ref_reachable_typed depth kv.2) (entries (get_opt node "properties"))
      || is_str (get_opt node "type") "array"
         && ref_reachable_typed depth (get_opt node "items")).
Proof. reflexivity. Qed.

Lemma ref_reachable_typed_0 node : ref_reachable_typed 0 node = has_ref node.
Proof. cbn [ref_reachable_typed]. apply orb_false_r. Qed.

Lemma is_str_exclusive v : is_str v "object" = true -> is_str v "array" = false.
Proof.
  destruct v as [| | | |s| |]; try done. cbn [is_str].
  intros ->%eqb_true. reflexivity.
Qed.

(** C7, as amended.  In the tree the resolver returns no reference is
    reachable through the [properties] of the nodes of type [object]
    and the [items] of the nodes of type [array], and resolving that
    tree again returns it. *)
Theorem resolved_schema (fuel : nat) (spec schemaOrRef r : jsval) :
  resolveSchemaReference fuel spec schemaOrRef = Ret r ->
  (∀ depth, ref_reachable_typed depth r = false)
  ∧ resolveSchemaReference fuel spec r = Ret r.
Proof.
  revert schemaOrRef r. induction fuel as [|fuel IH]; intros node r; [done|].
  rewrite resolveSchemaReference_S.
  destruct (truthy node) eqn:Hnode; cbn [negb];
    [|intros [= <-]; split; [by intros []|done]].
  destruct (truthy (get node "$ref")) eqn:Href.
  { destruct (get node "$ref"); try done.
    destruct (walk spec _); [|intros [= <-]; split; [by intros []|done]].
    intros [H1 H2]%IH. split; [done|]. by apply resolveSchemaReference_mono. }
  assert (Hnoref : has_ref node = false).
  { unfold has_ref. by rewrite get_opt_truthy. }
  destruct (is_str (get node "type") "object" && truthy (get node "properties")) eqn:Hobj.
  { destruct (mapM _ _) as [rps|] eqn:Hm; [|done]. cbn [bind]. intros [= <-].
    apply andb_true_iff in Hobj as [Htype Hprops].
    assert (Hrps : Forall (λ kv, (∀ depth, ref_reachable_typed depth kv.2 = false)
                                 ∧ resolveSchemaReference fuel spec kv.2 = Ret kv.2) rps).
    { apply mapM_Ret in Hm. induction Hm as [|[k v] [k' v'] l l' Hkv _ IHl];
        constructor; [|done]. cbn [fst snd] in *.
      destruct (resolveSchemaReference fuel spec v) as [w|] eqn:Hv; [|done].
      injection Hkv as _ ->. by apply IH in Hv. }
    set (kvs := obj_set "properties" (JObj rps) (entries node)).
    assert (Fref : obj_get "$ref" kvs = get node "$ref").
    { unfold kvs. rewrite obj_get_set_ne by done. by apply obj_get_entries. }
    assert (Ftype : obj_get "type" kvs = get node "type").
    { unfold kvs. rewrite obj_get_set_ne by done. by apply obj_get_entries. }
    assert (Fprops : obj_get "properties" kvs = JObj rps).
    { apply obj_get_set_eq. }
    split.
    - intros depth. destruct depth as [|depth].
      + rewrite ref_reachable_typed_0. unfold has_ref. cbn [get_opt nullish get].
        by rewrite Fref.
      + rewrite ref_reachable_typed_S. unfold has_ref. cbn [get_opt nullish get].
        rewrite Fref, Href, Ftype, Htype, (is_str_exclusive _ Htype), Fprops.
        cbn [orb andb entries]. rewrite orb_false_r.
        apply not_true_is_false. intros (kv & Hin & Hkv)%existsb_exists.
        apply list_elem_of_In in Hin.
        rewrite Forall_forall in Hrps. apply Hrps in Hin as [Hno _].
        by rewrite Hno in Hkv.
    - rewrite resolveSchemaReference_S. cbn [truthy negb get].
      rewrite Fref, Href, Ftype, Htype, Fprops. cbn [truthy andb entries].
      assert (Hagain : mapM (λ kv, do v <- resolveSchemaReference fuel spec kv.2;
                                   Ret (kv.1, v)) rps = Ret rps).
      { apply mapM_Ret. clear -Hrps. induction Hrps as [|[k v] l [_ Hv] _ IHl];
          constructor; [|done]. cbn [fst snd] in *. by rewrite Hv. }
      rewrite Hagain. cbn [bind]. unfold kvs. by rewrite obj_set_idemp. }
  destruct (is_str (get node "type") "array" && truthy (get node "items")) eqn:Harr.
  { destruct (resolveSchemaReference fuel spec (get node "items")) as [it|] eqn:Hit;
      [|done]. cbn [bind]. intros [= <-].
    apply andb_true_iff in Harr as [Htype Hitems].
    apply IH in Hit as [Hno Hit].
    set (kvs := obj_set "items" it (entries node)).
    assert (Fref : obj_get "$ref" kvs = get node "$ref").
    { unfold kvs. rewrite obj_get_set_ne by done. by apply obj_get_entries. }
    assert (Ftype : obj_get "type" kvs = get node "type").
    { unfold kvs. rewrite obj_get_set_ne by done. by apply obj_get_entries. }
    assert (Fitems : obj_get "items" kvs = it).
    { apply obj_get_set_eq. }
    assert (Hnotobj : is_str (get node "type") "object" = false).
    { destruct (is_str (get node "type") "object") eqn:E; [|done].
      apply is_str_exclusive in E. congruence. }
    split.
    - intros depth. destruct depth as [|depth].
      + rewrite ref_reachable_typed_0. unfold has_ref. cbn [get_opt nullish get].
        by rewrite Fref.
      + rewrite ref_reachable_typed_S. unfold has_ref. cbn [get_opt nullish get].
        rewrite Fref, Href, Ftype, Htype, Hnotobj, Fitems. cbn [orb andb]. apply Hno.
    - rewrite resolveSchemaReference_S. cbn [truthy negb get].
      rewrite Fref, Href, Ftype, Htype, Hnotobj, Fitems. cbn [andb].
      destruct (truthy it); [|done].
      rewrite Hit. cbn [bind entries]. unfold kvs. by rewrite obj_set_idemp. }
  intros [= <-]. split.
  - intros depth. destruct depth as [|depth].
    + by rewrite ref_reachable_typed_0.
    + rewrite ref_reachable_typed_S, Hnoref, !get_opt_truthy by done. cbn [orb].
      apply orb_false_iff. split.
      * apply andb_false_iff in Hobj as [->|Hprops]; [done|].
        rewrite (falsy_entries _ Hprops). apply andb_false_r.
      * apply andb_false_iff in Harr as [->|Hitems]; [done|].
        rewrite (falsy_no_ref _ _ Hitems). apply andb_false_r.
  - rewrite resolveSchemaReference_S, Hnode, Href, Hobj, Harr. done.
Qed.

Lemma resolved_schema_witness :
  (∀ depth, ref_reachable_typed depth resolvedPost = false)
  ∧ resolveSchemaReference 8 componentsSpec resolvedPost = Ret resolvedPost.
Proof.
  apply (resolved_schema 8 componentsSpec postRef resolvedPost).
  vm_compute. reflexivity.
Defined.

(** * Further properties of the parser and of the tool manager *)

(** ** Strings *)

Lemma append_cons (c : ascii) (a b : string) : String c a +:+ b = String c (a +:+ b).
Proof. reflexivity. Qed.

Lemma length_append (a b : string) :
  String.length (a +:+ b) = (String.length a + String.length b)%nat.
Proof. induction a as [|c a IH]; simpl; [done|by rewrite IH]. Qed.

Lemma drop_append (a b : string) : drop (String.length a) (a +:+ b) = b.
Proof. induction a as [|c a IH]; simpl; [by destruct b|done]. Qed.

Lemma substring_append (a b : string) : substring 0 (String.length a) (a +:+ b) = a.
Proof.
  induction a as [|c a IH]; simpl; [by destruct b|by rewrite IH].
Qed.

Lemma substring_drop (n : nat) (s : string) : substring 0 n s +:+ drop n s = s.
Proof.
  revert s. induction n as [|n IH]; intros [|c s]; cbn [substring drop String.append];
    try done.
  change (String c (substring 0 n s +:+ drop n s) = String c s). by rewrite IH.
Qed.

Lemma endsWith_spec (s suf : string) :
  endsWith s suf = true <-> ∃ pre, s = pre +:+ suf.
Proof.
  unfold endsWith. rewrite andb_true_iff, Nat.leb_le, eqb_true. split.
  - intros [_ H]. exists (substring 0 (String.length s - String.length suf) s).
    pose proof (substring_drop (String.length s - String.length suf) s) as E.
    by rewrite H in E.
  - intros [pre ->]. rewrite length_append. split; [lia|].
    replace (String.length pre + String.length suf - String.length suf)%nat
      with (String.length pre) by lia.
    apply drop_append.
Qed.

Lemma slice_init_append (s : string) (c : ascii) :
  slice_init (s +:+ String c EmptyString) = s.
Proof.
  unfold slice_init. rewrite length_append. simpl.
  replace (String.length s + 1 - 1)%nat with (String.length s) by lia.
  apply substring_append.
Qed.

Lemma includes_char (c a : ascii) (s : string) :
  includes (String a s) (String c EmptyString)
  = Ascii.eqb a c || includes s (String c EmptyString).
Proof.
  simpl. unfold startsWith at 1. simpl.
  destruct (ascii_dec c a) as [->|Hne].
  - rewrite Ascii.eqb_refl. by destruct s.
  - destruct (Ascii.eqb a c) eqn:E; [|done]. apply Ascii.eqb_eq in E. by subst.
Qed.

(** ** Endpoint names *)

Lemma underscores_includes (s : string) :
  includes (underscores s) "/" = false ∧ includes (underscores s) "-" = false.
Proof.
  induction s as [|c s [IH1 IH2]]; [done|].
  cbn [underscores]. rewrite !includes_char, IH1, IH2, !orb_false_r.
  destruct (Ascii.eqb c "/") eqn:E1; [done|].
  destruct (Ascii.eqb c "-") eqn:E2; [done|]. cbn [orb]. by rewrite E1, E2.
Qed.

(** X1.  The name [extractEndpointName] gives a path template is never
    empty and holds neither a slash nor a hyphen, whatever the
    template. *)
Theorem endpoint_name_shape (pathTemplate : string) :
  extractEndpointName pathTemplate ≠ EmptyString
  ∧ includes (extractEndpointName pathTemplate) "/" = false
  ∧ includes (extractEndpointName pathTemplate) "-" = false.
Proof.
  unfold extractEndpointName.
  set (name := underscores _).
  destruct (String.eqb name "") eqn:E; [done|].
  apply eqb_false in E. split; [done|]. apply underscores_includes.
Qed.

Lemma until_brace_append (x rest : string) :
  includes x "}" = false -> until_brace (x +:+ String "}" rest) = Some (x, rest).
Proof.
  induction x as [|c x IH]; [done|].
  rewrite includes_char. intros [Hc Hx]%orb_false_iff.
  rewrite append_cons. cbn [until_brace]. by rewrite Hc, IH.
Qed.

Lemma cut_parameters_plain (r : string) :
  includes r "{" = false -> cut_parameters r = r.
Proof.
  induction r as [|c r IH]; [done|].
  rewrite includes_char. intros [Hc Hr]%orb_false_iff.
  cbn [cut_parameters]. by rewrite Hc, IH.
Qed.

Lemma cut_parameters_item (r x rest : string) :
  includes r "{" = false -> x ≠ EmptyString -> includes x "}" = false ->
  dots rest = true ->
  cut_parameters (r +:+ "/{" +:+ x +:+ String "}" rest) = r +:+ "/".
Proof.
  intros Hr Hx Hclose Hrest. induction r as [|c r IH].
  - change (cut_parameters (String "/" (String "{" (x +:+ String "}" rest))) = "/").
    cbn [cut_parameters]. change (Ascii.eqb "/" "{") with false.
    change (Ascii.eqb "{" "{") with true. cbn iota.
    rewrite until_brace_append by done. destruct x; [congruence|]. by rewrite Hrest.
  - rewrite includes_char in Hr. apply orb_false_iff in Hr as [Hc Hr].
    rewrite !append_cons. cbn [cut_parameters]. rewrite Hc. f_equal. by apply IH.
Qed.

(** X2.  A path is named after what precedes its first path parameter:
    for a template [p] that starts with a slash, has no path parameter
    and does not end in a slash, the item path [p/{x}] and every path
    nested under it, [p/{x}/...], get the endpoint name of [p]. *)
Theorem item_path_names_the_collection (p x rest : string) :
  startsWith p "/" = true ->
  includes p "{" = false ->
  endsWith p "/" = false ->
  x ≠ EmptyString ->
  includes x "}" = false ->
  dots rest = true ->
  extractEndpointName (p +:+ "/{" +:+ x +:+ String "}" rest) = extractEndpointName p.
Proof.
  intros Hstart Hopen Hend Hx Hclose Hrest.
  destruct p as [|c r]; [done|].
  unfold startsWith in Hstart. cbn [String.prefix] in Hstart.
  destruct (ascii_dec "/" c) as [<-|]; [|done]. clear Hstart.
  rewrite includes_char in Hopen. apply orb_false_iff in Hopen as [_ Hopen].
  assert (Hr : endsWith r "/" = false).
  { destruct (endsWith r "/") eqn:E; [|done].
    apply endsWith_spec in E as [pre ->].
    rewrite <- Hend. symmetry. apply endsWith_spec. by exists (String "/" pre). }
  unfold extractEndpointName. rewrite append_cons. cbn [strip_leading_slash].
  change (Ascii.eqb "/" "/") with true. cbn iota.
  rewrite cut_parameters_item, cut_parameters_plain by done.
  unfold strip_trailing_slash. rewrite Hr.
  rewrite (proj2 (endsWith_spec (r +:+ "/") "/")) by eauto.
  by rewrite slice_init_append.
Qed.

Lemma item_path_names_the_collection_witness :
  extractEndpointName ("/blog-posts" +:+ "/{" +:+ "postId" +:+ String "}" "/comments")
  = extractEndpointName "/blog-posts".
Proof.
  apply (item_path_names_the_collection "/blog-posts" "postId" "/comments");
    [reflexivity|reflexivity|reflexivity|discriminate|reflexivity|reflexivity].
Defined.

(** ** Tool names *)

(** X3.  The tools of one endpoint never share a name: the six operation
    keys give six different names, whatever the endpoint is called. *)
Theorem tool_names_of_an_endpoint_differ (endpointName : string) :
  NoDup ((λ method, generateToolName method endpointName)
           <$> ["GET"; "GET_COLLECTION"; "POST"; "PUT"; "PATCH"; "DELETE"]).
Proof.
  apply (NoDup_fmap_1 (λ name, match name with String c _ => Some c | _ => None end)).
  vm_compute. compute_done.
Qed.

(** X4.  Tool names are not kept apart across endpoints: for a name [n]
    that does not end in [s], the item and write tools of the endpoints
    [n] and [ns] get the same name. *)
Theorem tool_names_collide_across_endpoints (endpointName method : string) :
  endsWith endpointName "s" = false ->
  method ∈ ["GET"; "POST"; "PUT"; "PATCH"; "DELETE"] ->
  generateToolName method (endpointName +:+ "s") = generateToolName method endpointName.
Proof.
  intros Hs Hmethod. unfold generateToolName. rewrite Hs.
  rewrite (proj2 (endsWith_spec (endpointName +:+ "s") "s")) by eauto.
  rewrite slice_init_append.
  repeat (apply elem_of_cons in Hmethod as [->|Hmethod]; [reflexivity|]).
  by apply elem_of_nil in Hmethod.
Qed.

Lemma tool_names_collide_across_endpoints_witness :
  generateToolName "GET" ("user" +:+ "s") = generateToolName "GET" "user".
Proof.
  apply (tool_names_collide_across_endpoints "user" "GET"); [reflexivity|compute_done].
Defined.

(** ** Tool schemas *)

(** The loop of [generateToolSchema] over the properties of the endpoint
    schema adds no property it skips. *)
Lemma schema_loop_skips (k : string) (skip : string -> bool) (l : list (string * jsval)) :
  skip k = true -> ∀ properties,
  obj_has k properties = false ->
  obj_has k (fold_left (λ properties kv,
                          if skip kv.1 then properties
                          else obj_set kv.1 kv.2 properties) l properties) = false.
Proof.
  intros Hskip. induction l as [|[k' v] l IH]; intros properties Hk; [done|].
  cbn [fold_left fst snd]. destruct (skip k') eqn:E; [by apply IH|].
  apply IH. rewrite obj_has_set, Hk, orb_false_r.
  apply eqb_false. intros ->. congruence.
Qed.

(** X5.  The input schema of a [POST] tool never offers [id],
    [createdAt] or [updatedAt], whatever the schema of the endpoint
    declares. *)
Theorem post_schema_hides_managed_fields (endpoint : Endpoint) (k : string) :
  k ∈ ["id"; "createdAt"; "updatedAt"] ->
  get (get (generateToolSchema "POST" endpoint) "properties") k = JUndefined.
Proof.
  intros Hk. unfold generateToolSchema.
  change (existsb (String.eqb "POST") ["PUT"; "PATCH"; "DELETE"; "GET"]) with false.
  change (existsb (String.eqb "POST") ["POST"; "PUT"; "PATCH"]) with true.
  change (String.eqb "POST" "POST") with true.
  cbn [andb get obj_get]. change (String.eqb "type" "properties") with false.
  change (String.eqb "properties" "properties") with true. cbn iota. cbn [get].
  assert (Hne : k ≠ "data" ∧ k ≠ "queryParams" ∧ k ≠ "saveToContext" ∧ k ≠ "fromContext").
  { repeat (apply elem_of_cons in Hk as [->|Hk]; [done|]). by apply elem_of_nil in Hk. }
  destruct Hne as (H1 & H2 & H3 & H4).
  rewrite !obj_get_set_ne by done. apply obj_get_absent.
  destruct (truthy (ep_schema endpoint) && truthy (get (ep_schema endpoint) "properties"));
    [|done].
  apply (schema_loop_skips k (λ key, existsb (String.eqb key) ["id"; "createdAt"; "updatedAt"]));
    [|done].
  repeat (apply elem_of_cons in Hk as [->|Hk]; [reflexivity|]). by apply elem_of_nil in Hk.
Qed.

Lemma post_schema_hides_managed_fields_witness :
  get (get (generateToolSchema "POST" usersEndpoint) "properties") "id" = JUndefined.
Proof. apply (post_schema_hides_managed_fields usersEndpoint "id"). compute_done. Defined.

(** X6.  Every tool schema declares [queryParams], [saveToContext] and
    [fromContext] with the fixed descriptions of the tool manager, also
    when the schema of the endpoint has properties of these names; the
    tools that send a body declare the raw [data] object in the same
    way. *)
Theorem schema_control_properties (method : string) (endpoint : Endpoint) :
  let properties := get (generateToolSchema method endpoint) "properties" in
  get properties "queryParams"
  = JObj [("type", JStr "object");
          ("description", JStr "Query parameters to include in the request");
          ("additionalProperties", JBool true)]
  ∧ get properties "saveToContext"
    = JObj [("type", JStr "string");
            ("description", JStr "Save the response to context with this key")]
  ∧ get properties "fromContext"
    = JObj [("type", JStr "string");
            ("description", JStr "Load data from context using this key")]
  ∧ (method ∈ ["POST"; "PUT"; "PATCH"] ->
     get properties "data"
     = JObj [("type", JStr "object");
             ("description",
              JStr "Raw data object to send in the request body (alternative to individual fields)");
             ("additionalProperties", JBool true)]).
Proof.
  unfold generateToolSchema. cbn [get obj_get].
  change (String.eqb "type" "properties") with false.
  change (String.eqb "properties" "properties") with true. cbn iota. cbn [get].
  split; [|split; [|split]].
  - rewrite !obj_get_set_ne by done. apply obj_get_set_eq.
  - rewrite obj_get_set_ne by done. apply obj_get_set_eq.
  - apply obj_get_set_eq.
  - intros Hmethod.
    assert (Hbody : existsb (String.eqb method) ["POST"; "PUT"; "PATCH"] = true).
    { repeat (apply elem_of_cons in Hmethod as [->|Hmethod]; [reflexivity|]).
      by apply elem_of_nil in Hmethod. }
    rewrite Hbody. rewrite !obj_get_set_ne by done. apply obj_get_set_eq.
Qed.

Lemma schema_control_properties_witness :
  get (get (generateToolSchema "PUT" usersEndpoint) "properties") "data"
  = JObj [("type", JStr "object");
          ("description",
           JStr "Raw data object to send in the request body (alternative to individual fields)");
          ("additionalProperties", JBool true)].
Proof.
  apply (schema_control_properties "PUT" usersEndpoint). compute_done.
Defined.

(** ** The request body *)





(** ** Endpoint tools that fail, and validation *)

Section Requests.
Context {Net : Type}.
Variable httpRequest : Request -> Net -> outcome Response * Net.
Variable urlSearchParams : jsval -> outcome string.
Variable config : Config.
Variable endpointTools : list (string * Tool).

(** X8.  An endpoint-tool call that raises leaves the context store as
    it was, whatever [saveToContext] asks for, and has handed at most
    one request to the HTTP client: either none, and then the whole
    state is unchanged, or the request whose failure it reports. *)
Theorem failed_call_keeps_the_store toolName args (st : @State Net) error st' :
  handleEndpointTool httpRequest urlSearchParams config endpointTools toolName args st
  = (Throw error, st') ->
  testContext st' = testContext st
  ∧ (st' = st
     ∨ ∃ request e,
         httpRequest request (net st) = (Throw e, net st')
         ∧ sent st' = sent st ++ [request]
         ∧ error = Error (default EmptyString (tool_method <$> map_get toolName endpointTools)
                          +:+ " " +:+ req_url request +:+ " failed: " +:+ message e)).
Proof.
  unfold handleEndpointTool.
  destruct (map_get toolName endpointTools) as [tool|]; [|intros [= _ <-]; auto].
  destruct (map_get (tool_endpoint tool) (cfg_endpoints config)); [|intros [= _ <-]; auto].
  destruct (resolveContextReferences args (testContext st)) as [resolvedArgs|];
    [|intros [= _ <-]; auto].
  destruct (includes _ _ && negb _); [intros [= _ <-]; auto|].
  match goal with |- context [if truthy (obj_get "queryParams" resolvedArgs) then ?a else ?b] =>
    destruct (if truthy (obj_get "queryParams" resolvedArgs) then a else b) as [url|]
  end; [|intros [= _ <-]; auto].
  cbv zeta. destruct (String.eqb _ "POST" && _); [intros [= _ <-]; auto|].
  cbn [net sent testContext].
  match goal with |- context [httpRequest ?r (net st)] =>
    destruct (httpRequest r (net st)) as [[response|err] net'] eqn:Hreq; [done|];
    intros [= <- <-]; split; [done|]; right; exists r, err
  end.
  done.
Qed.

Lemma validateMethod_step (endpoint : Endpoint) (acc : list string * @State Net)
    (method : string) :
  ∃ line net',
    validateMethod httpRequest config endpoint acc method
    = (acc.1 ++ [line],
       {| testContext := testContext acc.2; net := net';
          sent := sent acc.2
                  ++ [ {| req_method := method;
                          req_url := apiBaseUrl config
                                     +:+ replaceParams 0 EmptyString (ep_path endpoint)
                                           "test-id";
                          req_data := JNull |} ] |}).
Proof.
  unfold validateMethod. destruct (httpRequest _ (net acc.2)) as [[response|error] net'];
    eauto.
Qed.

Lemma validate_loop (endpoint : Endpoint) (methods : list string) :
  ∀ acc : list string * @State Net,
  let request method :=
    {| req_method := method;
       req_url := apiBaseUrl config
                  +:+ replaceParams 0 EmptyString (ep_path endpoint) "test-id";
       req_data := JNull |} in
  let result := fold_left (validateMethod httpRequest config endpoint) methods acc in
  sent result.2 = sent acc.2 ++ (request <$> methods)
  ∧ testContext result.2 = testContext acc.2
  ∧ length result.1 = (length acc.1 + length methods)%nat
  ∧ take (length acc.1) result.1 = acc.1.
Proof.
  cbv zeta. induction methods as [|method methods IH]; intros acc.
  - cbn [fold_left fmap list_fmap length]. rewrite app_nil_r, Nat.add_0_r.
    by rewrite firstn_all.
  - cbn [fold_left].
    destruct (IH (validateMethod httpRequest config endpoint acc method))
      as (Hsent & Hctx & Hlen & Htake).
    destruct (validateMethod_step endpoint acc method) as (line & net' & Hstep).
    rewrite Hstep in Hsent, Hctx, Hlen, Htake. cbn [fst snd sent testContext] in *.
    rewrite Hstep, Hsent, Hctx, Hlen, fmap_cons, length_app, <- (assoc_L (++)).
    cbn [length app]. repeat split; [lia|].
    apply (f_equal (take (length acc.1))) in Htake.
    rewrite take_take, take_app_length, length_app in Htake.
    by rewrite Nat.min_l in Htake by lia.
Qed.

(** X9.  Validating an endpoint hands the HTTP client one request for
    each method the endpoint lists, in their order, [POST], [PUT],
    [PATCH] and [DELETE] included, each without a body and to the path of
    the endpoint with [test-id] for every path parameter; it adds one
    line to the report for each and leaves the context store alone,
    whether the requests fail or not. *)
Theorem validation_requests (endpoint : Endpoint) (results : list string)
    (st : @State Net) :
  let request method :=
    {| req_method := method;
       req_url := apiBaseUrl config
                  +:+ replaceParams 0 EmptyString (ep_path endpoint) "test-id";
       req_data := JNull |} in
  let result := validateEndpoint httpRequest config endpoint results st in
  sent result.2 = sent st ++ (request <$> ep_methods endpoint)
  ∧ testContext result.2 = testContext st
  ∧ length result.1 = (length results + length (ep_methods endpoint))%nat
  ∧ take (length results) result.1 = results.
Proof. apply (validate_loop endpoint (ep_methods endpoint) (results, st)). Qed.

End Requests.

Lemma failed_call_keeps_the_store_witness :
  testContext afterFailure.2 = testContext idle
  ∧ (afterFailure.2 = idle
     ∨ ∃ request e,
         answersUnavailable request (net idle) = (Throw e, net afterFailure.2)
         ∧ sent afterFailure.2 = sent idle ++ [request]
         ∧ Error "POST http://localhost:3000/api/tags failed: HTTP 503: Service Unavailable"
           = Error (default EmptyString (tool_method <$> map_get "create_tag" tagTools)
                    +:+ " " +:+ req_url request +:+ " failed: " +:+ message e)).
Proof.
  apply (failed_call_keeps_the_store answersUnavailable noParams tagConfig tagTools
           "create_tag" createTagArgs idle).
  vm_compute. reflexivity.
Defined.

(** ** The calls of a workflow run *)

Section Dispatch.
Context {Net : Type}.
Variable now : Net -> Z.
Variable config : Config.
Variable handleToolCall :
  string -> list (string * jsval) -> @State Net -> outcome string * @State Net.

Lemma runSteps_calls stopOnError steps : ∀ i results calls st,
  ∃ n, (runSteps handleToolCall stopOnError i steps results calls st).1.2
       = calls ++ take n (call_of <$> steps)
       ∧ (truthy stopOnError = false -> n = length steps).
Proof.
  induction steps as [|step steps' IH]; intros i results calls st.
  - exists 0%nat. by rewrite app_nil_r.
  - cbn [runSteps]. fold (call_of step).
    destruct (handleToolCall _ _ st) as [[text|error] st'].
    + match goal with |- context [runSteps _ _ ?i _ ?r ?c ?s] =>
        destruct (IH i r c s) as (n & -> & Hn) end.
      exists (S n). rewrite <- (assoc_L (++)). split; [done|].
      intros H. by rewrite (Hn H).
    + destruct (truthy stopOnError).
      * exists 1%nat. split; [|done]. cbn [fst snd]. rewrite fmap_cons.
        cbn [take]. by rewrite take_0.
      * match goal with |- context [runSteps _ _ ?i _ ?r ?c ?s] =>
          destruct (IH i r c s) as (n & -> & Hn) end.
        exists (S n). rewrite <- (assoc_L (++)). split; [done|].
        intros H. by rewrite (Hn H).
Qed.

(** X10.  A run of a workflow the configuration holds never raises: it
    returns its report, and the tool calls it has dispatched are the
    first steps of the workflow, in their order, each with the arguments
    of the step; all the steps when [stopOnError] is absent or falsy,
    whatever fails on the way.  For a name that is neither a workflow of
    the configuration nor the name of a member of [Object.prototype] the
    run raises, with no call dispatched and the state left as it was. *)
Theorem workflow_run_dispatches_steps_in_order (args : list (string * jsval))
    (st : @State Net) :
  match map_get (toString (obj_get "workflow" args)) (cfg_workflows config) with
  | Some workflow =>
      ∃ text n st',
        handleRunWorkflow now config handleToolCall args st
        = (Ret text, take n (call_of <$> steps workflow), st')
        ∧ (truthy (obj_get "stopOnError" args) = false -> n = length (steps workflow))
  | None =>
      toString (obj_get "workflow" args) ∉ object_prototype_names ->
      handleRunWorkflow now config handleToolCall args st
      = (Throw (Error ("Unknown workflow: " +:+ toString (obj_get "workflow" args))), [], st)
  end.
Proof.
  unfold handleRunWorkflow.
  destruct (map_get _ (cfg_workflows config)) as [workflow|]; [|done].
  cbv zeta.
  match goal with |- context [runSteps _ ?so ?i ?s ?r ?c st] =>
    destruct (runSteps_calls so s i r c st) as (n & Hcalls & Hn);
    destruct (runSteps handleToolCall so i s r c st) as [[results calls] st']
  end.
  cbn [fst snd app] in Hcalls. subst calls. eauto.
Qed.

End Dispatch.

(** ** Replacing a marker *)





Lemma prefix_refl (s : string) : String.prefix s s = true.
Proof.
  induction s as [|c s IH]; [done|]. cbn [String.prefix].
  by destruct (ascii_dec c c).
Qed.

Lemma drop_whole (s : string) : drop (String.length s) s = EmptyString.
Proof. induction s as [|c s IH]; [done|apply IH]. Qed.

Lemma append_empty (s : string) : s +:+ EmptyString = s.
Proof. induction s as [|c s IH]; [done|]. by rewrite append_cons, IH. Qed.

Lemma getSubstitution_plain (matched before after repl : string) :
  includes repl "$" = false -> getSubstitution matched before after repl = repl.
Proof.
  induction repl as [|c repl IH]; [done|].
  rewrite includes_char. intros [Hc H]%orb_false_iff.
  cbn [getSubstitution]. by rewrite Hc, IH.
Qed.

(** X12.  A field that is exactly the marker becomes the value, for a
    value without a dollar sign (which [String.prototype.replace] would
    expand). *)
Theorem marker_field_becomes_the_value (marker value : string) :
  includes value "$" = false ->
  replaceDynamicMarker (JStr marker) marker value = JStr value.
Proof.
  intros Hvalue. cbn [replaceDynamicMarker]. f_equal. unfold replace.
  assert (H : indexOf marker marker = Some 0%nat).
  { destruct marker; cbn [indexOf]; unfold startsWith; by rewrite prefix_refl. }
  rewrite H. cbn [Nat.add]. rewrite drop_whole, getSubstitution_plain by done.
  destruct marker; cbn [substring]; by rewrite append_empty.
Qed.

Lemma marker_field_becomes_the_value_witness :
  replaceDynamicMarker (JStr "{{DYNAMIC_USERS_ID}}") "{{DYNAMIC_USERS_ID}}" "u1"
  = JStr "u1".
Proof. apply (marker_field_becomes_the_value "{{DYNAMIC_USERS_ID}}" "u1"). reflexivity. Defined.

Lemma replaceInAll_loop (flag m v k : string) (l : list (string * jsval)) : ∀ r,
  NoDup l.*1 ->
  obj_get k (fold_left (λ r kv,
                          if negb (String.eqb kv.1 flag)
                          then obj_set kv.1 (replaceDynamicMarker kv.2 m v) r else r) l r)
  = if obj_has k l && negb (String.eqb k flag)
    then replaceDynamicMarker (obj_get k l) m v else obj_get k r.
Proof.
  induction l as [|[k' x] l IH]; intros r Hnd; [done|].
  rewrite fmap_cons in Hnd. apply NoDup_cons in Hnd as [Hk' Hnd].
  cbn [fold_left fst snd]. rewrite IH by done. cbn [obj_get obj_has].
  destruct (String.eqb k' k) eqn:E.
  - apply eqb_true in E. subst k'.
    assert (Hl : obj_has k l = false).
    { destruct (obj_has k l) eqn:Hl; [|done]. by apply obj_has_elem_of in Hl. }
    rewrite Hl. cbn [andb orb].
    destruct (negb (String.eqb k flag)); [|done]. apply obj_get_set_eq.
  - apply eqb_false in E. cbn [orb].
    destruct (obj_has k l && negb (String.eqb k flag)); [done|].
    destruct (negb (String.eqb k' flag)); [|done]. by apply obj_get_set_ne.
Qed.

(** X13.  The loop that applies a replacement to the resolved arguments
    rewrites every argument but the flag it is told to skip, each to the
    replacement of its own value, and adds none. *)
Theorem replacement_reaches_every_argument (flag marker value k : string)
    (resolved : list (string * jsval)) :
  NoDup resolved.*1 ->
  obj_get k (replaceInAll flag marker value resolved)
  = if String.eqb k flag then obj_get k resolved
    else replaceDynamicMarker (obj_get k resolved) marker value.
Proof.
  intros Hnd. unfold replaceInAll. rewrite replaceInAll_loop by done.
  destruct (obj_has k resolved) eqn:Hk; cbn [andb].
  - by destruct (String.eqb k flag).
  - rewrite obj_get_absent by done. by destruct (String.eqb k flag).
Qed.

Lemma replacement_reaches_every_argument_witness :
  obj_get "data" (replaceInAll "_dynamicForeignKeys" "{{DYNAMIC_USERS_ID}}" "u1" twiceArgs)
  = if String.eqb "data" "_dynamicForeignKeys" then obj_get "data" twiceArgs
    else replaceDynamicMarker (obj_get "data" twiceArgs) "{{DYNAMIC_USERS_ID}}" "u1".
Proof.
  apply (replacement_reaches_every_argument "_dynamicForeignKeys" "{{DYNAMIC_USERS_ID}}"
           "u1" "data" twiceArgs).
  compute_done.
Defined.

(** ** The fields of the sample data *)

Lemma truthy_obj_has (k : string) (o : list (string * jsval)) :
  truthy (obj_get k o) = true -> obj_has k o = true.
Proof.
  intros H. destruct (obj_has k o) eqn:E; [done|].
  by rewrite obj_get_absent in H.
Qed.

(** The loop over the properties adds the ones that are not read-only. *)
Lemma sample_properties_loop (gen : jsval -> jsval -> outcome jsval) (k : string)
    (l : list (string * jsval)) : ∀ s s',
  NoDup l.*1 ->
  foldM (λ sampleData kv,
           if obj_has kv.1 sampleData then Ret sampleData
           else do readOnly <- getp kv.2 "readOnly";
                if truthy readOnly then Ret sampleData
                else do v <- gen (JStr kv.1) kv.2;
                     Ret (obj_set kv.1 v sampleData)) l s = Ret s' ->
  obj_has k s'
  = obj_has k s || (obj_has k l && negb (truthy (get (obj_get k l) "readOnly"))).
Proof.
  induction l as [|[k' x] l IH]; intros s s' Hnd.
  - intros [= <-]. by rewrite orb_false_r.
  - rewrite fmap_cons in Hnd. apply NoDup_cons in Hnd as [Hk' Hnd].
    cbn [foldM fst snd].
    assert (Hl : String.eqb k' k = true -> obj_has k l = false).
    { intros ->%eqb_true. destruct (obj_has k l) eqn:Hl; [|done].
      by apply obj_has_elem_of in Hl. }
    destruct (obj_has k' s) eqn:Hs; cbn [bind].
    + intros H. rewrite (IH _ _ Hnd H). cbn [obj_has obj_get].
      destruct (String.eqb k' k) eqn:E; [|done].
      rewrite (Hl eq_refl). apply eqb_true in E. subst k'. by rewrite Hs.
    + unfold getp. destruct (nullish x); [done|]. cbn [bind].
      destruct (truthy (get x "readOnly")) eqn:Hro.
      * intros H. rewrite (IH _ _ Hnd H). cbn [obj_has obj_get].
        destruct (String.eqb k' k) eqn:E; [|done].
        rewrite (Hl eq_refl), Hro. apply eqb_true in E. subst k'.
        by rewrite Hs.
      * destruct (gen (JStr k') x) as [v|]; [|done]. cbn [bind].
        intros H. rewrite (IH _ _ Hnd H), obj_has_set. cbn [obj_has obj_get].
        destruct (String.eqb k' k) eqn:E; [|done].
        rewrite (Hl eq_refl), Hro. by rewrite orb_true_r.
Qed.

(** The loop over the required names adds properties that are not
    read-only. *)
Lemma sample_required_loop (gen : jsval -> jsval -> outcome jsval)
    (props : list (string * jsval)) (names : list jsval) (s0 : list (string * jsval)) :
  foldM (λ sampleData propName,
           let prop := get (JObj props) (toString propName) in
           if truthy prop then
             if truthy (get prop "readOnly") then Ret sampleData
             else do v <- gen propName prop;
                  Ret (obj_set (toString propName) v sampleData)
           else Ret sampleData) names [] = Ret s0 ->
  ∀ k, obj_has k s0 = true ->
       obj_has k props = true ∧ truthy (get (obj_get k props) "readOnly") = false.
Proof.
  apply (foldM_invariant
           (λ s, ∀ k, obj_has k s = true ->
                      obj_has k props = true
                      ∧ truthy (get (obj_get k props) "readOnly") = false)); [|done].
  intros s a s' Hs. cbn [get].
  destruct (truthy (obj_get (toString a) props)) eqn:Hprop; [|by intros [= <-]].
  destruct (truthy (get (obj_get (toString a) props) "readOnly")) eqn:Hro;
    [by intros [= <-]|].
  destruct (gen a _) as [v|]; [|done]. cbn [bind].
  intros [= <-] k. rewrite obj_has_set. intros [E|Hk]%orb_true_iff; [|by apply Hs].
  apply eqb_true in E. subst k. split; [by apply truthy_obj_has|done].
Qed.

(** X14.  The sample data of an object schema has a field for each
    property of the schema that is not read-only, and no other field:
    properties that are not required are filled in as well, and a name
    listed as required without being a property adds nothing.  The
    schema is one whose [required] is absent or a list of names, and
    none of these names and of the names of the properties is the name
    of a member of [Object.prototype]. *)
Theorem sample_data_fields (fuel : nat) (endpoints : list (string * Endpoint))
    (schema : jsval) (endpointName : string) (props sampleData : list (string * jsval))
    (k : string) :
  is_str (get schema "type") "object" = true ->
  get schema "properties" = JObj props ->
  NoDup props.*1 ->
  Forall (λ name, name ∉ object_prototype_names) props.*1 ->
  (get schema "required" = JUndefined
   ∨ ∃ names, get schema "required" = JArr (JStr <$> names)
              ∧ Forall (λ name, name ∉ object_prototype_names) names) ->
  generateSampleData fuel endpoints schema endpointName = Ret sampleData ->
  obj_has k sampleData
  = obj_has k props && negb (truthy (get (obj_get k props) "readOnly")).
Proof.
  intros Htype Hprops Hnd _ _. unfold generateSampleData, generateSampleData_body.
  rewrite Htype, Hprops.
  assert (Hschema : truthy schema = true).
  { destruct schema as [ | |b|n|s|xs|kvs]; try done. destruct s; [done|reflexivity]. }
  rewrite Hschema. cbn [negb orb truthy].
  destruct (iterate _) as [names|]; [|done]. cbn [bind].
  match goal with |- context [foldM ?f names []] =>
    destruct (foldM f names []) as [s0|] eqn:E0; [|done]
  end.
  pose proof (sample_required_loop
                (λ n s, generateSampleValueForProp fuel endpoints n s endpointName)
                _ _ _ E0) as Hinv.
  cbn [bind entries]. intros H.
  rewrite (sample_properties_loop
             (λ n s, generateSampleValueForProp fuel endpoints n s endpointName)
             k props _ _ Hnd H).
  destruct (obj_has k s0) eqn:Hk; [|done].
  destruct (Hinv k Hk) as [-> ->]. done.
Qed.

Lemma sample_data_fields_witness :
  obj_has "id" (match generateSampleData 4 [] accountSchema "accounts" with
                | Ret sampleData => sampleData
                | Throw _ => []
                end)
  = obj_has "id" accountProperties
    && negb (truthy (get (obj_get "id" accountProperties) "readOnly")).
Proof.
  apply (sample_data_fields 4 [] accountSchema "accounts" accountProperties).
  - reflexivity.
  - reflexivity.
  - compute_done.
  - compute_done.
  - right. exists ["name"; "balance"]. split; [reflexivity|compute_done].
  - vm_compute. reflexivity.
Defined.

(** ** Schemas that refer to themselves *)

Lemma mapM_Throw {A B} (f : A -> outcome B) (l : list A) (a : A) :
  a ∈ l -> (∃ e, f a = Throw e) -> ∃ e, mapM f l = Throw e.
Proof.
  intros Hin [e He]. induction l as [|b l IH]; [by apply elem_of_nil in Hin|].
  cbn [mapM]. destruct (f b) as [y|e'] eqn:Hb; [|by eexists]. cbn [bind].
  apply elem_of_cons in Hin as [->|Hin]; [congruence|].
  destruct (IH Hin) as [e'' ->]. by eexists.
Qed.

(** X15.  A schema one of whose properties refers back to the schema
    itself is never resolved: however deep the engine lets the recursion
    go, [resolveSchemaReference] raises on it. *)
Theorem recursive_schema_never_resolves (spec schema child : jsval)
    (k ref : string) (fuel : nat) :
  truthy (get schema "$ref") = false ->
  is_str (get schema "type") "object" = true ->
  (k, child) ∈ entries (get schema "properties") ->
  get child "$ref" = JStr ref ->
  ref ≠ EmptyString ->
  walk spec (refPath ref) = Some schema ->
  ∃ e, resolveSchemaReference fuel spec schema = Throw e.
Proof.
  intros Href Htype Hin Hchild Hne Hwalk.
  assert (Htruthy : truthy schema = true).
  { destruct schema as [ | |[]|n|s| |]; try done; destruct s; done. }
  assert (Hprops : truthy (get schema "properties") = true).
  { destruct (get schema "properties") as [ | |[]|n|s| |]; try done;
      try (by apply elem_of_nil in Hin).
    destruct s; [by apply elem_of_nil in Hin|done]. }
  assert (Hc : truthy child = true).
  { destruct child as [ | |[]|n|s| |]; try done. destruct s; [done|reflexivity]. }
  assert (Hcref : truthy (get child "$ref") = true).
  { rewrite Hchild. cbn [truthy]. by apply eqb_false in Hne as ->. }
  enough (H : (∃ e, resolveSchemaReference fuel spec schema = Throw e)
              ∧ ∃ e, resolveSchemaReference fuel spec child = Throw e) by apply H.
  induction fuel as [|fuel [IHs IHc]]; [split; by eexists|]. split.
  - rewrite resolveSchemaReference_S, Htruthy, Href, Htype, Hprops. cbn [negb andb].
    match goal with |- context [mapM ?f ?l] =>
      destruct (mapM_Throw f l (k, child) Hin) as [e ->] end; [|by eexists].
    cbn [fst snd]. destruct IHc as [e ->]. by eexists.
  - rewrite resolveSchemaReference_S, Hc, Hcref, Hchild, Hwalk. cbn [negb]. exact IHs.
Qed.

Lemma recursive_schema_never_resolves_witness :
  ∃ e, resolveSchemaReference 1000 treeSpec treeSchema = Throw e.
Proof.
  apply (recursive_schema_never_resolves treeSpec treeSchema
           (JObj [("$ref", JStr "#/components/schemas/Tree")]) "parent"
           "#/components/schemas/Tree" 1000);
    [reflexivity|reflexivity|right; left|reflexivity|discriminate|reflexivity].
Defined.

(** ** Dependencies, once each *)

Lemma first_by_subseteq {A} (key : A -> string) (l : list A) (x : A) :
  x ∈ first_by key l -> x ∈ l.
Proof.
  induction l as [|a l IH]; [done|]. cbn [first_by].
  intros [->|[_ H]%list_elem_of_filter]%elem_of_cons; [left|right; by apply IH].
Qed.

Lemma first_by_NoDup {A} (key : A -> string) (l : list A) :
  NoDup (key <$> first_by key l).
Proof.
  induction l as [|a l IH]; [apply NoDup_nil_2|].
  cbn [first_by]. rewrite fmap_cons. apply NoDup_cons. split.
  - intros (y & Hy & [Hne _]%list_elem_of_filter)%list_elem_of_fmap. by apply Hne.
  - apply (sublist_NoDup _ (key <$> first_by key l)); [exact IH|].
    apply fmap_sublist, sublist_filter.
Qed.

Lemma first_by_covers {A} (key : A -> string) (l : list A) (x : A) :
  x ∈ l -> key x ∈ key <$> first_by key l.
Proof.
  induction l as [|a l IH]; [by intros ?%elem_of_nil|].
  cbn [first_by]. rewrite fmap_cons.
  destruct (decide (key x = key a)) as [->|Hne]; [left|].
  intros [->|Hin]%elem_of_cons; [done|]. right.
  apply IH in Hin as (y & Hy & Hin)%list_elem_of_fmap.
  apply list_elem_of_fmap. exists y. split; [done|].
  apply list_elem_of_filter. split; [congruence|done].
Qed.

(** X16.  However often the sample data of an endpoint points at the
    same endpoint, the workflow fetches it once: the fetch steps have
    different names, and every dependency has its step, [list_<target>]
    saving under [existing_<target>].  In the same way the
    [_dynamicForeignKeys] of the create step hold each marker once, and
    every marker found is among them. *)
Theorem each_dependency_once (foreignKeyDeps : list Dependency) :
  NoDup (action <$> dependencySteps ∅ foreignKeyDeps)
  ∧ (∀ dep, dep ∈ foreignKeyDeps ->
       ∃ step, step ∈ dependencySteps ∅ foreignKeyDeps
               ∧ action step = "list_" +:+ targetEndpoint dep
               ∧ args step
                 = Some [("saveToContext", JStr ("existing_" +:+ targetEndpoint dep))])
  ∧ NoDup (marker <$> uniqueDeps foreignKeyDeps)
  ∧ (∀ dep, dep ∈ foreignKeyDeps -> marker dep ∈ marker <$> uniqueDeps foreignKeyDeps)
  ∧ (∀ dep, dep ∈ uniqueDeps foreignKeyDeps -> dep ∈ foreignKeyDeps).
Proof.
  rewrite dependencySteps_first_by, uniqueDeps_first_by. repeat split.
  - rewrite <- list_fmap_compose.
    change (action ∘ fetchStep) with (String.append "list_" ∘ targetEndpoint).
    rewrite list_fmap_compose. apply NoDup_fmap_2; [|apply first_by_NoDup].
    intros a b H. by injection H.
  - intros dep Hdep.
    apply (first_by_covers targetEndpoint) in Hdep as (d & Hd & Hin)%list_elem_of_fmap.
    exists (fetchStep d). split; [apply list_elem_of_fmap; eauto|].
    unfold fetchStep. cbn [action args]. by rewrite Hd.
  - apply first_by_NoDup.
  - intros dep. apply first_by_covers.
  - intros dep. apply first_by_subseteq.
Qed.

(** ** The quick test for markers *)

Lemma marker_matches_nil (s : string) :
  marker_test s = false -> marker_matches 0 s = [].
Proof.
  induction s as [|c s IH]; [done|]. cbn [marker_test marker_matches].
  intros [H Hs]%orb_false_iff. apply bool_decide_eq_false in H.
  destruct (marker_at (String c s)) as [[m g]|]; [|by apply IH].
  exfalso. apply H. eauto.
Qed.

(** X17.  [needsForeignKeyResolution] errs on the safe side: sample data
    it finds no marker in has no foreign-key dependencies. *)
Theorem no_marker_no_dependencies (sampleData : list (string * jsval)) :
  needsForeignKeyResolution (JObj sampleData) = false ->
  analyzeForeignKeyDependencies sampleData = [].
Proof.
  unfold needsForeignKeyResolution, analyzeForeignKeyDependencies.
  cbn [stringify default]. intros H. by rewrite (marker_matches_nil _ H).
Qed.

Lemma no_marker_no_dependencies_witness :
  analyzeForeignKeyDependencies storedUser = [].
Proof. apply (no_marker_no_dependencies storedUser). vm_compute. reflexivity. Defined.

(** ** The registry of endpoints *)

Section MapSet.
Context {V : Type}.
Implicit Types (m : list (string * V)) (k : string) (v : V).

Lemma map_set_keys k v m :
  (map_set k v m).*1 = if map_has k m then m.*1 else m.*1 ++ [k].
Proof.
  unfold map_has. induction m as [|[k' v'] m IH]; [done|]. cbn [map_set map_get].
  destruct (String.eqb k' k) eqn:E.
  - by rewrite bool_decide_eq_true_2 by eauto.
  - rewrite !fmap_cons, IH. by destruct (bool_decide _).
Qed.

Lemma map_has_elem_of k m : map_has k m = true <-> k ∈ m.*1.
Proof.
  unfold map_has. rewrite bool_decide_eq_true.
  induction m as [|[k' v'] m IH]; cbn [map_get].
  - split; [by intros [? ?]|by intros ?%elem_of_nil].
  - rewrite fmap_cons, elem_of_cons. destruct (String.eqb k' k) eqn:E.
    + apply eqb_true in E. subst k'. split; [by left|eauto].
    + apply eqb_false in E. rewrite IH. split; [by right|]. by intros [->|?].
Qed.

Lemma map_set_NoDup k v m : NoDup m.*1 -> NoDup (map_set k v m).*1.
Proof.
  intros Hnd. rewrite map_set_keys. destruct (map_has k m) eqn:E; [done|].
  apply NoDup_app. split; [done|]. split; [|apply NoDup_singleton].
  intros x Hx ->%list_elem_of_singleton. apply map_has_elem_of in Hx. congruence.
Qed.

End MapSet.

Lemma is_verb_elem_of (method : string) : is_verb method = true -> method ∈ verbs.
Proof.
  unfold is_verb, verbs. cbn [existsb]. rewrite !orb_true_iff, !eqb_true.
  intros [->|[->|[->|[->|[->|?]]]]]; try compute_done. done.
Qed.

Lemma operationKey_cases (method t : string) :
  is_verb method = true ->
  operationKey method t ∈ operationKeys
  ∧ (operationKey method t = "GET_COLLECTION" -> endsWith t "}" = false)
  ∧ (operationKey method t = "GET" -> endsWith t "}" = true).
Proof.
  intros H%is_verb_elem_of. unfold operationKey.
  repeat (apply elem_of_cons in H as [->|H];
          [destruct (endsWith t "}"); (split; [compute_done|by split])|]).
  by apply elem_of_nil in H.
Qed.

Lemma addOperations_loop (t : string) (l : list (string * jsval)) :
  ∀ ops ops' : gmap string Operation,
  foldM (λ operations entry,
           if negb (is_verb entry.1) then Ret operations
           else do operation <- operationEntry entry.1 t entry.2;
                Ret (<[operationKey entry.1 t := operation]> operations)) l ops
  = Ret ops' ->
  (∀ key op, ops' !! key = Some op ->
     ops !! key = Some op
     ∨ (op_path op = t ∧ isCollection op = negb (endsWith t "}")
        ∧ ∃ method, is_verb method = true ∧ key = operationKey method t))
  ∧ (∀ key, is_Some (ops !! key) -> is_Some (ops' !! key))
  ∧ (∀ method operation, (method, operation) ∈ l -> is_verb method = true ->
       is_Some (ops' !! operationKey method t)).
Proof.
  induction l as [|[m x] l IH]; intros ops ops'.
  - intros [= <-]. split; [auto|]. split; [auto|]. by intros ?? ?%elem_of_nil.
  - cbn [foldM fst snd]. destruct (is_verb m) eqn:Hm; cbn [negb bind].
    + unfold operationEntry at 1, getp. destruct (nullish x); [done|]. cbn [bind].
      intros (Hnew & Hkeep & Hcover)%IH. split; [|split].
      * intros key op [Hop|Hop]%Hnew; [|by right].
        destruct (decide (operationKey m t = key)) as [<-|Hne].
        -- rewrite lookup_insert_eq in Hop. injection Hop as <-. right.
           split; [done|]. split; [done|]. by exists m.
        -- rewrite lookup_insert_ne in Hop by done. by left.
      * intros key Hkey. apply Hkeep.
        destruct (decide (operationKey m t = key)) as [<-|Hne].
        -- rewrite lookup_insert_eq. eauto.
        -- by rewrite lookup_insert_ne.
      * intros m' x' [[= -> ->]|Hin]%elem_of_cons Hm'; [|by eapply Hcover].
        apply Hkeep. rewrite lookup_insert_eq. eauto.
    + intros (Hnew & Hkeep & Hcover)%IH. split; [done|]. split; [done|].
      intros m' x' [[= -> ->]|Hin]%elem_of_cons Hm'; [congruence|by eapply Hcover].
Qed.

(** What one turn of the loop of [generateEndpoints] stores. *)
Lemma endpointsTurn_stores fuel spec eps t item eps' :
  endpointsTurn fuel spec eps (t, item) = Ret eps' ->
  let n := extractEndpointName t in
  let old :=
    default {| ep_name := n; ep_path := t; ep_methods := [];
               operations := ∅; ep_schema := JNull |} (map_get n eps) in
  ∃ ep', eps' = map_set n ep' eps
         ∧ ep_name ep' = ep_name old
         ∧ ep_path ep'
           = (if negb (includes t "{") || includes (ep_path old) "{"
              then t else ep_path old)
         ∧ addOperations t item (operations old) = Ret (operations ep')
         ∧ ep_methods ep'
           = unique [] (ep_methods old
                        ++ filter (λ m, existsb (String.eqb m)
                                          ["GET"; "POST"; "PUT"; "PATCH"; "DELETE"] = true)
                                  (toUpperCase <$> (entries item).*1)).
Proof.
  unfold endpointsTurn. cbn [fst snd]. cbv zeta.
  destruct (nullish item); [done|].
  destruct (addOperations t item _) as [ops|] eqn:Hops; [|done]. cbn [bind].
  match goal with |- context [bind ?m _] => destruct m as [schema|]; [|done] end.
  cbn [bind]. intros [= <-]. eexists. split; [reflexivity|]. done.
Qed.

Lemma endpoint_ok_fresh (t : string) :
  endpoint_ok (extractEndpointName t)
    {| ep_name := extractEndpointName t; ep_path := t; ep_methods := [];
       operations := ∅; ep_schema := JNull |}.
Proof.
  split; [done|]. split; [done|]. intros key op. cbn [operations].
  by rewrite lookup_empty.
Qed.

Lemma endpoints_loop fuel spec (l : list (string * jsval)) : ∀ eps eps',
  foldM (endpointsTurn fuel spec) l eps = Ret eps' ->
  (NoDup eps.*1 -> NoDup eps'.*1)
  ∧ ((∀ n ep, map_get n eps = Some ep -> endpoint_ok n ep) ->
     ∀ n ep, map_get n eps' = Some ep -> endpoint_ok n ep)
  ∧ keeps eps eps'
  ∧ (∀ t item, (t, item) ∈ l ->
       ∃ ep, map_get (extractEndpointName t) eps' = Some ep
             ∧ (∀ method operation, (method, operation) ∈ entries item ->
                  is_verb method = true ->
                  is_Some (operations ep !! operationKey method t))
             ∧ (includes t "{" = false -> includes (ep_path ep) "{" = false)).
Proof.
  induction l as [|[t item] l IH]; intros eps eps'.
  - intros [= <-]. split; [done|]. split; [done|]. split.
    + intros n ep H. exists ep. auto.
    + by intros ?? ?%elem_of_nil.
  - cbn [foldM]. destruct (endpointsTurn fuel spec eps (t, item)) as [eps1|] eqn:Hturn;
      [|done].
    cbn [bind]. intros (Hnd & Hok & Hkeeps & Hcover)%IH. clear IH.
    apply endpointsTurn_stores in Hturn as (ep1 & -> & Hname & Hpath & Hops & _).
    cbv zeta in Hname, Hpath, Hops.
    set (n := extractEndpointName t) in *.
    set (old := default _ (map_get n eps)) in *.
    unfold addOperations in Hops.
    apply addOperations_loop in Hops as (Hnew & Hkeep & Hverbs).
    assert (Hstep : keeps eps (map_set n ep1 eps)).
    { intros n' ep Hget. destruct (decide (n = n')) as [<-|Hne].
      - exists ep1. rewrite map_get_set_eq. split; [done|].
        subst old. rewrite Hget in *. cbn [from_option id] in *. split; [apply Hkeep|].
        intros H. rewrite Hpath, H, orb_false_r.
        by destruct (includes t "{") eqn:Ht.
      - exists ep. by rewrite map_get_set_ne. }
    split; [|split; [|split]].
    + intros H. by apply Hnd, map_set_NoDup.
    + intros H. apply Hok. intros n' ep.
      destruct (decide (n = n')) as [<-|Hne]; [|rewrite map_get_set_ne by done; apply H].
      rewrite map_get_set_eq. intros [= <-].
      assert (Hold : endpoint_ok n old).
      { subst old. destruct (map_get n eps) as [ep|] eqn:Hget; [by apply H|].
        apply endpoint_ok_fresh. }
      destruct Hold as (Hn & Hp & Ho). split; [congruence|]. split.
      * rewrite Hpath. by destruct (_ || _).
      * intros key op [Hop|(Hop & Hcoll & m & Hm & ->)]%Hnew; [by apply Ho|].
        rewrite Hop. eauto 10.
    + intros n' ep Hget. destruct (Hstep n' ep Hget) as (ep' & Hget' & Hk1 & Hp1).
      destruct (Hkeeps n' ep' Hget') as (ep'' & Hget'' & Hk2 & Hp2).
      exists ep''. split; [done|]. split; auto.
    + intros t' item' [[= -> ->]|Hin]%elem_of_cons; [|by apply Hcover].
      destruct (Hkeeps n ep1 (map_get_set_eq _ _ _)) as (ep' & Hget' & Hk & Hp).
      exists ep'. split; [done|]. split.
      * intros m x Hin Hm. apply Hk. by eapply Hverbs.
      * intros Ht. apply Hp. by rewrite Hpath, Ht.
Qed.

Lemma generateEndpoints_loop fuel p eps :
  generateEndpoints fuel p = Ret eps ->
  foldM (endpointsTurn fuel (spec p)) (entries (get (spec p) "paths")) (endpoints p)
  = Ret eps.
Proof.
  unfold generateEndpoints, getp. destruct (nullish (spec p)); [done|]. cbn [bind].
  by destruct (negb (truthy _)).
Qed.

(** X18.  The registry [generateEndpoints] builds in a fresh parser is
    well formed.  No two endpoints share a name, and each one carries the
    name it is stored under; its path and the path of each of its
    operations are templates that [extractEndpointName] maps to that
    name; its operations are stored under the six operation keys only,
    [GET_COLLECTION] for a path that does not end in a path parameter
    and [GET] for one that does. *)
Theorem registry_is_well_formed (fuel : nat) (p : Parser)
    (eps : list (string * Endpoint)) :
  endpoints p = [] ->
  generateEndpoints fuel p = Ret eps ->
  NoDup eps.*1
  ∧ ∀ n ep, (n, ep) ∈ eps ->
      ep_name ep = n
      ∧ extractEndpointName (ep_path ep) = n
      ∧ ∀ key op, operations ep !! key = Some op ->
          key ∈ operationKeys
          ∧ extractEndpointName (op_path op) = n
          ∧ isCollection op = negb (endsWith (op_path op) "}")
          ∧ (key = "GET_COLLECTION" -> endsWith (op_path op) "}" = false)
          ∧ (key = "GET" -> endsWith (op_path op) "}" = true).
Proof.
  intros Hfresh Hgen%generateEndpoints_loop. rewrite Hfresh in Hgen.
  apply endpoints_loop in Hgen as (Hnd & Hok & _ & _).
  specialize (Hnd (NoDup_nil_2)). split; [done|].
  intros n ep Hin%(map_get_NoDup _ _ _ Hnd).
  destruct (Hok ltac:(done) n ep Hin) as (Hn & Hp & Ho).
  split; [done|]. split; [done|].
  intros key op (Hname & Hcoll & m & Hm & ->)%Ho.
  destruct (operationKey_cases m (op_path op) Hm) as (H1 & H2 & H3). auto.
Qed.

Lemma registry_is_well_formed_witness :
  NoDup notesEndpoints.*1
  ∧ ∀ n ep, (n, ep) ∈ notesEndpoints ->
      ep_name ep = n
      ∧ extractEndpointName (ep_path ep) = n
      ∧ ∀ key op, operations ep !! key = Some op ->
          key ∈ operationKeys
          ∧ extractEndpointName (op_path op) = n
          ∧ isCollection op = negb (endsWith (op_path op) "}")
          ∧ (key = "GET_COLLECTION" -> endsWith (op_path op) "}" = false)
          ∧ (key = "GET" -> endsWith (op_path op) "}" = true).
Proof.
  apply (registry_is_well_formed 8
           {| spec := notesDocument; endpoints := []; workflows := [] |});
    [reflexivity|vm_compute; reflexivity].
Defined.

(** X19.  Every path of the document reaches the registry.  After
    [generateEndpoints] the endpoint named after a path template holds an
    operation for each of the five verbs the path item has, under the
    key of the verb on that path; and the endpoint of a template without
    path parameters has a path without path parameters, whichever of its
    templates the document lists first. *)
Theorem paths_reach_the_registry (fuel : nat) (p : Parser)
    (eps : list (string * Endpoint)) (t : string) (item : jsval) :
  generateEndpoints fuel p = Ret eps ->
  (t, item) ∈ entries (get (spec p) "paths") ->
  ∃ ep, map_get (extractEndpointName t) eps = Some ep
        ∧ (∀ method operation, (method, operation) ∈ entries item ->
             method ∈ verbs ->
             is_Some (operations ep !! operationKey method t))
        ∧ (includes t "{" = false -> includes (ep_path ep) "{" = false).
Proof.
  intros Hgen%generateEndpoints_loop Hin.
  apply endpoints_loop in Hgen as (_ & _ & _ & Hcover).
  destruct (Hcover t item Hin) as (ep & Hget & Hops & Hpath).
  exists ep. split; [done|]. split; [|done].
  intros m x Hx Hm. apply (Hops m x Hx).
  unfold verbs in Hm. repeat (apply elem_of_cons in Hm as [->|Hm]; [reflexivity|]).
  by apply elem_of_nil in Hm.
Qed.

Lemma paths_reach_the_registry_witness :
  ∃ ep, map_get (extractEndpointName "/notes") notesEndpoints = Some ep
        ∧ (∀ method operation,
             (method, operation) ∈ entries (JObj [("get", JObj []); ("post", JObj [])]) ->
             method ∈ verbs ->
             is_Some (operations ep !! operationKey method "/notes"))
        ∧ (includes "/notes" "{" = false -> includes (ep_path ep) "{" = false).
Proof.
  apply (paths_reach_the_registry 8
           {| spec := notesDocument; endpoints := []; workflows := [] |});
    [vm_compute; reflexivity|right; left].
Defined.

(** X20.  A document without paths is refused: [generateEndpoints] raises
    its own error when [paths] is absent or empty of meaning (falsy), and
    [parseFromFile] reports it under the message of the parser. *)
Theorem document_without_paths (fuel : nat) (p : Parser) (document : jsval) :
  nullish document = false ->
  truthy (get document "paths") = false ->
  generateEndpoints fuel {| spec := document; endpoints := endpoints p;
                            workflows := workflows p |}
  = Throw (Error "No paths found in OpenAPI specification")
  ∧ parseFromFile fuel p document
    = Throw (Error "Failed to parse OpenAPI spec: No paths found in OpenAPI specification").
Proof.
  intros Hdoc Hpaths. unfold parseFromFile, generateEndpoints, getp. cbn [spec].
  rewrite Hdoc. cbn [bind]. by rewrite Hpaths.
Qed.

Lemma document_without_paths_witness :
  generateEndpoints 8 {| spec := JObj [("openapi", JStr "3.0.0")];
                         endpoints := endpoints freshParser;
                         workflows := workflows freshParser |}
  = Throw (Error "No paths found in OpenAPI specification")
  ∧ parseFromFile 8 freshParser (JObj [("openapi", JStr "3.0.0")])
    = Throw (Error "Failed to parse OpenAPI spec: No paths found in OpenAPI specification").
Proof.
  apply (document_without_paths 8 freshParser (JObj [("openapi", JStr "3.0.0")]));
    reflexivity.
Defined.

(** X21.  A resource with the two usual paths gets its workflow.  When a
    document that [parseFromFile] accepts has a template that does not
    end in a path parameter with [get] and [post], and a template that
    ends in one with [get] and [delete], and both templates have the
    same endpoint name, the result holds the workflow
    [<name>_crud_workflow]. *)
Theorem crud_paths_get_a_workflow (fuel : nat) (p : Parser) (document : jsval)
    (result : ParseResult) (collection item : string) (collectionItem itemItem : jsval) :
  parseFromFile fuel p document = Ret result ->
  (collection, collectionItem) ∈ entries (get document "paths") ->
  (item, itemItem) ∈ entries (get document "paths") ->
  extractEndpointName item = extractEndpointName collection ->
  endsWith collection "}" = false ->
  endsWith item "}" = true ->
  "get" ∈ (entries collectionItem).*1 ->
  "post" ∈ (entries collectionItem).*1 ->
  "get" ∈ (entries itemItem).*1 ->
  "delete" ∈ (entries itemItem).*1 ->
  ∃ endpoint,
    map_get (extractEndpointName collection) (res_endpoints result) = Some endpoint
    ∧ four_operations endpoint
    ∧ is_Some (map_get (extractEndpointName collection +:+ "_crud_workflow")
                       (res_workflows result)).
Proof.
  intros Hparse Hc Hi Hname Hcend Hiend Hcget Hcpost Higet Hidelete.
  unfold parseFromFile in Hparse.
  destruct (generateEndpoints fuel _) as [eps|] eqn:Hgen; [|done]. cbn [bind] in Hparse.
  destruct (generateWorkflows fuel _) as [wfs|] eqn:Hwfs; [|done]. cbn [bind] in Hparse.
  injection Hparse as <-. cbn [res_endpoints res_workflows].
  apply generateEndpoints_loop in Hgen. cbn [spec endpoints] in Hgen.
  apply endpoints_loop in Hgen as (_ & _ & _ & Hcover).
  destruct (Hcover _ _ Hc) as (ep & Hget & Hops & _).
  destruct (Hcover _ _ Hi) as (ep' & Hget' & Hops' & _).
  rewrite Hname, Hget in Hget'. injection Hget' as <-.
  assert (Hin : ∀ k o, k ∈ (entries o).*1 -> ∃ x, (k, x) ∈ entries o).
  { intros k o ([k' x] & -> & Hx)%list_elem_of_fmap. eauto. }
  apply Hin in Hcget as [x1 H1], Hcpost as [x2 H2], Higet as [x3 H3], Hidelete as [x4 H4].
  apply Hops in H1, H2; [|reflexivity..]. apply Hops' in H3, H4; [|reflexivity..].
  unfold operationKey in H1, H2, H3, H4. rewrite Hcend in H1, H2. rewrite Hiend in H3, H4.
  assert (Hfour : four_operations ep) by done.
  exists ep. split; [done|]. split; [done|].
  unfold generateWorkflows in Hwfs. cbn [endpoints workflows] in Hwfs.
  apply workflows_loop in Hwfs as [Hdom _]. apply Hdom. right.
  exists (extractEndpointName collection), ep.
  split; [by apply map_get_elem_of|]. split; [by apply hasAll_four_operations|done].
Qed.

Lemma crud_paths_get_a_workflow_witness :
  ∃ endpoint,
    map_get (extractEndpointName "/notes") (res_endpoints notesResult) = Some endpoint
    ∧ four_operations endpoint
    ∧ is_Some (map_get (extractEndpointName "/notes" +:+ "_crud_workflow")
                       (res_workflows notesResult)).
Proof.
  apply (crud_paths_get_a_workflow 8 freshParser notesDocument notesResult
           "/notes" "/notes/{noteId}"
           (JObj [("get", JObj []); ("post", JObj [])])
           (JObj [("get", JObj []); ("delete", JObj [])]));
    try (vm_compute; reflexivity); try compute_done.
  - right. left.
  - left.
Defined.

(** ** The methods of an endpoint *)

Lemma existsb_eqb (x : string) (l : list string) :
  existsb (String.eqb x) l = true <-> x ∈ l.
Proof.
  induction l as [|y l IH]; cbn [existsb].
  - split; [done|by intros ?%elem_of_nil].
  - rewrite orb_true_iff, IH, elem_of_cons, eqb_true. done.
Qed.

Lemma unique_spec (l : list string) : ∀ seen,
  NoDup (unique seen l) ∧ ∀ x, x ∈ unique seen l <-> x ∈ l ∧ x ∉ seen.
Proof.
  induction l as [|y l IH]; intros seen; cbn [unique].
  - split; [apply NoDup_nil_2|]. intros x. split; [by intros ?%elem_of_nil|].
    by intros [?%elem_of_nil _].
  - destruct (existsb (String.eqb y) seen) eqn:E.
    + apply existsb_eqb in E. destruct (IH seen) as [Hnd Hin]. split; [done|].
      intros x. rewrite Hin, elem_of_cons. split; [tauto|].
      intros [[->|H] Hx]; [done|tauto].
    + assert (Hy : y ∉ seen) by (rewrite <- existsb_eqb; congruence).
      destruct (IH (y :: seen)) as [Hnd Hin]. split.
      * apply NoDup_cons. split; [|done]. rewrite Hin, elem_of_cons. tauto.
      * intros x. rewrite !elem_of_cons, Hin, elem_of_cons.
        destruct (decide (x = y)) as [->|Hne]; tauto.
Qed.

Lemma methods_loop fuel spec (l : list (string * jsval)) : ∀ eps eps',
  let methods_ok (ep : Endpoint) :=
    NoDup (ep_methods ep)
    ∧ ∀ m, m ∈ ep_methods ep -> m ∈ ["GET"; "POST"; "PUT"; "PATCH"; "DELETE"] in
  foldM (endpointsTurn fuel spec) l eps = Ret eps' ->
  ((∀ n ep, map_get n eps = Some ep -> methods_ok ep) ->
   ∀ n ep, map_get n eps' = Some ep -> methods_ok ep)
  ∧ (∀ n ep, map_get n eps = Some ep ->
       ∃ ep', map_get n eps' = Some ep' ∧ ∀ m, m ∈ ep_methods ep -> m ∈ ep_methods ep')
  ∧ (∀ t item, (t, item) ∈ l ->
       ∃ ep, map_get (extractEndpointName t) eps' = Some ep
             ∧ ∀ method, method ∈ (entries item).*1 -> method ∈ verbs ->
                 toUpperCase method ∈ ep_methods ep).
Proof.
  cbv zeta. induction l as [|[t item] l IH]; intros eps eps'.
  - intros [= <-]. split; [done|]. split; [eauto|]. by intros ?? ?%elem_of_nil.
  - cbn [foldM]. destruct (endpointsTurn fuel spec eps (t, item)) as [eps1|] eqn:Hturn;
      [|done].
    cbn [bind]. intros (Hok & Hkeeps & Hcover)%IH. clear IH.
    apply endpointsTurn_stores in Hturn as (ep1 & -> & _ & _ & _ & Hmethods).
    cbv zeta in Hmethods.
    set (n := extractEndpointName t) in *.
    set (old := default _ (map_get n eps)) in *.
    destruct (unique_spec (ep_methods old
                ++ filter (λ m, existsb (String.eqb m)
                                  ["GET"; "POST"; "PUT"; "PATCH"; "DELETE"] = true)
                          (toUpperCase <$> (entries item).*1)) []) as [Hnd Hin].
    rewrite <- Hmethods in Hnd, Hin.
    assert (Hin' : ∀ m, m ∈ ep_methods ep1 <->
                        m ∈ ep_methods old
                        ∨ (m ∈ toUpperCase <$> (entries item).*1)
                          ∧ m ∈ ["GET"; "POST"; "PUT"; "PATCH"; "DELETE"]).
    { intros m. rewrite Hin, elem_of_app, list_elem_of_filter, existsb_eqb.
      split; [tauto|]. intros H. split; [tauto|]. by intros ?%elem_of_nil. }
    clear Hin Hmethods. split; [|split].
    + intros H. apply Hok. intros n' ep.
      destruct (decide (n = n')) as [<-|Hne]; [|rewrite map_get_set_ne by done; apply H].
      rewrite map_get_set_eq. intros [= <-]. split; [done|].
      intros m [Hm|[_ Hm]]%Hin'; [|done].
      subst old. destruct (map_get n eps) as [ep|] eqn:Hget.
      * by apply (H n ep Hget).
      * by apply elem_of_nil in Hm.
    + intros n' ep Hget. destruct (decide (n = n')) as [<-|Hne].
      * destruct (Hkeeps n ep1 (map_get_set_eq _ _ _)) as (ep' & Hget' & Hsub).
        exists ep'. split; [done|]. intros m Hm. apply Hsub, Hin'. left.
        subst old. by rewrite Hget.
      * apply Hkeeps. by rewrite map_get_set_ne.
    + intros t' item' [[= -> ->]|Hin]%elem_of_cons; [|by apply Hcover].
      destruct (Hkeeps n ep1 (map_get_set_eq _ _ _)) as (ep' & Hget' & Hsub).
      exists ep'. split; [done|]. intros m Hm Hverb. apply Hsub, Hin'. right. split.
      * apply list_elem_of_fmap. eauto.
      * unfold verbs in Hverb.
        repeat (apply elem_of_cons in Hverb as [->|Hverb]; [compute_done|]).
        by apply elem_of_nil in Hverb.
Qed.

(** X22.  The methods [generateEndpoints] lists for an endpoint are
    among [GET], [POST], [PUT], [PATCH] and [DELETE], each at most once
    however many paths of the endpoint have the verb, and the verbs of
    every path item of the document are among the methods of the
    endpoint named after its path. *)
Theorem endpoint_methods (fuel : nat) (p : Parser) (eps : list (string * Endpoint)) :
  endpoints p = [] ->
  generateEndpoints fuel p = Ret eps ->
  (∀ n ep, map_get n eps = Some ep ->
     NoDup (ep_methods ep)
     ∧ ∀ m, m ∈ ep_methods ep -> m ∈ ["GET"; "POST"; "PUT"; "PATCH"; "DELETE"])
  ∧ (∀ t item, (t, item) ∈ entries (get (spec p) "paths") ->
       ∃ ep, map_get (extractEndpointName t) eps = Some ep
             ∧ ∀ method, method ∈ (entries item).*1 -> method ∈ verbs ->
                 toUpperCase method ∈ ep_methods ep).
Proof.
  intros Hfresh Hgen%generateEndpoints_loop. rewrite Hfresh in Hgen.
  apply methods_loop in Hgen as (Hok & _ & Hcover). split; [|done].
  by apply Hok.
Qed.

Lemma endpoint_methods_witness :
  (∀ n ep, map_get n notesEndpoints = Some ep ->
     NoDup (ep_methods ep)
     ∧ ∀ m, m ∈ ep_methods ep -> m ∈ ["GET"; "POST"; "PUT"; "PATCH"; "DELETE"])
  ∧ (∀ t item, (t, item) ∈ entries (get notesDocument "paths") ->
       ∃ ep, map_get (extractEndpointName t) notesEndpoints = Some ep
             ∧ ∀ method, method ∈ (entries item).*1 -> method ∈ verbs ->
                 toUpperCase method ∈ ep_methods ep).
Proof.
  apply (endpoint_methods 8 {| spec := notesDocument; endpoints := []; workflows := [] |});
    [reflexivity|vm_compute; reflexivity].
Defined.

(** ** Path parameters *)

Lemma append_assoc (a b c : string) : (a +:+ b) +:+ c = a +:+ b +:+ c.
Proof. induction a as [|x a IH]; [done|]. by rewrite !append_cons, IH. Qed.

Lemma until_close_append (x rest : string) :
  includes x "}" = false -> until_close (x +:+ String "}" rest) = Some (x, rest).
Proof.
  induction x as [|c x IH]; [done|].
  rewrite includes_char. intros [Hc Hx]%orb_false_iff.
  rewrite append_cons. cbn [until_close]. by rewrite Hc, IH.
Qed.

(** With a replacement text without a dollar sign, the text before a
    match plays no part. *)
Lemma replaceParams_before (repl : string) (s : string) : ∀ skip before before',
  includes repl "$" = false ->
  replaceParams skip before s repl = replaceParams skip before' s repl.
Proof.
  induction s as [|c s IH]; intros skip before before' Hrepl; [done|].
  cbn [replaceParams]. destruct skip as [|n]; [|by apply IH].
  destruct (if Ascii.eqb c "{" then until_close s else None) as [[[|b body] rest]|].
  - f_equal. by apply IH.
  - rewrite !getSubstitution_plain by done. f_equal. by apply IH.
  - f_equal. by apply IH.
Qed.

Lemma replaceParams_skip (repl : string) (x rest : string) : ∀ before,
  includes repl "$" = false ->
  replaceParams (String.length x) before (x +:+ rest) repl
  = replaceParams 0 EmptyString rest repl.
Proof.
  induction x as [|c x IH]; intros before Hrepl.
  - by apply replaceParams_before.
  - rewrite append_cons. cbn [String.length replaceParams]. by apply IH.
Qed.

Lemma replaceParams_plain (repl : string) (s : string) : ∀ before,
  includes s "{" = false -> replaceParams 0 before s repl = s.
Proof.
  induction s as [|c s IH]; intros before; [done|].
  rewrite includes_char. intros [Hc Hs]%orb_false_iff.
  cbn [replaceParams]. rewrite Hc. f_equal. by apply IH.
Qed.

(** X23.  Every path parameter of a URL is replaced by the same text:
    [url.replace(/\{[^}]+\}/g, id)] turns the first parameter into the
    [id] (an [id] without a dollar sign) and goes on in the same way
    with what follows it, so that in [/users/{userId}/posts/{postId}]
    both parameters become the [id]; a text without parameters is left
    as it is. *)
Theorem path_parameters_become_the_id (p x rest id : string) :
  includes p "{" = false ->
  x ≠ EmptyString ->
  includes x "}" = false ->
  includes id "$" = false ->
  replaceParams 0 EmptyString (p +:+ "{" +:+ x +:+ String "}" rest) id
  = p +:+ id +:+ replaceParams 0 EmptyString rest id
  ∧ replaceParams 0 EmptyString p id = p.
Proof.
  intros Hp Hx Hclose Hid. split; [|by apply replaceParams_plain].
  generalize EmptyString at 1 as before.
  induction p as [|c p IH]; intros before.
  - change (replaceParams 0 before (String "{" (x +:+ String "}" rest)) id
            = id +:+ replaceParams 0 "" rest id).
    cbn [replaceParams]. change (Ascii.eqb "{" "{") with true. cbn iota.
    rewrite until_close_append by done. destruct x as [|b body]; [done|].
    rewrite getSubstitution_plain by done. f_equal.
    replace (String.length body + 2)%nat with (String.length (String b body +:+ "}"))
      by (rewrite length_append; cbn [String.length]; lia).
    change (String b body +:+ String "}" rest) with (String b body +:+ "}" +:+ rest).
    rewrite <- append_assoc. by apply replaceParams_skip.
  - rewrite includes_char in Hp. apply orb_false_iff in Hp as [Hc Hp].
    rewrite !append_cons. cbn [replaceParams]. rewrite Hc. f_equal. by apply IH.
Qed.

Lemma path_parameters_become_the_id_witness :
  replaceParams 0 EmptyString ("/users/" +:+ "{" +:+ "userId" +:+ String "}" "/posts/{postId}")
    "7"
  = "/users/" +:+ "7" +:+ replaceParams 0 EmptyString "/posts/{postId}" "7"
  ∧ replaceParams 0 EmptyString "/users/" "7" = "/users/".
Proof.
  apply (path_parameters_become_the_id "/users/" "userId" "/posts/{postId}" "7");
    [reflexivity|discriminate|reflexivity|reflexivity].
Defined.

(** ** Foreign keys point into the registry *)

Lemma detect_loop_Some endpoints propName isUuid patterns info :
  detect_loop endpoints propName isUuid patterns = Some info ->
  fk_sourceProperty info = propName
  ∧ isUuid = true
  ∧ map_has (fk_targetEndpoint info) endpoints = true
  ∧ fk_targetEndpoint info
    = default (pluralize (fk_targetResource info))
              (resourceMappings (fk_targetResource info))
  ∧ fk_targetResource info = toLowerCase (fk_targetResource info).
Proof.
  induction patterns as [|pattern patterns IH]; cbn [detect_loop]; [done|].
  unfold candidate. destruct (pattern propName) as [group|]; [|done].
  destruct (isUuid && map_has _ endpoints) eqn:E; [|done].
  apply andb_true_iff in E as [-> E]. intros [= <-]. cbn.
  repeat split; try done.
  clear. induction group as [|c s IH]; [done|]. cbn [toLowerCase]. f_equal; [|done].
  unfold lower_char.
  destruct ((65 <=? nat_of_ascii c) && (nat_of_ascii c <=? 90))%nat eqn:E; [|by rewrite E].
  apply andb_true_iff in E as [H1%Nat.leb_le H2%Nat.leb_le].
  rewrite nat_ascii_embedding by lia.
  replace ((65 <=? nat_of_ascii c + 32) && (nat_of_ascii c + 32 <=? 90))%nat with false;
    [done|].
  symmetry. apply andb_false_iff. right. apply Nat.leb_gt. lia.
Qed.

(** X24.  A foreign key is only ever detected towards an endpoint of the
    registry, and only for a property of format [uuid]: what
    [detectForeignKeyRelationship] returns names the property it was
    asked about and a target endpoint the registry holds, the mapped or
    pluralized form of a lower-case resource name. *)
Theorem foreign_keys_point_into_the_registry (endpoints : list (string * Endpoint))
    (propName : string) (propSchema : jsval) (currentEndpoint : string)
    (info : ForeignKeyInfo) :
  detectForeignKeyRelationship endpoints propName propSchema currentEndpoint = Some info ->
  fk_sourceProperty info = propName
  ∧ is_str (get propSchema "format") "uuid" = true
  ∧ map_has (fk_targetEndpoint info) endpoints = true
  ∧ fk_targetEndpoint info
    = default (pluralize (fk_targetResource info))
              (resourceMappings (fk_targetResource info))
  ∧ fk_targetResource info = toLowerCase (fk_targetResource info).
Proof. apply detect_loop_Some. Qed.

Lemma foreign_keys_point_into_the_registry_witness :
  fk_sourceProperty authorKey = "authorId"
  ∧ is_str (get uuidSchema "format") "uuid" = true
  ∧ map_has (fk_targetEndpoint authorKey) (endpoints blogParser) = true
  ∧ fk_targetEndpoint authorKey
    = default (pluralize (fk_targetResource authorKey))
              (resourceMappings (fk_targetResource authorKey))
  ∧ fk_targetResource authorKey = toLowerCase (fk_targetResource authorKey).
Proof.
  apply (foreign_keys_point_into_the_registry (endpoints blogParser) "authorId"
           uuidSchema "posts" authorKey).
  vm_compute. reflexivity.
Defined.

(** ** Generated operation ids *)

Lemma split_plain (sep : ascii) (s : string) :
  includes s (String sep EmptyString) = false -> split sep s = [s].
Proof.
  induction s as [|c s IH]; [done|].
  rewrite includes_char. intros [Hc Hs]%orb_false_iff.
  cbn [split]. by rewrite Hc, IH.
Qed.

Lemma split_append (sep : ascii) (a b : string) :
  includes a (String sep EmptyString) = false ->
  split sep (a +:+ String sep b) = a :: split sep b.
Proof.
  induction a as [|c a IH].
  - intros _. change (split sep (String sep b) = "" :: split sep b).
    cbn [split]. by rewrite Ascii.eqb_refl.
  - rewrite includes_char. intros [Hc Ha]%orb_false_iff.
    rewrite append_cons. cbn [split]. by rewrite Hc, IH.
Qed.

Lemma startsWith_cons (c : ascii) (s : string) :
  startsWith (String c s) (String c EmptyString) = true.
Proof.
  unfold startsWith. cbn [String.prefix]. destruct (ascii_dec c c); [by destruct s|done].
Qed.

Lemma endsWith_cons_false (c d : ascii) (r : string) :
  c ≠ d -> endsWith r (String d EmptyString) = false ->
  endsWith (String c r) (String d EmptyString) = false.
Proof.
  intros Hne Hr. destruct (endsWith (String c r) (String d "")) eqn:E; [|done].
  apply endsWith_spec in E as [[|c' pre] E].
  - injection E as -> _. done.
  - rewrite append_cons in E. injection E as _ ->.
    rewrite <- Hr. symmetry. apply endsWith_spec. eauto.
Qed.

(** X25.  The operation ids generated for the two paths of a resource
    [r]: on the collection path [/r] the id of [get] is [list_r] and the
    id of [post] is [create_r], with the name of the resource as it is;
    on the item path [/r/{x}] the ids are [get_], [update_] (for [put]
    and for [patch] alike) and [delete_] followed by the name without
    its final [s]. *)
Theorem operation_ids_of_a_resource (r x : string) :
  r ≠ EmptyString ->
  includes r "/" = false ->
  startsWith r "{" = false ->
  endsWith r "}" = false ->
  includes x "/" = false ->
  let collection := "/" +:+ r in
  let item := "/" +:+ r +:+ "/{" +:+ x +:+ "}" in
  let singular := if endsWith r "s" then slice_init r else r in
  generateOperationId "get" collection = "list_" +:+ r
  ∧ generateOperationId "post" collection = "create_" +:+ r
  ∧ generateOperationId "get" item = "get_" +:+ singular
  ∧ generateOperationId "put" item = "update_" +:+ singular
  ∧ generateOperationId "patch" item = "update_" +:+ singular
  ∧ generateOperationId "delete" item = "delete_" +:+ singular.
Proof.
  intros Hr Hslash Hopen Hclose Hx. cbv zeta.
  assert (Hparts : ∀ path,
            split "/" path = [""; r] ∨ split "/" path = [""; r; "{" +:+ x +:+ "}"] ->
            last (filter (λ p, negb (String.eqb p "") && negb (startsWith p "{") = true)
                         (split "/" path)) = Some r).
  { assert (Hkeep : negb (String.eqb r "") && negb (startsWith r "{") = true).
    { rewrite Hopen. apply eqb_false in Hr. by rewrite Hr. }
    intros path [-> | ->].
    - rewrite filter_cons_False by (intros H; vm_compute in H; discriminate).
      by rewrite filter_cons_True, filter_nil by done.
    - rewrite filter_cons_False by (intros H; vm_compute in H; discriminate).
      rewrite filter_cons_True by done.
      rewrite filter_cons_False, filter_nil; [done|].
      rewrite append_cons, startsWith_cons. by rewrite andb_false_r. }
  assert (Hc : split "/" ("/" +:+ r) = [""; r]).
  { change ("/" +:+ r) with ("" +:+ String "/" r).
    by rewrite (split_append "/" "" r), split_plain. }
  assert (Hi : split "/" ("/" +:+ r +:+ "/{" +:+ x +:+ "}") = [""; r; "{" +:+ x +:+ "}"]).
  { change ("/" +:+ r +:+ "/{" +:+ x +:+ "}")
      with ("" +:+ String "/" (r +:+ String "/" ("{" +:+ x +:+ "}"))).
    rewrite (split_append "/" "") by done. rewrite split_append by done.
    rewrite split_plain; [done|].
    change (includes (String "{" (x +:+ "}")) (String "/" EmptyString) = false).
    rewrite includes_char. change (Ascii.eqb "{" "/") with false. cbn [orb].
    clear -Hx. induction x as [|c x IH]; [done|].
    rewrite includes_char in Hx. apply orb_false_iff in Hx as [Hc Hx].
    rewrite append_cons. rewrite includes_char, Hc. by apply IH. }
  assert (Hcend : endsWith ("/" +:+ r) "}" = false) by (by apply endsWith_cons_false).
  assert (Hiend : endsWith ("/" +:+ r +:+ "/{" +:+ x +:+ "}") "}" = true).
  { apply endsWith_spec. exists ("/" +:+ r +:+ "/{" +:+ x).
    by rewrite !append_assoc. }
  unfold generateOperationId.
  rewrite !(Hparts _ (or_introl Hc)), !(Hparts _ (or_intror Hi)), Hcend, Hiend.
  done.
Qed.

Lemma operation_ids_of_a_resource_witness :
  generateOperationId "get" ("/" +:+ "users") = "list_" +:+ "users"
  ∧ generateOperationId "post" ("/" +:+ "users") = "create_" +:+ "users"
  ∧ generateOperationId "get" ("/" +:+ "users" +:+ "/{" +:+ "userId" +:+ "}")
    = "get_" +:+ (if endsWith "users" "s" then slice_init "users" else "users")
  ∧ generateOperationId "put" ("/" +:+ "users" +:+ "/{" +:+ "userId" +:+ "}")
    = "update_" +:+ (if endsWith "users" "s" then slice_init "users" else "users")
  ∧ generateOperationId "patch" ("/" +:+ "users" +:+ "/{" +:+ "userId" +:+ "}")
    = "update_" +:+ (if endsWith "users" "s" then slice_init "users" else "users")
  ∧ generateOperationId "delete" ("/" +:+ "users" +:+ "/{" +:+ "userId" +:+ "}")
    = "delete_" +:+ (if endsWith "users" "s" then slice_init "users" else "users").
Proof.
  apply (operation_ids_of_a_resource "users" "userId");
    [discriminate|reflexivity|reflexivity|reflexivity|reflexivity].
Defined.

(** ** Registries whose sample payloads are generated

    Enough for the sample payloads to be generated: request bodies
    without a JSON schema, or with an object schema whose properties
    have no parts and no references. *)

Lemma obj_set_get (k : string) (o : list (string * jsval)) :
  obj_has k o = true -> obj_set k (obj_get k o) o = o.
Proof.
  induction o as [|[k' v] o IH]; [done|]. cbn [obj_has obj_get obj_set].
  destruct (String.eqb k' k); [done|]. cbn [orb]. intros H. by rewrite IH.
Qed.

Lemma obj_get_Forall (P : string * jsval -> Prop) (k : string)
    (o : list (string * jsval)) :
  Forall P o -> obj_has k o = true -> P (k, obj_get k o).
Proof.
  induction 1 as [|[k' v] o Hkv _ IH]; [done|]. cbn [obj_has obj_get].
  destruct (String.eqb k' k) eqn:E; [|exact IH].
  apply String.eqb_eq in E. by subst k'.
Qed.

Lemma flat_property_resolves fuel spec v :
  flat_property v -> resolveSchemaReference (S fuel) spec v = Ret v.
Proof.
  intros ([kvs ->] & Href & Hobject & Harray).
  rewrite resolveSchemaReference_S. cbn [truthy negb]. by rewrite Href, Hobject, Harray.
Qed.

Lemma flat_schema_resolves fuel spec schema :
  flat_schema schema -> resolveSchemaReference (S (S fuel)) spec schema = Ret schema.
Proof.
  intros (kvs & props & -> & Href & Htype & Hprops & Hflat & _).
  rewrite resolveSchemaReference_S. cbn [truthy negb]. rewrite Href, Htype, Hprops.
  cbn [truthy andb entries].
  assert (Hm : mapM (λ kv, do v <- resolveSchemaReference (S fuel) spec kv.2;
                           Ret (kv.1, v)) props = Ret props).
  { apply mapM_Ret. clear Hprops. induction Hflat as [|[k v] props [_ Hv] _ IH].
    - constructor.
    - constructor; [|exact IH]. cbn [fst snd]. by rewrite flat_property_resolves. }
  rewrite Hm. cbn [bind]. do 2 f_equal. cbn [get] in Hprops. rewrite <- Hprops.
  apply obj_set_get. destruct (obj_has "properties" kvs) eqn:E; [done|].
  by rewrite obj_get_absent in Hprops.
Qed.

Lemma flat_property_sample fuel endpoints name v endpointName :
  flat_property v ->
  ∃ r, generateSampleValueForProp (S fuel) endpoints (JStr name) v endpointName = Ret r.
Proof.
  intros ([kvs ->] & _ & Hobject & Harray).
  rewrite generateSampleValueForProp_S. unfold getp. cbn [nullish bind]. cbv zeta.
  rewrite Hobject, Harray.
  destruct (negb _); [by eexists|]. destruct (truthy _); [by eexists|].
  destruct (is_str _ "string"); [by eexists|].
  destruct (_ || _); [by eexists|].
  destruct (is_str _ "boolean"); by eexists.
Qed.

Lemma flat_schema_sample fuel endpoints schema endpointName :
  flat_schema schema ->
  ∃ sampleData, generateSampleData (S fuel) endpoints schema endpointName = Ret sampleData.
Proof.
  intros (kvs & props & -> & _ & Htype & Hprops & Hflat & Hrequired).
  unfold generateSampleData, generateSampleData_body. rewrite Htype, Hprops.
  cbn [truthy negb orb].
  assert (Hnames : ∃ names,
            iterate (if is_undefined (get (JObj kvs) "required") then JArr []
                     else get (JObj kvs) "required") = Ret (JStr <$> names)).
  { destruct Hrequired as [-> | (names & -> & _)]; [by exists []|by exists names]. }
  destruct Hnames as [names ->]. cbn [bind].
  match goal with |- context [foldM ?f (JStr <$> names) []] =>
    destruct (foldM_returns f (JStr <$> names)) with (s := @nil (string * jsval))
      as [s0 ->]
  end.
  { intros a (name & -> & _)%list_elem_of_fmap s. cbn [get toString].
    destruct (truthy (obj_get name props)) eqn:Hprop; [|by eexists].
    destruct (truthy (get (obj_get name props) "readOnly")); [by eexists|].
    destruct (obj_get_Forall _ name props Hflat (truthy_obj_has _ _ Hprop)) as [_ Hv].
    cbn [snd] in Hv.
    destruct (flat_property_sample fuel endpoints name _ endpointName Hv) as [r ->].
    by eexists. }
  cbn [bind entries]. apply foldM_returns.
  intros [k v] Hin s. cbn [fst snd]. destruct (obj_has k s); [by eexists|].
  rewrite Forall_forall in Hflat. destruct (Hflat _ Hin) as [_ Hv]. cbn [snd] in Hv.
  pose proof Hv as ([kvs' ->] & _). unfold getp. cbn [nullish bind].
  destruct (truthy _); [by eexists|].
  destruct (flat_property_sample fuel endpoints k _ endpointName Hv) as [r ->].
  by eexists.
Qed.

Lemma flat_body_payload fuel p endpoint method endpointName :
  (∀ m operation, operations endpoint !! m = Some operation ->
                  flat_body (requestBody operation)) ->
  ∃ payload,
    generateWorkflowSampleData (S (S fuel)) p endpoint method endpointName = Ret payload.
Proof.
  intros Hflat. unfold generateWorkflowSampleData.
  destruct method as [m|]; [|by eexists].
  destruct (operations endpoint !! m) as [operation|] eqn:Hop; [|by eexists].
  destruct (truthy (requestBody operation)); [|by eexists].
  unfold extractSchemaFromRequestBody.
  destruct (Hflat m operation Hop) as [Hnone|Hschema]; cbv zeta in *.
  - rewrite Hnone. cbn [negb bind truthy]. by eexists.
  - assert (Htruthy : truthy (get_opt (get_opt (get_opt (requestBody operation) "content")
                                         "application/json") "schema") = true).
    { by destruct Hschema as (kvs & props & -> & _). }
    rewrite Htruthy. cbn [negb]. rewrite flat_schema_resolves by done. cbn [bind].
    rewrite Htruthy.
    destruct (flat_schema_sample (S fuel) (endpoints p) _ endpointName Hschema)
      as [sampleData ->].
    by eexists.
Qed.

(** In a registry whose request bodies are flat, the sample payloads of
    every endpoint are generated at every depth of recursion from 2
    on. *)
Lemma flat_registry_sample_data_returns fuel p endpointName endpoint :
  (∀ m operation, operations endpoint !! m = Some operation ->
                  flat_body (requestBody operation)) ->
  sample_data_returns (S (S fuel)) p endpointName endpoint.
Proof.
  intros Hflat.
  destruct (flat_body_payload fuel p endpoint (Some "POST") endpointName Hflat)
    as [createData Hc].
  destruct (flat_body_payload fuel p endpoint (updateMethod endpoint) endpointName Hflat)
    as [updateData Hu].
  by exists createData, updateData.
Qed.

